(** * Attested analytics relay: the verifier and the job orchestrator

    A shallow embedding of the two JavaScript modules of the backend:

    - the attestation verifier ([verifyTdxQuote], [verifyReportDataBinding],
      [verifyResultSignature], [verifyAttestation]);
    - the job orchestrator of the API server ([processJob] and the
      [/api/submit] handler that starts it).

    JavaScript values that travel through these functions are JSON values
    (they come from [express.json()] and from [axios] response bodies) or
    [undefined].  Exceptions are explicit: a computation either completes
    normally or throws.  The three things the code reaches outside the
    process for (the quote verification service, [ethers.verifyMessage], the
    compute endpoint) are parameters of the model. *)

From Stdlib Require Import ZArith NArith Ascii String List Bool Lia.
From Stdlib Require Import DecimalString.
From stdpp Require Import base option list sorting strings gmap.

Local Open Scope string_scope.
Local Open Scope list_scope.

(** ** Completions: normal return or a thrown exception *)

Module Completion.

Inductive completion (A : Type) : Type :=
| Normal (a : A)
| Thrown (message : string).
Arguments Normal {A} a.
Arguments Thrown {A} message.

Definition bind {A B} (c : completion A) (k : A -> completion B) : completion B :=
  match c with
  | Normal a => k a
  | Thrown m => Thrown m
  end.

(** [try { body } catch (error) { handler(error.message) }] *)
Definition try_catch {A} (body : completion A) (handler : string -> completion A)
  : completion A :=
  match body with
  | Normal a => Normal a
  | Thrown m => handler m
  end.

Definition is_normal {A} (c : completion A) : bool :=
  match c with Normal _ => true | Thrown _ => false end.

End Completion.
Export Completion.

#[export] Instance completion_ret : MRet completion := @Normal.
#[export] Instance completion_bind : MBind completion :=
  fun A B k c => Completion.bind c k.
#[export] Instance completion_fmap : FMap completion :=
  fun A B f c => Completion.bind c (fun a => Normal (f a)).

(** ** JSON values as JavaScript sees them *)

Module Js.

(** A number is kept as the text [Number::toString] gives for it, which is
    what [JSON.stringify] emits; the only other thing the code does with a
    number is test its truthiness (a number parsed from JSON is finite, and
    a zero of either sign prints as [0]). Strings are sequences of character
    codes below 256. An object is the list of its own properties in the
    order [Object.keys] and [JSON.stringify] enumerate them. *)
#[warnings="-register-all"]
Inductive json : Type :=
| JNull
| JBool (b : bool)
| JNum (text : string)
| JStr (s : string)
| JArr (items : list json)
| JObj (props : list (string * json)).

(** A JavaScript value read out of JSON data: [None] is [undefined]. *)
Definition value := option json.

Section JsonInduction.
Variable P : json -> Prop.
Hypothesis Hnull : P JNull.
Hypothesis Hbool : forall b, P (JBool b).
Hypothesis Hnum : forall t, P (JNum t).
Hypothesis Hstr : forall s, P (JStr s).
Hypothesis Harr : forall items, Forall P items -> P (JArr items).
Hypothesis Hobj : forall props, Forall (fun kv => P (snd kv)) props -> P (JObj props).

Fixpoint json_nested_ind (j : json) : P j :=
  match j with
  | JNull => Hnull
  | JBool b => Hbool b
  | JNum t => Hnum t
  | JStr s => Hstr s
  | JArr items =>
      Harr items
        ((fix each (l : list json) : Forall P l :=
            match l with
            | [] => List.Forall_nil P
            | x :: xs => @List.Forall_cons _ P x xs (json_nested_ind x) (each xs)
            end) items)
  | JObj props =>
      Hobj props
        ((fix each (l : list (string * json)) : Forall (fun kv => P (snd kv)) l :=
            match l with
            | [] => List.Forall_nil _
            | kv :: xs =>
                @List.Forall_cons _ (fun kv => P (snd kv)) kv xs
                  (json_nested_ind (snd kv)) (each xs)
            end) props)
  end.
End JsonInduction.

(** [!!v] of JavaScript: [undefined], [null], [false], [0] and the empty
    string are falsy, every object and array is truthy. *)
Definition truthy (v : value) : bool :=
  match v with
  | None => false
  | Some JNull => false
  | Some (JBool b) => b
  | Some (JNum t) => negb (String.eqb t "0")
  | Some (JStr s) => negb (String.eqb s "")
  | Some (JArr _) => true
  | Some (JObj _) => true
  end.

(** [a || b] *)
Definition js_or (a b : value) : value := if truthy a then a else b.

(** Own property lookup in an object's property list. *)
Fixpoint own (props : list (string * json)) (key : string) : value :=
  match props with
  | [] => None
  | (k, v) :: rest => if String.eqb k key then Some v else own rest key
  end.

(** [v.name] for the property names the code reads ([result],
    [risk_metrics], [quote], [signature], ...): none of them exists on
    [Object.prototype], [Array.prototype] or on the wrappers of primitives,
    so only an object's own property can answer.  Reading a property of
    [null] or [undefined] throws a TypeError. *)
Definition member (v : value) (name : string) : completion value :=
  match v with
  | None => Thrown ("Cannot read properties of undefined (reading '" +:+ name +:+ "')")
  | Some JNull => Thrown ("Cannot read properties of null (reading '" +:+ name +:+ "')")
  | Some (JObj props) => Normal (own props name)
  | Some _ => Normal None
  end.

(** [v?.name] *)
Definition opt_member (v : value) (name : string) : value :=
  match v with
  | Some (JObj props) => own props name
  | _ => None
  end.

(** [Object.keys(obj)] of a plain object. *)
Definition keys (props : list (string * json)) : list string := map fst props.

(** *** Property order of ordinary objects

    A key that is an array index (the canonical decimal text of an integer
    below 2^32 - 1) is enumerated before every other key, in ascending
    numeric order; the other keys follow in the order of their creation. *)

Definition digit_value (c : ascii) : option N :=
  let n := N_of_ascii c in
  if ((48 <=? n) && (n <=? 57))%N then Some (n - 48)%N else None.

Fixpoint decimal_value (acc : N) (s : string) : option N :=
  match s with
  | EmptyString => Some acc
  | String c rest =>
      match digit_value c with
      | Some d => decimal_value (10 * acc + d)%N rest
      | None => None
      end
  end.

Definition array_index (key : string) : option N :=
  match key with
  | EmptyString => None
  | String c rest =>
      if (Ascii.eqb c "0" && negb (String.eqb rest ""))%bool then None
      else match decimal_value 0 key with
           | Some n => if (n <? 2 ^ 32 - 1)%N then Some n else None
           | None => None
           end
  end.

Definition has_own (props : list (string * json)) (key : string) : bool :=
  existsb (String.eqb key) (keys props).

(** Whether the string conversion of a value that was parsed from JSON
    returns (a template literal converts each [${...}] in this way).  An
    object with an own [toString] property has one that cannot be called;
    [Object.prototype.valueOf] then gives the object itself, and the
    conversion throws a TypeError.  An array is joined, and every element
    but [null] is converted in turn. *)
Fixpoint to_string_returns (v : json) : bool :=
  match v with
  | JObj props => negb (has_own props "toString")
  | JArr items => forallb to_string_returns items
  | _ => true
  end.

(** Overwriting an existing property keeps its place. *)
Fixpoint overwrite (props : list (string * json)) (key : string) (v : json)
  : list (string * json) :=
  match props with
  | [] => []
  | (k, old) :: rest =>
      if String.eqb k key then (k, v) :: rest else (k, old) :: overwrite rest key v
  end.

(** A new array-index key goes after the index keys smaller than it. *)
Fixpoint place_index (n : N) (key : string) (v : json) (props : list (string * json))
  : list (string * json) :=
  match props with
  | [] => [(key, v)]
  | (k, old) :: rest =>
      match array_index k with
      | Some m => if (m <? n)%N then (k, old) :: place_index n key v rest
                  else (key, v) :: props
      | None => (key, v) :: props
      end
  end.

(** [obj[key] = v] on an object created by the literal [{}].  Its prototype
    is [Object.prototype], whose [__proto__] accessor takes the assignment
    to that key: no own property is created. *)
Definition assign (props : list (string * json)) (key : string) (v : json)
  : list (string * json) :=
  if String.eqb key "__proto__" then props
  else if has_own props key then overwrite props key v
  else match array_index key with
       | Some n => place_index n key v props
       | None => props ++ [(key, v)]
       end.

(** [Array.prototype.sort()] without a comparator, on strings: ascending
    order of the character codes. *)
Definition sort_keys (ks : list string) : list string := merge_sort String.le ks.

(** The callback of the [forEach]: [sorted[key] = obj[key]], where [props]
    are the properties of [obj] with the recursive call already applied to
    their values. *)
Definition step (props : list (string * json)) (sorted : list (string * json))
  (key : string) : list (string * json) :=
  match own props key with
  | Some v => assign sorted key v
  | None => sorted
  end.

(** [sorted = {}; Object.keys(obj).sort().forEach(...); return sorted] *)
Definition rebuild_sorted (props : list (string * json)) : list (string * json) :=
  fold_left (step props) (sort_keys (keys props)) [].

(** [sortKeysRecursively] (nested in [verifyResultSignature]). *)
Fixpoint sortKeysRecursively (obj : json) : json :=
  match obj with
  | JArr items => JArr (map sortKeysRecursively items)
  | JObj props =>
      JObj (rebuild_sorted
              (map (fun kv => match kv with (k, v) => (k, sortKeysRecursively v) end)
                 props))
  | _ => obj
  end.

(** The properties of an object with [sortKeysRecursively] applied to
    their values, before the keys are put in order. *)
Definition sorted_values (props : list (string * json)) : list (string * json) :=
  map (fun kv => match kv with (k, v) => (k, sortKeysRecursively v) end) props.

(** *** [JSON.stringify] without indentation *)

Definition hex_digit (n : N) : ascii :=
  if (n <? 10)%N then ascii_of_N (48 + n) else ascii_of_N (87 + n).

Definition double_quote : ascii := ascii_of_N 34.
Definition backslash : ascii := ascii_of_N 92.

Definition escape_char (c : ascii) : string :=
  let n := N_of_ascii c in
  if (n =? 34)%N then String backslash (String double_quote "")
  else if (n =? 92)%N then String backslash (String backslash "")
  else if (n =? 8)%N then String backslash "b"
  else if (n =? 12)%N then String backslash "f"
  else if (n =? 10)%N then String backslash "n"
  else if (n =? 13)%N then String backslash "r"
  else if (n =? 9)%N then String backslash "t"
  else if (n <? 32)%N then
    String backslash
      (String "u" (String "0" (String "0"
         (String (hex_digit (n / 16)) (String (hex_digit (n mod 16)) "")))))
  else String c "".

Fixpoint escape (s : string) : string :=
  match s with
  | EmptyString => ""
  | String c rest => escape_char c +:+ escape rest
  end.

Definition quote (s : string) : string :=
  String double_quote (escape s +:+ String double_quote "").

Fixpoint join (sep : string) (parts : list string) : string :=
  match parts with
  | [] => ""
  | [p] => p
  | p :: rest => p +:+ sep +:+ join sep rest
  end.

Fixpoint stringify (v : json) : string :=
  match v with
  | JNull => "null"
  | JBool true => "true"
  | JBool false => "false"
  | JNum text => text
  | JStr s => quote s
  | JArr items => "[" +:+ join "," (map stringify items) +:+ "]"
  | JObj props =>
      "{" +:+ join ","
               (map (fun kv => match kv with (k, x) => quote k +:+ ":" +:+ stringify x end)
                  props)
          +:+ "}"
  end.

(** *** JSON data as objects

    The own property keys of a JavaScript object are pairwise distinct;
    this is the invariant of the property lists. *)
Fixpoint distinct_keys (v : json) : bool :=
  match v with
  | JArr items => forallb distinct_keys items
  | JObj props =>
      bool_decide (NoDup (keys props))
      && forallb (fun kv => match kv with (_, x) => distinct_keys x end) props
  | _ => true
  end.

(** Two values that differ at most in the order in which the keys of their
    objects were inserted. *)
Fixpoint same_up_to_key_order (x y : json) {struct x} : bool :=
  match x, y with
  | JNull, JNull => true
  | JBool a, JBool b => Bool.eqb a b
  | JNum a, JNum b => String.eqb a b
  | JStr a, JStr b => String.eqb a b
  | JArr xs, JArr ys =>
      (fix each (xs ys : list json) {struct xs} : bool :=
         match xs, ys with
         | [], [] => true
         | x :: xs', y :: ys' => same_up_to_key_order x y && each xs' ys'
         | _, _ => false
         end) xs ys
  | JObj ps, JObj qs =>
      (length ps =? length qs)%nat
      && forallb (fun kv => match kv with
                            | (k, v) => match own qs k with
                                        | Some w => same_up_to_key_order v w
                                        | None => false
                                        end
                            end) ps
  | _, _ => false
  end.

End Js.
Export Js.


(** ** Strings and buffers *)

Module Text.

(** [s.startsWith('0x') ? s.slice(2) : s] *)
Definition strip_0x (s : string) : string :=
  if String.prefix "0x" s then String.substring 2 (String.length s - 2) s else s.

(** [s.startsWith('0x') ? s : `0x${s}`] *)
Definition ensure_0x (s : string) : string :=
  if String.prefix "0x" s then s else "0x" +:+ s.

(** [toLowerCase] on one character code below 256: the letters A-Z, and
    the accented capitals 192-222 except the multiplication sign 215. *)
Definition lower_char (c : ascii) : ascii :=
  let n := N_of_ascii c in
  if ((65 <=? n) && (n <=? 90) || (192 <=? n) && (n <=? 222) && negb (n =? 215))%N
  then ascii_of_N (n + 32) else c.

Fixpoint toLowerCase (s : string) : string :=
  match s with
  | EmptyString => ""
  | String c rest => String (lower_char c) (toLowerCase rest)
  end.

Definition decimal (n : nat) : string :=
  DecimalString.NilZero.string_of_uint (Nat.to_uint n).

(** A call [name.method(...)] of a String method on the value [v] of the
    variable [name]: [v] has to be a string. *)
Definition string_receiver (v : value) (name method : string) : completion string :=
  match v with
  | Some (JStr s) => Normal s
  | None => Thrown ("Cannot read properties of undefined (reading '" +:+ method +:+ "')")
  | Some JNull => Thrown ("Cannot read properties of null (reading '" +:+ method +:+ "')")
  | Some _ => Thrown (name +:+ "." +:+ method +:+ " is not a function")
  end.

(** A call [name?.method(...)]: [undefined] when [v] is nullish; otherwise
    the call is made, and it is a TypeError when [v] is not a string. *)
Definition optional_string_receiver (v : value) (name method : string)
  : completion (option string) :=
  match v with
  | None | Some JNull => Normal None
  | Some (JStr s) => Normal (Some s)
  | Some _ => Thrown (name +:+ "?." +:+ method +:+ " is not a function")
  end.

(** Bytes of a [Buffer], each below 256. *)
Definition buffer := list N.

Definition unhex (c : ascii) : option N :=
  let n := N_of_ascii c in
  if ((48 <=? n) && (n <=? 57))%N then Some (n - 48)%N
  else if ((97 <=? n) && (n <=? 102))%N then Some (n - 87)%N
  else if ((65 <=? n) && (n <=? 70))%N then Some (n - 55)%N
  else None.

(** [Buffer.from(s, 'hex')]: decoding stops at the first pair that is not
    two hexadecimal digits; a trailing single character is dropped. *)
Fixpoint buffer_from_hex (s : string) : buffer :=
  match s with
  | String a (String b rest) =>
      match unhex a, unhex b with
      | Some high, Some low => (16 * high + low)%N :: buffer_from_hex rest
      | _, _ => []
      end
  | _ => []
  end.

(** [buf.toString('hex')]: two lower-case digits per byte. *)
Fixpoint buffer_to_hex (buf : buffer) : string :=
  match buf with
  | [] => ""
  | b :: rest => String (hex_digit (b / 16)) (String (hex_digit (b mod 16)) (buffer_to_hex rest))
  end.

(** [buf.slice(from, to)] *)
Definition buffer_slice (from to : nat) (buf : buffer) : buffer :=
  take (to - from) (drop from buf).

(** [Buffer.alloc(n)] *)
Definition buffer_alloc (n : nat) : buffer := replicate n 0%N.

(** [source.copy(target, 0)], giving the target afterwards. *)
Definition buffer_copy (source target : buffer) : buffer :=
  take (length target) source ++ drop (length source) target.

(** [a.equals(b)] *)
Definition buffer_equals (a b : buffer) : bool := bool_decide (a = b).

(** The address zero-padded to 32 bytes, in the words of the design:
    its bytes, then zeros up to 32 (and no more than 32 bytes). *)
Definition pad32 (address : buffer) : buffer :=
  take 32 address ++ replicate (32 - length address) 0%N.

End Text.
Export Text.

(** ** The attestation verifier *)

Module Verifier.

(** The objects the three checks return.  Fields that are only diagnostic
    text ([debug], [messageHash], and the [message] and [expectedAddress]
    of a signature result) are left out: building them cannot throw (but
    see [signaturePrefix] below), and no check reads them.  The [debug]
    object lists the keys of the result as given, so two signature results
    are compared on their verdict, error and recovered address, never as
    whole records. *)

Record TdxQuoteResult := {
  tdx_verified : bool;
  tdx_error : option string;
  intelResult : value;          (* absent, [null], or the service's answer *)
  tdx_note : option string;
  tdx_message : value
}.

Record BindingResult := {
  bindsAddress : bool;
  embedsNonce : bool;
  binding_error : option string;
  embeddedAddress : option string;
  embeddedNonce : option string;
  expectedAddress : option string;
  expectedNonce : option string
}.

Record SignatureResult := {
  sig_verified : bool;
  sig_error : option string;
  recoveredAddress : option string;
  sig_note : option string;
  signaturePrefix : option string   (* [debug.signaturePrefix] of the catch block *)
}.

Record VerificationResults := {
  tdxQuote : TdxQuoteResult;
  reportDataBinding : option BindingResult;   (* [None] is [null] *)
  resultSignature : SignatureResult;
  overall : bool
}.

Definition binding_failure (message : string) : BindingResult :=
  {| bindsAddress := false; embedsNonce := false; binding_error := Some message;
     embeddedAddress := None; embeddedNonce := None;
     expectedAddress := None; expectedNonce := None |}.

Definition signature_failure (message : string) : SignatureResult :=
  {| sig_verified := false; sig_error := Some message; recoveredAddress := None;
     sig_note := None; signaturePrefix := None |}.

(** The literal that [verifyAttestation] stores when there is no quote. *)
Definition quote_missing : TdxQuoteResult :=
  {| tdx_verified := false; tdx_error := Some "Intel quote missing";
     intelResult := None; tdx_note := None; tdx_message := None |}.

(** [v === true] *)
Definition is_true_value (v : value) : bool :=
  match v with Some (JBool true) => true | _ => false end.

Section WithServices.

(** [axios.post(PHALA_TDX_VERIFIER_API, { hex: intelQuote }, { timeout: 30000 })]:
    the [data] of the response, or the message of the error it rejects with
    (no connection, timeout, status outside 2xx). *)
Variable phala_verify : value -> completion json.

(** [ethers.verifyMessage(message, signature)]: the recovered address, or
    the message of the error thrown for a signature it cannot decode. *)
Variable ethers_verifyMessage : string -> string -> completion string.

Definition verifyTdxQuote (intelQuote : value) : TdxQuoteResult :=
  if negb (truthy intelQuote) then
    {| tdx_verified := false;
       tdx_error := Some "Intel quote is null (simulation mode - no TEE hardware)";
       intelResult := Some JNull;
       tdx_note := Some "TDX quote verification requires actual TEE hardware";
       tdx_message := None |}
  else
    match
      (data ← phala_verify intelQuote;
       quote ← member (Some data) "quote";
       let payload := js_or quote (Some (JObj [])) in
       verified ← member payload "verified";
       payload_message ← member payload "message";
       message ← (if truthy payload_message then Normal payload_message
                  else member (Some data) "message");
       Normal {| tdx_verified := is_true_value verified;
                 tdx_error := None;
                 intelResult := Some data;
                 tdx_note := None;
                 tdx_message := message |})
    with
    | Normal r => r
    | Thrown message =>
        {| tdx_verified := false;
           tdx_error := Some message;
           intelResult := Some JNull;
           tdx_note := Some "TDX quote verification failed - may be in simulation mode";
           tdx_message := None |}
    end.

Definition verifyReportDataBinding (attestation requestNonce intel : value)
  : completion BindingResult :=
  quote ← (if truthy intel then member intel "quote" else Normal None);
  if negb (truthy intel) || negb (truthy quote) then
    Normal (binding_failure "Intel result missing")
  else
    try_catch
      (quote ← member intel "quote";
       body ← member quote "body";
       let reportDataHex := opt_member body "reportdata" in
       if negb (truthy reportDataHex) then
         Normal (binding_failure "Report data not found in quote")
       else
         reportDataText ← string_receiver reportDataHex "reportDataHex" "startsWith";
         let reportData := buffer_from_hex (strip_0x reportDataText) in
         signingAddress ← member attestation "signing_address";
         signingAddressText ← string_receiver signingAddress "signingAddress" "startsWith";
         let signingAddressBytes := buffer_from_hex (strip_0x signingAddressText) in
         let embedded_address := buffer_slice 0 32 reportData in
         let embedded_nonce := buffer_slice 32 64 reportData in
         let paddedAddress := buffer_copy signingAddressBytes (buffer_alloc 32) in
         let binds := buffer_equals embedded_address paddedAddress in
         let embeddedNonceHex := buffer_to_hex embedded_nonce in
         requestNonceText ← string_receiver requestNonce "requestNonce" "startsWith";
         let requestNonceHex := strip_0x requestNonceText in
         let embeds := String.eqb embeddedNonceHex requestNonceHex in
         Normal {| bindsAddress := binds;
                   embedsNonce := embeds;
                   binding_error := None;
                   embeddedAddress := Some (buffer_to_hex embedded_address);
                   embeddedNonce := Some embeddedNonceHex;
                   expectedAddress := Some (buffer_to_hex paddedAddress);
                   expectedNonce := Some requestNonceHex |})
      (fun message => Normal (binding_failure message)).

(** [JSON.stringify(sortKeysRecursively(analyticsResult))], the message
    whose signature is checked. *)
Definition canonical_message (analyticsResult : json) : string :=
  stringify (sortKeysRecursively analyticsResult).

(** [result && result.result ? result.result : result] *)
Definition analytics_of (result : value) : completion value :=
  nested ← (if truthy result then member result "result" else Normal None);
  Normal (if truthy result && truthy nested then nested else result).

(** The part of the [try] block after the structure check: rebuild the
    signed message, check the length of the signature, recover the signer
    and compare the addresses. *)
Definition recover_and_compare (analytics : json) (signature signingAddress : value)
  : completion SignatureResult :=
  let resultJson := canonical_message analytics in
  signatureText ← string_receiver signature "signature" "startsWith";
  let signatureWithPrefix := ensure_0x signatureText in
  if negb (String.length signatureWithPrefix =? 132)%nat then
    Normal (signature_failure
              ("Invalid signature length: "
               +:+ decimal (String.length signatureWithPrefix)
               +:+ " (expected 132)"))
  else
    recovered ← ethers_verifyMessage resultJson signatureWithPrefix;
    expected ← string_receiver signingAddress "signingAddress" "toLowerCase";
    let verified := String.eqb (toLowerCase recovered) (toLowerCase expected) in
    Normal {| sig_verified := verified;
              sig_error := None;
              recoveredAddress := Some recovered;
              sig_note := None;
              signaturePrefix := None |}.

(** The [catch] block: it reads [signature?.length] and
    [signature?.substring(0, 20)] for its [debug] object. *)
Definition signature_catch (signature : value) (message : string)
  : completion SignatureResult :=
  prefix ← optional_string_receiver signature "signature" "substring";
  Normal {| sig_verified := false;
            sig_error := Some message;
            recoveredAddress := None;
            sig_note :=
              Some "Signature is invalid or malformed - cryptographic verification failed";
            signaturePrefix := String.substring 0 20 <$> prefix |}.

Definition verifyResultSignature (result signature signingAddress : value)
  : completion SignatureResult :=
  try_catch
    (analyticsResult ← analytics_of result;
     risk_metrics ← (if truthy analyticsResult
                     then member analyticsResult "risk_metrics" else Normal None);
     privacy_budget ← (if truthy analyticsResult && negb (truthy risk_metrics)
                       then member analyticsResult "privacy_budget" else Normal None);
     match analyticsResult with
     | Some analytics =>
         if negb (truthy analyticsResult)
            || (negb (truthy risk_metrics) && negb (truthy privacy_budget))
         then
           Normal (signature_failure
                     "Invalid result structure - missing risk_metrics or privacy_budget")
         else recover_and_compare analytics signature signingAddress
     | None =>
         Normal (signature_failure
                   "Invalid result structure - missing risk_metrics or privacy_budget")
     end)
    (signature_catch signature).

(** [reportDataBinding?.bindsAddress === true && reportDataBinding?.embedsNonce === true] *)
Definition hasValidBinding (binding : option BindingResult) : bool :=
  match binding with
  | Some b => bindsAddress b && embedsNonce b
  | None => false
  end.

Definition verifyAttestation (attestation result requestNonce : value)
  : completion VerificationResults :=
  intel_quote ← member attestation "intel_quote";
  let tdx :=
    if truthy intel_quote then verifyTdxQuote intel_quote else quote_missing in
  binding ← (if truthy (intelResult tdx) && truthy requestNonce
             then Some <$> verifyReportDataBinding attestation requestNonce (intelResult tdx)
             else Normal None);
  signature ← member attestation "signature";
  signing_address ← member attestation "signing_address";
  signature_result ←
    (if truthy signature && truthy signing_address && truthy result
     then verifyResultSignature result signature signing_address
     else Normal (signature_failure "Missing signature components"));
  let hasValidSignature := sig_verified signature_result in
  let hasValidTdxQuote := tdx_verified tdx in
  let _hasValidBinding := hasValidBinding binding in
  Normal {| tdxQuote := tdx;
            reportDataBinding := binding;
            resultSignature := signature_result;
            overall := hasValidSignature && (hasValidTdxQuote || negb (truthy intel_quote)) |}.

End WithServices.

(** The verdict policy in the words of the design:
    signature valid, and the quote valid or absent. *)
Definition verdict_policy (signatureValid quoteValid quotePresent : bool) : bool :=
  signatureValid && (quoteValid || negb quotePresent).

(** The object whose signature is checked: [result.result] when there is
    one, [result] otherwise. *)
Definition effective_result (result : value) : value :=
  if truthy result && truthy (opt_member result "result")
  then opt_member result "result" else result.

(** [analyticsResult.risk_metrics || analyticsResult.privacy_budget] is truthy. *)
Definition has_metrics (analytics : value) : bool :=
  truthy (opt_member analytics "risk_metrics")
  || truthy (opt_member analytics "privacy_budget").

(** A sub-check that reports a failure: not verified, with an error. *)
Definition reported_as_failed (q : TdxQuoteResult) : bool :=
  negb (tdx_verified q) && bool_decide (is_Some (tdx_error q)).

(** A value that is a string, [null] or [undefined]. *)
Definition textual (v : value) : bool :=
  match v with
  | None | Some JNull | Some (JStr _) => true
  | Some _ => false
  end.

End Verifier.
Export Verifier.

(** ** The job orchestrator *)

Module Orchestrator.

Inductive Status := pending | processing | completed | failed.

(** A job object.  [result], [attestation], [completedAt] and [error] do not
    exist on a job until they are assigned. *)
Record Job := {
  job_id : string;
  status : Status;
  createdAt : string;
  epsilon : json;
  result : value;
  attestation : value;
  completedAt : option string;
  error : option string
}.

Definition with_status (s : Status) (j : Job) : Job :=
  {| job_id := job_id j; status := s; createdAt := createdAt j; epsilon := epsilon j;
     result := result j; attestation := attestation j; completedAt := completedAt j;
     error := error j |}.

Definition with_result (r : value) (j : Job) : Job :=
  {| job_id := job_id j; status := status j; createdAt := createdAt j; epsilon := epsilon j;
     result := r; attestation := attestation j; completedAt := completedAt j;
     error := error j |}.

Definition with_attestation (a : value) (j : Job) : Job :=
  {| job_id := job_id j; status := status j; createdAt := createdAt j; epsilon := epsilon j;
     result := result j; attestation := a; completedAt := completedAt j;
     error := error j |}.

Definition with_completedAt (t : string) (j : Job) : Job :=
  {| job_id := job_id j; status := status j; createdAt := createdAt j; epsilon := epsilon j;
     result := result j; attestation := attestation j; completedAt := Some t;
     error := error j |}.

Definition with_error (e : string) (j : Job) : Job :=
  {| job_id := job_id j; status := status j; createdAt := createdAt j; epsilon := epsilon j;
     result := result j; attestation := attestation j; completedAt := completedAt j;
     error := Some e |}.

(** An HTTP response as [axios] hands it over, and the error it rejects with. *)
Record Response := { http_status : N; data : json }.

Record RequestError := {
  code : option string;
  response : option Response;
  message : string
}.

Definition type_error (text : string) : RequestError :=
  {| code := None; response := None; message := text |}.

(** What one request meets: no answer at all (connection reset, TLS
    handshake failure, timeout), or an HTTP response. *)
Inductive Wire :=
| NoAnswer (error_code error_message : string)
| Answered (r : Response).

(** [axios] resolves with the response when [validateStatus] accepts its
    status and rejects otherwise; redirects are not followed. *)
Definition axios_settle (validateStatus : N -> bool) (w : Wire) : RequestError + Response :=
  match w with
  | NoAnswer c m => inl {| code := Some c; response := None; message := m |}
  | Answered r =>
      if validateStatus (http_status r) then inr r
      else inl {| code := Some "ERR_BAD_RESPONSE"; response := Some r;
                  message := "Request failed with status code "
                             +:+ decimal (N.to_nat (http_status r)) |}
  end.

(** Everything around one run of [processJob] that is not in the job map. *)
Record World := {
  tee_url_parses : bool;      (* [new URL(TEE_SERVICE_URL)] does not throw *)
  health : Wire;              (* what [GET /health] meets *)
  analyze : nat -> Wire;      (* what the n-th [POST /analyze] meets *)
  clock : string              (* [new Date().toISOString()] *)
}.

Inductive Event :=
| HealthProbe
| AnalyzeAttempt (attempt : nat)
| Sleep (milliseconds : N).

Definition maxRetries : nat := 5.

(** [Math.min(2000 * attempt, 10000)] *)
Definition retry_delay (attempt : nat) : N := N.min (2000 * N.of_nat attempt) 10000.

(** [validateStatus: (status) => status < 500] *)
Definition analyze_validateStatus (status : N) : bool := (status <? 500)%N.

(** The [for (let attempt = 1; attempt <= maxRetries; attempt++)] loop;
    [remaining] counts the iterations the loop condition still allows.
    It ends with the response ([break]), with the response still
    [undefined] (condition false), or by throwing the last error. *)
Fixpoint retry_loop (w : World) (remaining attempt : nat) (log : list Event)
  : (RequestError + option Response) * list Event :=
  match remaining with
  | 0 => (inr None, log)
  | S remaining' =>
      let log := log ++ [AnalyzeAttempt attempt] in
      match axios_settle analyze_validateStatus (analyze w attempt) with
      | inr r => (inr (Some r), log)
      | inl e =>
          if (attempt <? maxRetries)%nat
          then retry_loop w remaining' (S attempt) (log ++ [Sleep (retry_delay attempt)])
          else (inl e, log)
      end
  end.

(** [response.data.<field>] *)
Definition response_field (r : option Response) (field : string) : RequestError + value :=
  match r with
  | None => inl (type_error "Cannot read properties of undefined (reading 'data')")
  | Some r =>
      match member (Some (data r)) field with
      | Normal v => inr v
      | Thrown m => inl (type_error m)
      end
  end.

(** The [catch] block of [processJob]. *)
Definition fail_job (e : RequestError) (j : Job) : Job :=
  let response_data : value := data <$> response e in
  let errorMsg :=
    js_or (js_or (opt_member response_data "error") response_data)
          (Some (JStr (message e))) in
  let text := match errorMsg with
              | Some (JStr s) => s
              | Some other => stringify other
              | None => message e
              end in
  with_error text (with_status failed j).

(** The statements of the [try] block, on the job object. *)
Definition run_job (w : World) (job : Job) : Job * list Event :=
  let job := with_status processing job in
  if negb (tee_url_parses w) then (fail_job (type_error "Invalid URL") job, [])
  else
    match retry_loop w maxRetries 1 [HealthProbe] with
    | (inl e, log) => (fail_job e job, log)
    | (inr r, log) =>
        let job := with_status completed job in
        match response_field r "result" with
        | inl e => (fail_job e job, log)
        | inr res =>
            let job := with_result res job in
            match response_field r "attestation" with
            | inl e => (fail_job e job, log)
            | inr att => (with_completedAt (clock w) (with_attestation att job), log)
            end
        end
    end.

(** [processJob(jobId, ...)]: the job map afterwards, what it did on the
    network, and how its promise settles. *)
Definition processJob (w : World) (jobId : string) (jobResults : gmap string Job)
  : gmap string Job * list Event * completion unit :=
  match jobResults !! jobId with
  | None => (jobResults, [], Normal tt)
  | Some job =>
      let '(job', log) := run_job w job in
      (<[jobId := job']> jobResults, log, Normal tt)
  end.

(** The handler of [app.post('/api/submit')], followed to the end of the
    job it starts: the HTTP status it answers with, and the job map.  The
    encryption of the records happens before the job exists and does not
    touch the job map; the payload it produces only travels to the compute
    service, whose answers are in the [World]. *)
Definition submit (w : World) (fresh_id : string) (body_data body_epsilon : value)
  (jobResults : gmap string Job) : N * gmap string Job * list Event :=
  if negb (truthy body_data) then (400%N, jobResults, [])
  else
    let job := {| job_id := fresh_id; status := pending; createdAt := clock w;
                  epsilon := default (JNum "1") (js_or body_epsilon (Some (JNum "1")));
                  result := None; attestation := None; completedAt := None;
                  error := None |} in
    let jobResults := <[fresh_id := job]> jobResults in
    match processJob w fresh_id jobResults with
    | (jobResults', log, Normal _) => (200%N, jobResults', log)
    | (jobResults', log, Thrown m) =>
        (* [.catch(error => { job.status = 'failed'; job.error = ... })] *)
        let text := if String.eqb m "" then "Unknown error" else m in
        (200%N, alter (fun j => with_error text (with_status failed j)) fresh_id jobResults', log)
    end.

Definition attempts (log : list Event) : list nat :=
  omap (fun e => match e with AnalyzeAttempt n => Some n | _ => None end) log.

Definition delays (log : list Event) : list N :=
  omap (fun e => match e with Sleep ms => Some ms | _ => None end) log.

Definition terminal (s : Status) : bool :=
  match s with completed | failed => true | _ => false end.

(** A request that [axios] rejects: no answer, or a status of 500 and above. *)
Definition rejected (w : Wire) : bool :=
  match axios_settle analyze_validateStatus w with
  | inl _ => true
  | inr _ => false
  end.

(** What a run with [k] rejected attempts before an accepted one does on
    the network. *)
Definition retry_schedule (k : nat) : list Event :=
  HealthProbe
  :: flat_map (fun i => [AnalyzeAttempt i; Sleep (retry_delay i)]) (seq 1 k)
  ++ [AnalyzeAttempt (S k)].

End Orchestrator.
Export Orchestrator.

(** ** The order in which an object's keys are enumerated *)

Module JsOrder.

(** Two array-index keys in ascending numeric order. *)
Definition index_le (a b : string) : Prop :=
  match array_index a, array_index b with
  | Some m, Some n => (m <= n)%N
  | _, _ => False
  end.

(** Array-index keys first, in ascending numeric order, then the other keys
    in ascending order of their character codes. *)
Definition enumeration_ordered (ks : list string) : Prop :=
  exists indices others,
    ks = indices ++ others
    /\ Forall (fun k => is_Some (array_index k)) indices
    /\ Forall (fun k => array_index k = None) others
    /\ StronglySorted index_le indices
    /\ StronglySorted String.le others.

End JsOrder.
Export JsOrder.

(** ** The routes of the API server and the page that calls them *)

Module Routes.

(** [GET /api/job/:jobId]: 404 for an unknown id, the job otherwise. *)
Definition api_job (jobResults : gmap string Job) (jobId : string) : N * option Job :=
  match jobResults !! jobId with
  | None => (404%N, None)
  | Some job => (200%N, Some job)
  end.

(** What [POST /api/verify] answers: a status, and the fields of the body
    that the status comes with. *)
Record VerifyResponse := {
  verify_status : N;
  verify_verified : option bool;
  verify_details : option VerificationResults;
  verify_message : option string;
  verify_error : option string
}.

Definition verify_failure (status : N) (message : string) : VerifyResponse :=
  {| verify_status := status; verify_verified := None; verify_details := None;
     verify_message := None; verify_error := Some message |}.

(** [const { attestation, ... } = req.body]: a TypeError when the body is
    [undefined] or [null]. *)
Definition destructure (body : value) (name : string) : completion value :=
  match body with
  | None =>
      Thrown ("Cannot destructure property '" +:+ name
              +:+ "' of 'req.body' as it is undefined.")
  | Some JNull =>
      Thrown ("Cannot destructure property '" +:+ name
              +:+ "' of 'req.body' as it is null.")
  | _ => member body name
  end.

Section WithServices.
Variable phala_verify : value -> completion json.
Variable ethers_verifyMessage : string -> string -> completion string.

(** The handler of [app.post('/api/verify')].  Of the debug object it logs,
    only [attestation?.signature?.substring(0, 20)] can throw. *)
Definition api_verify (body : value) : VerifyResponse :=
  match
    (attestation ← destructure body "attestation";
     result ← destructure body "result";
     requestNonce ← destructure body "requestNonce";
     if negb (truthy attestation) || negb (truthy result) then
       Normal (verify_failure 400 "Missing attestation or result")
     else
       logged_signature ← member attestation "signature";
       _ ← optional_string_receiver logged_signature "attestation?.signature" "substring";
       nonce ← (if truthy requestNonce then Normal requestNonce
                else member attestation "nonce");
       verificationResults ←
         verifyAttestation phala_verify ethers_verifyMessage attestation result nonce;
       Normal {| verify_status := 200;
                 verify_verified := Some (overall verificationResults);
                 verify_details := Some verificationResults;
                 verify_message :=
                   Some (if overall verificationResults
                         then "Attestation verified successfully"
                         else "Attestation verification failed - see details");
                 verify_error := None |})
  with
  | Normal response => response
  | Thrown message => verify_failure 500 message
  end.

(** The body that [handleVerifyAttestation] of the page posts for a job it
    has polled, as the server parses it: a property whose value is
    [undefined] is not sent. *)
Definition verify_request_body (attestation result : json) : json :=
  let requestNonce :=
    js_or (opt_member (Some attestation) "nonce")
          (opt_member (Some attestation) "request_nonce") in
  JObj ([("attestation", attestation); ("result", result)]
        ++ match requestNonce with
           | Some nonce => [("requestNonce", nonce)]
           | None => []
           end).

(** [handleVerifyAttestation]: what it passes to [setAttestationVerified];
    [None] when it returns without asking the server.  The request is one
    that reaches the server.  [axios] rejects on a status outside 2xx, and
    the [catch] block stores [false]. *)
Definition handleVerifyAttestation (jobResult : value) : option bool :=
  match opt_member jobResult "attestation", opt_member jobResult "result" with
  | Some attestation, Some result =>
      if negb (truthy (Some attestation)) || negb (truthy (Some result)) then None
      else
        let response := api_verify (Some (verify_request_body attestation result)) in
        if (verify_status response =? 200)%N
        then Some (default false (verify_verified response))
        else Some false
  | _, _ => None
  end.

End WithServices.

(** The template literal [`... ${data.length} records, epsilon=${epsilon}`]
    of the handler's log line: whether its two conversions return.  The
    [length] of an array or of a string is a number and that of another
    primitive is [undefined]; an object answers with its own property. *)
Definition template_returns (v : value) : bool :=
  match v with
  | Some x => to_string_returns x
  | None => true
  end.

Definition log_line_returns (data : json) (epsilon : value) : bool :=
  match data with
  | JObj props => template_returns (own props "length")
  | _ => true
  end
  && template_returns epsilon.

(** The handler of [app.post('/api/submit')], with the destructuring of the
    body and the [try]/[catch] around it.  [encryptDataForTEE] draws a key
    and an initialisation vector and calls the Fernet library; the handler
    depends on it only in that it may throw.  The [catch] block turns that,
    and a TypeError of the log line before it, into status 500 before any
    job exists. *)
Definition api_submit (encryptDataForTEE : json -> completion (string * string))
  (w : World) (fresh_id : string) (body : value) (jobResults : gmap string Job)
  : N * gmap string Job * list Event :=
  match
    (data ← destructure body "data";
     epsilon ← destructure body "epsilon";
     _ ← (if truthy data
          then match data with
               | Some records =>
                   if log_line_returns records epsilon
                   then (fun _ => tt) <$> encryptDataForTEE records
                   else Thrown "Cannot convert object to primitive value"
               | None => Normal tt
               end
          else Normal tt);
     Normal (data, epsilon))
  with
  | Thrown _ => (500%N, jobResults, [])
  | Normal (data, epsilon) => submit w fresh_id data epsilon jobResults
  end.

End Routes.
Export Routes.

(** ** The key text of [encryptDataForTEE] *)

Module Encryption.

(** The alphabet of [buf.toString('base64')]. *)
Definition base64_digit (n : N) : ascii :=
  if (n <? 26)%N then ascii_of_N (65 + n)
  else if (n <? 52)%N then ascii_of_N (71 + n)
  else if (n <? 62)%N then ascii_of_N (n - 4)
  else if (n =? 62)%N then "+"%char
  else "/"%char.

(** [buf.toString('base64')]: three bytes give four digits, and the last
    one or two bytes are padded with [=]. *)
Fixpoint base64 (bytes : buffer) : string :=
  match bytes with
  | [] => ""
  | [a] =>
      String (base64_digit (a / 4)) (String (base64_digit ((a mod 4) * 16)) "==")
  | [a; b] =>
      String (base64_digit (a / 4))
        (String (base64_digit ((a mod 4) * 16 + b / 16))
           (String (base64_digit ((b mod 16) * 4)) "="))
  | a :: b :: c :: rest =>
      String (base64_digit (a / 4))
        (String (base64_digit ((a mod 4) * 16 + b / 16))
           (String (base64_digit ((b mod 16) * 4 + c / 64))
              (String (base64_digit (c mod 64)) (base64 rest))))
  end.

(** [s.replace(/c/g, replacement)] for a single character [c]. *)
Fixpoint replace_all (target : ascii) (replacement : string) (s : string) : string :=
  match s with
  | EmptyString => EmptyString
  | String c rest =>
      if Ascii.eqb c target then replacement +:+ replace_all target replacement rest
      else String c (replace_all target replacement rest)
  end.

(** [keyBytes.toString('base64').replace(/\+/g, '-').replace(/\//g, '_').replace(/=/g, '')] *)
Definition keyBase64 (keyBytes : buffer) : string :=
  replace_all "=" "" (replace_all "/" "_" (replace_all "+" "-" (base64 keyBytes))).

(** Base64 with the URL and filename safe alphabet and without padding, in
    the words of RFC 4648, section 5 and section 3.2. *)
Definition base64url_digit (n : N) : ascii :=
  if (n <? 26)%N then ascii_of_N (65 + n)
  else if (n <? 52)%N then ascii_of_N (71 + n)
  else if (n <? 62)%N then ascii_of_N (n - 4)
  else if (n =? 62)%N then "-"%char
  else "_"%char.

Fixpoint base64url_unpadded (bytes : buffer) : string :=
  match bytes with
  | [] => ""
  | [a] =>
      String (base64url_digit (a / 4)) (String (base64url_digit ((a mod 4) * 16)) "")
  | [a; b] =>
      String (base64url_digit (a / 4))
        (String (base64url_digit ((a mod 4) * 16 + b / 16))
           (String (base64url_digit ((b mod 16) * 4)) ""))
  | a :: b :: c :: rest =>
      String (base64url_digit (a / 4))
        (String (base64url_digit ((a mod 4) * 16 + b / 16))
           (String (base64url_digit ((b mod 16) * 4 + c / 64))
              (String (base64url_digit (c mod 64)) (base64url_unpadded rest))))
  end.

(** A letter, a digit, [-] or [_]. *)
Definition url_safe (c : ascii) : bool :=
  let n := N_of_ascii c in
  ((65 <=? n) && (n <=? 90) || (97 <=? n) && (n <=? 122) || (48 <=? n) && (n <=? 57)
   || (n =? 45) || (n =? 95))%N.

End Encryption.
Export Encryption.

(** ** Sample data *)

Module Fixtures.

Fixpoint repeat_text (n : nat) (s : string) : string :=
  match n with
  | 0 => ""
  | S n' => s +:+ repeat_text n' s
  end.

Definition metrics_unsorted : json :=
  JObj [("risk_metrics", JObj [("b", JNum "2"); ("a", JArr [JObj [("y", JNull); ("x", JStr "s")]])]);
        ("privacy_budget", JNum "1"); ("10", JNull); ("9", JBool true);
        ("__proto__", JObj [("z", JNull)])].

Definition metrics_reordered : json :=
  JObj [("9", JBool true); ("__proto__", JObj [("z", JNull)]); ("privacy_budget", JNum "1");
        ("risk_metrics", JObj [("a", JArr [JObj [("x", JStr "s"); ("y", JNull)]]); ("b", JNum "2")]);
        ("10", JNull)].

(** A result as the compute service returns it, and one without metrics. *)
Definition analytics_result : json :=
  JObj [("risk_metrics", JObj [("total_customers", JNum "1"); ("mean_risk", JNum "0.42")]);
        ("privacy_budget", JObj [("epsilon_per_query", JNum "1")])].

Definition result_without_metrics : json := JObj [("summary", JStr "ok")].


Definition signer_address : string := "0x" +:+ repeat_text 20 "c3".
Definition signer_address_checksummed : string := "0x" +:+ repeat_text 20 "C3".
Definition other_address : string := "0x" +:+ repeat_text 20 "00".
Definition signature_text : string := repeat_text 65 "1b".
(** [signature_text] with the lowest bit of its first character flipped. *)
Definition signature_text_mutated : string := "0" +:+ String.substring 1 129 signature_text.
Definition nonce_text : string := repeat_text 32 "5a".
Definition nonce_text_upper : string := repeat_text 32 "5A".
Definition report_data_text : string :=
  repeat_text 20 "c3" +:+ repeat_text 12 "00" +:+ nonce_text.

(** A recovery function that knows one signed message: it answers with the
    signer's address for that message and signature, and with another
    address for anything else of the right shape. *)
Definition one_signature (message signature address : string)
  : string -> string -> completion string :=
  fun m s =>
    if String.eqb m message && String.eqb s signature then Normal address
    else Normal other_address.

Definition recover_analytics : string -> string -> completion string :=
  one_signature (Verifier.canonical_message analytics_result) ("0x" +:+ signature_text)
    signer_address_checksummed.

(** A recovery function under which every signature is the signer's. *)
Definition always_signer : string -> string -> completion string :=
  fun _ _ => Normal signer_address_checksummed.

(** The quote service: unreachable, or accepting the quote and reporting
    its report data. *)
Definition service_down : value -> completion json :=
  fun _ => Thrown "connect ECONNREFUSED".

Definition service_accepts : value -> completion json :=
  fun _ => Normal (JObj [("quote", JObj [("verified", JBool true);
                                         ("body", JObj [("reportdata", JStr report_data_text)])])]).

Definition intel_answer : json :=
  JObj [("quote", JObj [("verified", JBool true);
                        ("body", JObj [("reportdata", JStr report_data_text)])])].

Definition attestation_simulation : json :=
  JObj [("intel_quote", JNull); ("signing_address", JStr signer_address);
        ("signature", JStr signature_text); ("nonce", JStr nonce_text)].

(** [attestation_simulation] with a signature that is not the signer's. *)
Definition attestation_forged : json :=
  JObj [("intel_quote", JNull); ("signing_address", JStr signer_address);
        ("signature", JStr signature_text_mutated); ("nonce", JStr nonce_text)].

Definition attestation_hardware : json :=
  JObj [("intel_quote", JStr "040002008100"); ("signing_address", JStr signer_address);
        ("signature", JStr signature_text); ("nonce", JStr nonce_text)].

Definition attestation_numeric_signature : json :=
  JObj [("intel_quote", JNull); ("signing_address", JStr signer_address);
        ("signature", JNum "12345")].

(** [attestation_hardware] with a signature of three bytes. *)
Definition attestation_malformed : json :=
  JObj [("intel_quote", JStr "040002008100"); ("signing_address", JStr signer_address);
        ("signature", JStr "c0ffee"); ("nonce", JStr nonce_text)].

(** The compute service and the job map. *)
Definition analyze_ok : Response :=
  {| http_status := 200;
     data := JObj [("result", analytics_result); ("attestation", attestation_simulation)] |}.

Definition analyze_bad_request : Response :=
  {| http_status := 400; data := JObj [("error", JStr "No data provided")] |}.

Definition health_ok : Wire :=
  Answered {| http_status := 200; data := JObj [("status", JStr "healthy")] |}.

(** The connection is reset on the first [failures] attempts, then the
    service answers. *)
Definition world_flaky (failures : nat) : World :=
  {| tee_url_parses := true;
     health := health_ok;
     analyze := fun n => if (n <=? failures)%nat
                         then NoAnswer "ECONNRESET" "socket hang up"
                         else Answered analyze_ok;
     clock := "2025-01-01T00:00:10.000Z" |}.

(** The service refuses the request with status 400. *)
Definition world_bad_request : World :=
  {| tee_url_parses := true;
     health := health_ok;
     analyze := fun _ => Answered analyze_bad_request;
     clock := "2025-01-01T00:00:10.000Z" |}.

Definition pending_job : Job :=
  {| job_id := "job-1"; status := pending; createdAt := "2025-01-01T00:00:00.000Z";
     epsilon := JNum "1"; result := None; attestation := None; completedAt := None;
     error := None |}.

Definition one_job : gmap string Job := {[ "job-1" := pending_job ]}.

(** The service answers every request with status 503 and an error text. *)
Definition analyze_unavailable : Response :=
  {| http_status := 503; data := JObj [("error", JStr "enclave is starting")] |}.

Definition world_unavailable : World :=
  {| tee_url_parses := true;
     health := health_ok;
     analyze := fun _ => Answered analyze_unavailable;
     clock := "2025-01-01T00:00:10.000Z" |}.

(** A second job, already completed, beside the pending one. *)
Definition finished_job : Job :=
  {| job_id := "job-0"; status := completed; createdAt := "2024-12-31T23:00:00.000Z";
     epsilon := JNum "0.5"; result := Some analytics_result;
     attestation := Some attestation_simulation;
     completedAt := Some "2024-12-31T23:00:05.000Z"; error := None |}.

Definition two_jobs : gmap string Job := <["job-0" := finished_job]> one_job.

(** The records of a submission, and an encryption that succeeds. *)
Definition records : json := JArr [JObj [("credit_score", JNum "700")]].

Definition encrypt_ok (_ : json) : completion (string * string) :=
  Normal ("gAAAAAB", "c2VjcmV0LWtleS1zZWNyZXQta2V5LXNlY3JldC1rZXkh").

Definition encrypt_fails (_ : json) : completion (string * string) :=
  Thrown "Secret must be 32 url-safe base64-encoded bytes.".

(** Thirty-two key bytes whose base64 text has [+], [/] and [=]. *)
Definition sample_key : buffer := [251; 255; 254]%N ++ replicate 29 7%N.

(** Request bodies for the two POST routes. *)
Definition verify_body : json :=
  JObj [("attestation", attestation_hardware); ("result", analytics_result);
        ("requestNonce", JStr nonce_text)].

Definition submit_body : json := JObj [("data", records)].

(** Bodies on which a debug log line throws. *)
Definition verify_body_numeric_signature : json :=
  JObj [("attestation", attestation_numeric_signature); ("result", analytics_result)].

Definition submit_body_epsilon_object : json :=
  JObj [("data", records); ("epsilon", JObj [("toString", JNum "1")])].

Definition submit_body_length_object : json :=
  JObj [("data", JObj [("length", JArr [JObj [("toString", JNull)]])])].

(** [analytics_result] as the job store hands it to the verifier in some
    calls: wrapped in an object under [result]. *)
Definition wrapped_result : json := JObj [("result", analytics_result)].

(** [analytics_result] with its keys inserted in another order. *)
Definition analytics_result_reordered : json :=
  JObj [("privacy_budget", JObj [("epsilon_per_query", JNum "1")]);
        ("risk_metrics", JObj [("mean_risk", JNum "0.42"); ("total_customers", JNum "1")])].

(** An attestation whose signing address is written with capital digits. *)
Definition attestation_capitals : json :=
  JObj [("intel_quote", JStr "040002008100");
        ("signing_address", JStr signer_address_checksummed);
        ("signature", JStr signature_text); ("nonce", JStr nonce_text)].

End Fixtures.

(** * Properties *)

(** ** Facts about property lists and key sorting *)

Module JsFacts.

Lemma rebuild_sorted_fold props :
  rebuild_sorted props = fold_left (step props) (sort_keys (keys props)) [].
Proof. reflexivity. Qed.

Lemma has_own_true props key : has_own props key = true <-> key ∈ keys props.
Proof.
  unfold has_own. rewrite existsb_exists. split.
  - intros (k & Hin & Heq). apply String.eqb_eq in Heq. subst k.
    by apply list_elem_of_In.
  - intros Hin. exists key. split; [by apply list_elem_of_In|apply String.eqb_refl].
Qed.

Lemma has_own_false props key : has_own props key = false <-> key ∉ keys props.
Proof.
  rewrite <- has_own_true. destruct (has_own props key); split; congruence.
Qed.

Lemma own_None props key : own props key = None <-> key ∉ keys props.
Proof.
  induction props as [|[k v] rest IH]; simpl.
  - split; [intros _; apply not_elem_of_nil|done].
  - rewrite not_elem_of_cons. destruct (String.eqb_spec k key) as [->|Hne].
    + split; [done|]. intros [? _]. congruence.
    + rewrite IH. split; [intros ?; split; [congruence|done]|by intros [_ ?]].
Qed.

Lemma own_Some_elem props key v : own props key = Some v -> (key, v) ∈ props.
Proof.
  induction props as [|[k w] rest IH]; simpl; [done|].
  destruct (String.eqb_spec k key) as [->|Hne].
  - intros [= ->]. left.
  - intros H. right. by apply IH.
Qed.

Lemma own_is_Some props key : key ∈ keys props -> is_Some (own props key).
Proof.
  intros Hin. destruct (own props key) eqn:E; [eauto|].
  apply own_None in E. done.
Qed.

Lemma elem_own props key v :
  NoDup (keys props) -> (key, v) ∈ props -> own props key = Some v.
Proof.
  induction props as [|[k w] rest IH]; simpl; intros Hnd Hin.
  - by apply elem_of_nil in Hin.
  - apply NoDup_cons in Hnd as [Hk Hnd]. apply elem_of_cons in Hin as [[= -> ->]|Hin].
    + by rewrite String.eqb_refl.
    + destruct (String.eqb_spec k key) as [->|Hne]; [|by apply IH].
      exfalso. apply Hk. unfold keys. apply list_elem_of_fmap. by exists (key, v).
Qed.

Lemma own_app_fresh props key v k :
  own (props ++ [(key, v)]) k
  = match own props k with Some w => Some w | None => if String.eqb key k then Some v else None end.
Proof.
  induction props as [|[k' w] rest IH]; simpl; [done|].
  destruct (String.eqb k' k); [done|apply IH].
Qed.

Lemma own_overwrite_same props key v :
  key ∈ keys props -> own (overwrite props key v) key = Some v.
Proof.
  induction props as [|[k w] rest IH]; simpl; intros Hin.
  - by apply elem_of_nil in Hin.
  - destruct (String.eqb_spec k key) as [->|Hne]; simpl.
    + by rewrite String.eqb_refl.
    + apply elem_of_cons in Hin as [?|Hin]; [congruence|].
      destruct (String.eqb_spec k key); [congruence|by apply IH].
Qed.

Lemma own_overwrite_other props key v k :
  k <> key -> own (overwrite props key v) k = own props k.
Proof.
  intros Hne. induction props as [|[k' w] rest IH]; simpl; [done|].
  destruct (String.eqb_spec k' key) as [->|Hne']; simpl.
  - destruct (String.eqb_spec key k); [congruence|done].
  - destruct (String.eqb k' k); [done|apply IH].
Qed.

Lemma keys_overwrite props key v : keys (overwrite props key v) = keys props.
Proof.
  induction props as [|[k w] rest IH]; simpl; [done|].
  destruct (String.eqb k key); simpl; [done|by rewrite IH].
Qed.

Lemma own_place_index_same n props key v :
  key ∉ keys props -> own (place_index n key v props) key = Some v.
Proof.
  induction props as [|[k w] rest IH]; simpl; intros Hin.
  - by rewrite String.eqb_refl.
  - apply not_elem_of_cons in Hin as [Hne Hin].
    destruct (array_index k) as [m|]; [destruct (m <? n)%N|]; simpl;
      rewrite ?String.eqb_refl; try done.
    destruct (String.eqb_spec k key); [congruence|by apply IH].
Qed.

Lemma own_place_index_other n props key v k :
  k <> key -> own (place_index n key v props) k = own props k.
Proof.
  intros Hne. induction props as [|[k' w] rest IH]; simpl.
  - destruct (String.eqb_spec key k); [congruence|done].
  - destruct (array_index k') as [m|]; [destruct (m <? n)%N|]; simpl.
    + destruct (String.eqb k' k); [done|apply IH].
    + destruct (String.eqb_spec key k); [congruence|done].
    + destruct (String.eqb_spec key k); [congruence|done].
Qed.

Lemma keys_place_index n props key v :
  keys (place_index n key v props) ≡ₚ key :: keys props.
Proof.
  induction props as [|[k w] rest IH]; simpl; [done|].
  destruct (array_index k) as [m|]; [destruct (m <? n)%N|]; simpl; try done.
  rewrite IH. apply perm_swap.
Qed.

Lemma own_assign_same props key v :
  key <> "__proto__" -> own (assign props key v) key = Some v.
Proof.
  intros Hp. unfold assign. destruct (String.eqb_spec key "__proto__"); [done|].
  destruct (has_own props key) eqn:Hown.
  - apply own_overwrite_same. by apply has_own_true.
  - apply has_own_false in Hown. destruct (array_index key).
    + by apply own_place_index_same.
    + rewrite own_app_fresh, String.eqb_refl.
      by apply own_None in Hown as ->.
Qed.

Lemma own_assign_other props key v k :
  k <> key -> own (assign props key v) k = own props k.
Proof.
  intros Hne. unfold assign. destruct (String.eqb key "__proto__"); [done|].
  destruct (has_own props key).
  - by apply own_overwrite_other.
  - destruct (array_index key).
    + by apply own_place_index_other.
    + rewrite own_app_fresh. destruct (own props k); [done|].
      destruct (String.eqb_spec key k); [congruence|done].
Qed.

Lemma assign_proto props v : assign props "__proto__" v = props.
Proof. reflexivity. Qed.

Lemma keys_assign_fresh props key v :
  key <> "__proto__" -> key ∉ keys props ->
  keys (assign props key v) ≡ₚ key :: keys props.
Proof.
  intros Hp Hfresh. unfold assign. destruct (String.eqb_spec key "__proto__"); [done|].
  apply has_own_false in Hfresh as ->. destruct (array_index key).
  - apply keys_place_index.
  - unfold keys. rewrite map_app. simpl. by rewrite Permutation_app_comm.
Qed.

(** What the loop leaves in [sorted]. *)

Lemma fold_step_own_outside props ks acc k :
  k ∉ ks -> own (fold_left (step props) ks acc) k = own acc k.
Proof.
  revert acc. induction ks as [|k0 ks IH]; simpl; intros acc Hk; [done|].
  apply not_elem_of_cons in Hk as [Hne Hk]. rewrite IH by done.
  unfold step. destruct (own props k0); [by apply own_assign_other|done].
Qed.

Lemma fold_step_own props ks acc k :
  k ∈ ks -> k <> "__proto__" -> is_Some (own props k) ->
  own (fold_left (step props) ks acc) k = own props k.
Proof.
  revert acc. induction ks as [|k0 ks IH]; simpl; intros acc Hk Hp Hs.
  - by apply elem_of_nil in Hk.
  - destruct (decide (k ∈ ks)) as [Hin|Hout]; [by apply IH|].
    apply elem_of_cons in Hk as [->|?]; [|done].
    rewrite fold_step_own_outside by done.
    unfold step. destruct Hs as [v ->]. by apply own_assign_same.
Qed.

Lemma fold_step_keys props ks acc :
  NoDup ks -> (forall k, k ∈ ks -> k ∉ keys acc) ->
  (forall k, k ∈ ks -> is_Some (own props k)) ->
  keys (fold_left (step props) ks acc) ≡ₚ keys acc ++ filter (.≠ "__proto__") ks.
Proof.
  revert acc. induction ks as [|k0 ks IH]; simpl; intros acc Hnd Hfresh Hsome.
  - by rewrite app_nil_r.
  - apply NoDup_cons in Hnd as [Hk0 Hnd].
    destruct (Hsome k0) as [v Hv]; [left|].
    unfold step at 2. rewrite Hv.
    destruct (decide (k0 = "__proto__")) as [->|Hp].
    + rewrite filter_cons_False by (intros ?; done).
      rewrite assign_proto. apply IH; [done| |].
      * intros k Hk. apply Hfresh. by right.
      * intros k Hk. apply Hsome. by right.
    + assert (keys (assign acc k0 v) ≡ₚ k0 :: keys acc) as Hkeys.
      { apply keys_assign_fresh; [done|]. apply Hfresh. left. }
      rewrite IH; [| done | |].
      * rewrite Hkeys, filter_cons_True by done. apply Permutation_middle.
      * intros k Hk. rewrite Hkeys. apply not_elem_of_cons. split.
        { intros ->. done. }
        apply Hfresh. by right.
      * intros k Hk. apply Hsome. by right.
Qed.


Lemma fold_step_skips_proto props ks acc :
  fold_left (step props) (filter (.≠ "__proto__") ks) acc = fold_left (step props) ks acc.
Proof.
  revert acc. induction ks as [|k0 ks IH]; intros acc; [done|].
  destruct (decide (k0 = "__proto__")) as [->|Hp].
  - rewrite filter_cons_False by (intros ?; done). simpl. rewrite IH. f_equal.
    unfold step. by destruct (own props "__proto__").
  - rewrite filter_cons_True by done. simpl. apply IH.
Qed.

Lemma fold_step_ext p q ks acc :
  (forall k, k ∈ ks -> own p k = own q k) ->
  fold_left (step p) ks acc = fold_left (step q) ks acc.
Proof.
  revert acc. induction ks as [|k0 ks IH]; simpl; intros acc Hagree; [done|].
  unfold step at 2 4. rewrite (Hagree k0) by left.
  apply IH. intros k Hk. apply Hagree. by right.
Qed.

(** The comparator-less sort gives one answer per set of keys. *)

Lemma sort_keys_perm ks : sort_keys ks ≡ₚ ks.
Proof. apply merge_sort_Permutation. Qed.

Lemma sort_keys_sorted ks : StronglySorted String.le (sort_keys ks).
Proof. apply StronglySorted_merge_sort; apply _. Qed.

Lemma sort_keys_elem ks k : k ∈ sort_keys ks <-> k ∈ ks.
Proof. by rewrite sort_keys_perm. Qed.

Lemma sort_keys_of_perm ks1 ks2 : ks1 ≡ₚ ks2 -> sort_keys ks1 = sort_keys ks2.
Proof.
  intros Hperm. apply (StronglySorted_unique String.le); try apply sort_keys_sorted.
  by rewrite !sort_keys_perm.
Qed.

Lemma sort_keys_of_sorted ks : StronglySorted String.le ks -> sort_keys ks = ks.
Proof.
  intros Hs. apply (StronglySorted_unique String.le);
    [apply sort_keys_sorted|done|apply sort_keys_perm].
Qed.

Lemma strongly_sorted_filter (P : string -> Prop) `{forall k, Decision (P k)} ks :
  StronglySorted String.le ks -> StronglySorted String.le (filter P ks).
Proof.
  induction 1 as [|k ks Hs IH Hall]; [constructor|].
  rewrite filter_cons. destruct (decide (P k)); [|done].
  constructor; [done|]. rewrite Forall_forall in Hall |- *.
  intros k' Hk'. apply list_elem_of_filter in Hk' as [_ Hk']. by apply Hall.
Qed.

(** The rebuilt object. *)

Lemma rebuild_sorted_keys props :
  NoDup (keys props) ->
  keys (rebuild_sorted props) ≡ₚ filter (.≠ "__proto__") (sort_keys (keys props)).
Proof.
  intros Hnd. rewrite rebuild_sorted_fold, fold_step_keys; [done| | |].
  - by rewrite sort_keys_perm.
  - intros k _. apply not_elem_of_nil.
  - intros k Hk. apply own_is_Some. by apply sort_keys_elem.
Qed.

Lemma rebuild_sorted_NoDup props :
  NoDup (keys props) -> NoDup (keys (rebuild_sorted props)).
Proof.
  intros Hnd. rewrite (rebuild_sorted_keys _ Hnd).
  apply NoDup_filter. by rewrite sort_keys_perm.
Qed.

Lemma rebuild_sorted_own props k :
  k ∈ keys props -> k <> "__proto__" -> own (rebuild_sorted props) k = own props k.
Proof.
  intros Hk Hp. rewrite rebuild_sorted_fold.
  apply fold_step_own; [by apply sort_keys_elem|done|by apply own_is_Some].
Qed.

Lemma rebuild_sorted_elem props k v :
  NoDup (keys props) -> (k, v) ∈ rebuild_sorted props -> (k, v) ∈ props.
Proof.
  intros Hnd Hin.
  assert (k ∈ keys (rebuild_sorted props)) as Hk.
  { unfold keys. apply list_elem_of_fmap. by exists (k, v). }
  pose proof (elem_own _ _ _ (rebuild_sorted_NoDup _ Hnd) Hin) as Hown.
  rewrite (rebuild_sorted_keys _ Hnd) in Hk.
  apply list_elem_of_filter in Hk as [Hp Hk]. apply (proj1 (sort_keys_elem _ _)) in Hk.
  rewrite (rebuild_sorted_own _ _ Hk Hp) in Hown. by apply own_Some_elem.
Qed.

Lemma rebuild_sorted_ext p q :
  keys p ≡ₚ keys q -> (forall k, k ∈ keys p -> own p k = own q k) ->
  rebuild_sorted p = rebuild_sorted q.
Proof.
  intros Hperm Hagree. rewrite !rebuild_sorted_fold.
  rewrite <- (sort_keys_of_perm _ _ Hperm).
  apply fold_step_ext. intros k Hk. apply Hagree. by apply sort_keys_elem.
Qed.

Lemma rebuild_sorted_idempotent props :
  NoDup (keys props) -> rebuild_sorted (rebuild_sorted props) = rebuild_sorted props.
Proof.
  intros Hnd.
  assert (sort_keys (keys (rebuild_sorted props))
          = filter (.≠ "__proto__") (sort_keys (keys props))) as Hks.
  { rewrite (sort_keys_of_perm _ _ (rebuild_sorted_keys _ Hnd)).
    apply sort_keys_of_sorted, strongly_sorted_filter, sort_keys_sorted. }
  rewrite (rebuild_sorted_fold (rebuild_sorted props)), Hks.
  rewrite (fold_step_ext (rebuild_sorted props) props).
  - by rewrite fold_step_skips_proto.
  - intros k Hk. apply list_elem_of_filter in Hk as [Hp Hk].
    apply (proj1 (sort_keys_elem _ _)) in Hk.
    by apply rebuild_sorted_own.
Qed.

End JsFacts.

(** ** The canonical form of a result *)

Module CanonicalForm.
Import JsFacts Fixtures.

Lemma sortKeysRecursively_object props :
  sortKeysRecursively (JObj props) = JObj (rebuild_sorted (sorted_values props)).
Proof. reflexivity. Qed.

Lemma keys_sorted_values props : keys (sorted_values props) = keys props.
Proof.
  unfold keys, sorted_values. rewrite map_map. apply map_ext. by intros [k v].
Qed.

Lemma own_sorted_values props k :
  own (sorted_values props) k = sortKeysRecursively <$> own props k.
Proof.
  induction props as [|[k' v] rest IH]; simpl; [done|].
  destruct (String.eqb k' k); [done|apply IH].
Qed.

Lemma distinct_keys_object props :
  distinct_keys (JObj props) = true ->
  NoDup (keys props) /\ forall k v, (k, v) ∈ props -> distinct_keys v = true.
Proof.
  simpl. intros [Hnd Hall]%andb_prop. split.
  - by apply bool_decide_eq_true in Hnd.
  - intros k v Hin. rewrite forallb_forall in Hall.
    apply (Hall (k, v)). by apply list_elem_of_In.
Qed.

Lemma distinct_keys_array items :
  distinct_keys (JArr items) = true -> Forall (fun x => distinct_keys x = true) items.
Proof.
  simpl. intros Hall. rewrite forallb_forall in Hall. apply Forall_forall.
  intros x Hx. apply Hall. by apply list_elem_of_In.
Qed.

Lemma sortKeysRecursively_idempotent x :
  distinct_keys x = true ->
  sortKeysRecursively (sortKeysRecursively x) = sortKeysRecursively x.
Proof.
  induction x as [| | | |items IH|props IH] using json_nested_ind; intros Hwf; try done.
  - apply distinct_keys_array in Hwf. simpl. f_equal. rewrite map_map.
    induction IH as [|x items Hx _ IHitems]; [done|].
    apply Forall_cons in Hwf as [Hwx Hwf]. simpl. f_equal; auto.
  - apply distinct_keys_object in Hwf as [Hnd Hwf].
    rewrite sortKeysRecursively_object.
    assert (NoDup (keys (sorted_values props))) as Hnd' by by rewrite keys_sorted_values.
    rewrite sortKeysRecursively_object.
    assert (sorted_values (rebuild_sorted (sorted_values props))
            = rebuild_sorted (sorted_values props)) as ->.
    { assert (Forall (fun kv => sortKeysRecursively (snd kv) = snd kv)
                (rebuild_sorted (sorted_values props))) as Hfixed.
      { apply Forall_forall. intros [k v] Hin. simpl.
        apply rebuild_sorted_elem in Hin; [|done].
        unfold sorted_values in Hin. apply list_elem_of_fmap in Hin as ([k0 v0] & [= -> ->] & Hin0).
        rewrite Forall_forall in IH. apply (IH (k0, v0)); [done|]. by apply (Hwf k0). }
      unfold sorted_values at 1.
      induction Hfixed as [|[k v] rest Hv _ IHrest]; [done|].
      simpl in *. by rewrite Hv, IHrest. }
    f_equal. by apply rebuild_sorted_idempotent.
Qed.

Lemma same_keys_permutation (ps qs : list (string * json)) :
  NoDup (keys ps) -> length ps = length qs ->
  (forall k, k ∈ keys ps -> k ∈ keys qs) ->
  keys ps ≡ₚ keys qs.
Proof.
  intros Hnd Hlen Hsub. apply submseteq_length_Permutation.
  - by apply NoDup_submseteq.
  - unfold keys. by rewrite !length_map, Hlen.
Qed.

Lemma sortKeysRecursively_order_independent x :
  forall y, distinct_keys x = true -> distinct_keys y = true ->
            same_up_to_key_order x y = true ->
            sortKeysRecursively x = sortKeysRecursively y.
Proof.
  induction x as [|a|a|a|items IH|props IH] using json_nested_ind;
    intros [|b|b|b|items'|props'] Hwx Hwy Hsame; try discriminate Hsame; try done.
  - simpl in Hsame. apply Bool.eqb_prop in Hsame. by subst.
  - simpl in Hsame. apply String.eqb_eq in Hsame. by subst.
  - simpl in Hsame. apply String.eqb_eq in Hsame. by subst.
  - apply distinct_keys_array in Hwx. apply distinct_keys_array in Hwy.
    simpl in Hsame |- *. f_equal.
    revert items' Hwy Hsame.
    induction IH as [|x items Hx _ IHitems]; intros [|y items'] Hwy Hsame;
      try discriminate Hsame; [done|].
    apply Forall_cons in Hwx as [Hwx1 Hwx]. apply Forall_cons in Hwy as [Hwy1 Hwy].
    apply andb_prop in Hsame as [Hhead Htail]. simpl. f_equal; auto.
  - apply distinct_keys_object in Hwx as [Hndx Hwx].
    apply distinct_keys_object in Hwy as [Hndy Hwy].
    simpl in Hsame. apply andb_prop in Hsame as [Hlen Hall].
    apply Nat.eqb_eq in Hlen. rewrite forallb_forall in Hall.
    assert (forall k v, (k, v) ∈ props ->
              exists w, own props' k = Some w /\ same_up_to_key_order v w = true) as Hmatch.
    { intros k v Hin. apply list_elem_of_In in Hin. specialize (Hall _ Hin). simpl in Hall.
      destruct (own props' k) as [w|]; [eauto|discriminate]. }
    rewrite !sortKeysRecursively_object. f_equal. apply rebuild_sorted_ext.
    + rewrite !keys_sorted_values. apply same_keys_permutation; [done..|].
      intros k Hk. apply own_is_Some in Hk as [v Hv].
      destruct (Hmatch k v (own_Some_elem _ _ _ Hv)) as (w & Hw & _).
      apply own_Some_elem in Hw. unfold keys. apply list_elem_of_fmap. by exists (k, w).
    + intros k Hk. rewrite keys_sorted_values in Hk. rewrite !own_sorted_values.
      apply own_is_Some in Hk as [v Hv]. rewrite Hv.
      pose proof (own_Some_elem _ _ _ Hv) as Hin.
      destruct (Hmatch k v Hin) as (w & Hw & Hvw). rewrite Hw. simpl. f_equal.
      rewrite Forall_forall in IH. apply (IH (k, v) Hin w); [by apply (Hwx k)| |done].
      apply (Hwy k). by apply own_Some_elem.
Qed.

(** Array-index keys come first in numeric order, the other keys follow in
    code-unit order, and an assignment to [__proto__] leaves no property. *)
Example sort_then_stringify :
  canonical_message metrics_unsorted
  = "{" +:+ quote "9" +:+ ":true," +:+ quote "10" +:+ ":null," +:+ quote "privacy_budget"
    +:+ ":1," +:+ quote "risk_metrics" +:+ ":{" +:+ quote "a" +:+ ":[{" +:+ quote "x" +:+ ":"
    +:+ quote "s" +:+ "," +:+ quote "y" +:+ ":null}]," +:+ quote "b" +:+ ":2}}".
Proof. vm_compute. reflexivity. Qed.

(** C6. Canonicalization (recursive key sorting, then compact
    serialization) is idempotent: sorting the keys of an already sorted
    value changes nothing, so canonicalizing it again gives the same text;
    and two values that are equal up to the insertion order of their object
    keys have the same canonical text.  The values are JSON data whose
    objects have pairwise distinct keys, as every JavaScript object has. *)
Theorem canonicalization_idempotent_and_order_independent :
  (forall x, distinct_keys x = true ->
     sortKeysRecursively (sortKeysRecursively x) = sortKeysRecursively x
     /\ canonical_message (sortKeysRecursively x) = canonical_message x)
  /\ (forall x y, distinct_keys x = true -> distinct_keys y = true ->
        same_up_to_key_order x y = true ->
        sortKeysRecursively x = sortKeysRecursively y
        /\ canonical_message x = canonical_message y).
Proof.
  split.
  - intros x Hx. unfold canonical_message.
    by rewrite sortKeysRecursively_idempotent.
  - intros x y Hx Hy Hsame. unfold canonical_message.
    by rewrite (sortKeysRecursively_order_independent x y).
Qed.

Lemma canonicalization_witness :
  (distinct_keys metrics_unsorted = true
   /\ sortKeysRecursively (sortKeysRecursively metrics_unsorted)
      = sortKeysRecursively metrics_unsorted
   /\ canonical_message (sortKeysRecursively metrics_unsorted)
      = canonical_message metrics_unsorted)
  /\ (distinct_keys metrics_reordered = true
      /\ same_up_to_key_order metrics_unsorted metrics_reordered = true
      /\ metrics_unsorted <> metrics_reordered
      /\ sortKeysRecursively metrics_unsorted = sortKeysRecursively metrics_reordered
      /\ canonical_message metrics_unsorted = canonical_message metrics_reordered).
Proof.
  assert (distinct_keys metrics_unsorted = true) as Hx by (vm_compute; reflexivity).
  assert (distinct_keys metrics_reordered = true) as Hy by (vm_compute; reflexivity).
  assert (same_up_to_key_order metrics_unsorted metrics_reordered = true) as Hsame
    by (vm_compute; reflexivity).
  split.
  - split; [exact Hx|].
    exact (proj1 canonicalization_idempotent_and_order_independent metrics_unsorted Hx).
  - split; [exact Hy|]. split; [exact Hsame|]. split; [discriminate|].
    exact (proj2 canonicalization_idempotent_and_order_independent
             metrics_unsorted metrics_reordered Hx Hy Hsame).
Defined.

End CanonicalForm.

(** ** Hexadecimal text and buffers *)

Module TextFacts.

Lemma unhex_hex_digit n : (n < 16)%N -> unhex (hex_digit n) = Some n.
Proof.
  intros Hn. destruct n as [|p]; [reflexivity|].
  repeat (destruct p as [p|p|]; try reflexivity; try lia).
Qed.

Lemma unhex_nibble c h : unhex c = Some h -> (h < 16)%N.
Proof.
  unfold unhex. intros H.
  repeat match type of H with
         | (if ?b then _ else _) = _ => destruct b eqn:?
         end; try discriminate H; injection H as <-;
    repeat match goal with
           | E : (_ && _)%bool = true |- _ => apply andb_prop in E as [? ?]
           | E : (_ <=? _)%N = true |- _ => apply N.leb_le in E
           end; lia.
Qed.

Lemma buffer_from_hex_bytes s : Forall (fun b => (b < 256)%N) (buffer_from_hex s).
Proof.
  enough (Forall (fun b => (b < 256)%N) (buffer_from_hex s)
          /\ forall c, Forall (fun b => (b < 256)%N) (buffer_from_hex (String c s)))
    as [H _] by exact H.
  induction s as [|c' s [IH1 IH2]]; [split; [constructor|intros c; constructor]|].
  split; [apply IH2|]. intros c. simpl.
  destruct (unhex c) as [high|] eqn:Hhigh; [|constructor].
  destruct (unhex c') as [low|] eqn:Hlow; [|constructor].
  apply unhex_nibble in Hhigh. apply unhex_nibble in Hlow.
  constructor; [lia|exact IH1].
Qed.

Lemma buffer_hex_round_trip buf :
  Forall (fun b => (b < 256)%N) buf -> buffer_from_hex (buffer_to_hex buf) = buf.
Proof.
  induction 1 as [|b buf Hb _ IH]; [reflexivity|]. simpl.
  rewrite !unhex_hex_digit, IH.
  - f_equal. symmetry. apply N.div_mod. lia.
  - apply N.mod_lt. lia.
  - apply N.Div0.div_lt_upper_bound. lia.
Qed.

Lemma buffer_slice_bytes from to buf :
  Forall (fun b => (b < 256)%N) buf -> Forall (fun b => (b < 256)%N) (buffer_slice from to buf).
Proof. intros H. unfold buffer_slice. by apply Forall_take, Forall_drop. Qed.

(** Copying into a fresh 32-byte buffer is zero-padding to 32 bytes. *)
Lemma buffer_copy_pad32 address : buffer_copy address (buffer_alloc 32) = pad32 address.
Proof.
  unfold buffer_copy, buffer_alloc, pad32.
  by rewrite length_replicate, drop_replicate.
Qed.

End TextFacts.

(** ** The attestation verifier *)

Module VerifierFacts.
Import TextFacts.

Lemma member_of_truthy v name :
  truthy v = true -> member v name = Normal (opt_member v name).
Proof. by destruct v as [[]|]. Qed.

Lemma try_catch_returns {A} (body : completion A) handler :
  (forall m, exists a, handler m = Normal a) -> exists a, try_catch body handler = Normal a.
Proof. intros Hh. destruct body as [a|m]; simpl; eauto. Qed.

Lemma bind_Normal {A B} (c : completion A) (k : A -> completion B) b :
  c ≫= k = Normal b <-> exists a, c = Normal a /\ k a = Normal b.
Proof.
  split.
  - destruct c as [a|m]; [eauto|discriminate].
  - by intros (a & -> & Hk).
Qed.

Lemma analytics_of_value result : analytics_of result = Normal (effective_result result).
Proof.
  unfold analytics_of, effective_result. destruct (truthy result) eqn:Ht; [|done].
  by rewrite (member_of_truthy _ _ Ht).
Qed.

Lemma has_metrics_truthy analytics :
  has_metrics (Some analytics) = true -> truthy (Some analytics) = true.
Proof. by destruct analytics. Qed.

Lemma verifyReportDataBinding_returns attestation requestNonce intel :
  exists b, verifyReportDataBinding attestation requestNonce intel = Normal b.
Proof.
  unfold verifyReportDataBinding. destruct (truthy intel) eqn:Hintel; simpl.
  - rewrite (member_of_truthy _ _ Hintel). simpl.
    destruct (truthy (opt_member intel "quote")); simpl; [|eauto].
    apply try_catch_returns. eauto.
  - eauto.
Qed.

(** C3 as amended. When the parsed quote has a report-data string, the
    attestation a signing-address string and the request nonce is a
    string, the check returns, and
    - [bindsAddress] holds iff the first 32 bytes of the report data are the
      bytes of the signing address zero-padded to 32;
    - [embedsNonce] holds iff the request nonce, without an optional [0x],
      is exactly the lower-case hexadecimal text of bytes 32 to 64 of the
      report data;
    so whenever the binding passes both halves match byte for byte, and a
    mismatch in a single byte of either half makes it fail. *)
Theorem report_data_binding_check
  attestation requestNonce intel quote body reportDataHex signingAddress nonce :
  opt_member intel "quote" = Some quote ->
  opt_member (Some quote) "body" = Some body ->
  opt_member (Some body) "reportdata" = Some (JStr reportDataHex) ->
  reportDataHex <> "" ->
  opt_member attestation "signing_address" = Some (JStr signingAddress) ->
  requestNonce = Some (JStr nonce) ->
  let reportData := buffer_from_hex (strip_0x reportDataHex) in
  let address := buffer_from_hex (strip_0x signingAddress) in
  exists b,
    verifyReportDataBinding attestation requestNonce intel = Normal b
    /\ (bindsAddress b = true <-> buffer_slice 0 32 reportData = pad32 address)
    /\ (embedsNonce b = true
        <-> strip_0x nonce = buffer_to_hex (buffer_slice 32 64 reportData))
    /\ (hasValidBinding (Some b) = true ->
        buffer_slice 0 32 reportData = pad32 address
        /\ buffer_slice 32 64 reportData = buffer_from_hex (strip_0x nonce)).
Proof.
  intros Hquote Hbody Hrd Hne Haddr -> reportData address.
  assert (truthy intel = true) as Hintel by (by destruct intel as [[]|]).
  assert (truthy (Some quote) = true) as Hq by (by destruct quote).
  assert (truthy attestation = true) as Ha by (by destruct attestation as [[]|]).
  unfold verifyReportDataBinding.
  rewrite Hintel, !(member_of_truthy _ _ Hintel), Hquote.
  cbn [mbind completion_bind Completion.bind negb orb].
  rewrite Hq. cbn [negb].
  rewrite (member_of_truthy _ _ Hq), Hbody.
  cbn [mbind completion_bind Completion.bind negb orb].
  rewrite Hrd.
  assert (truthy (Some (JStr reportDataHex)) = true) as ->.
  { simpl. by destruct (String.eqb_spec reportDataHex ""). }
  cbn [negb string_receiver mbind completion_bind Completion.bind].
  rewrite (member_of_truthy _ _ Ha), Haddr.
  cbn [negb string_receiver mbind completion_bind Completion.bind try_catch].
  fold reportData. fold address. rewrite buffer_copy_pad32.
  eexists. split; [reflexivity|]. cbn [bindsAddress embedsNonce hasValidBinding].
  assert (buffer_equals (buffer_slice 0 32 reportData) (pad32 address) = true
          <-> buffer_slice 0 32 reportData = pad32 address) as Hbinds
    by apply bool_decide_eq_true.
  assert ((buffer_to_hex (buffer_slice 32 64 reportData) =? strip_0x nonce)%string = true
          <-> strip_0x nonce = buffer_to_hex (buffer_slice 32 64 reportData)) as Hembeds.
  { rewrite String.eqb_eq. split; congruence. }
  split; [exact Hbinds|]. split; [exact Hembeds|].
  intros [H1 H2]%andb_prop. split; [by apply Hbinds|].
  apply Hembeds in H2. rewrite H2. symmetry.
  apply buffer_hex_round_trip, buffer_slice_bytes, buffer_from_hex_bytes.
Qed.

Section WithRecovery.
Variable recover : string -> string -> completion string.

(** The signature check in closed form: the structure guard, then the
    recovery under the [catch] block. *)
Lemma verifyResultSignature_unfold result signature signingAddress :
  verifyResultSignature recover result signature signingAddress
  = match effective_result result with
    | Some analytics =>
        if has_metrics (Some analytics)
        then try_catch (recover_and_compare recover analytics signature signingAddress)
               (signature_catch signature)
        else Normal (signature_failure
                       "Invalid result structure - missing risk_metrics or privacy_budget")
    | None =>
        Normal (signature_failure
                  "Invalid result structure - missing risk_metrics or privacy_budget")
    end.
Proof.
  unfold verifyResultSignature. rewrite analytics_of_value.
  cbn [mbind completion_bind Completion.bind].
  destruct (effective_result result) as [analytics|]; [|done].
  destruct (has_metrics (Some analytics)) eqn:Hmetrics.
  - pose proof (has_metrics_truthy _ Hmetrics) as Ht. rewrite Ht.
    rewrite (member_of_truthy _ "risk_metrics" Ht).
    cbn [mbind completion_bind Completion.bind andb negb orb].
    unfold has_metrics in Hmetrics.
    destruct (truthy (opt_member (Some analytics) "risk_metrics")); [done|].
    rewrite (member_of_truthy _ "privacy_budget" Ht).
    cbn [mbind completion_bind Completion.bind andb negb orb].
    cbn [orb] in Hmetrics. by rewrite Hmetrics.
  - destruct (truthy (Some analytics)) eqn:Ht; [|done].
    rewrite (member_of_truthy _ "risk_metrics" Ht).
    cbn [mbind completion_bind Completion.bind andb negb orb].
    unfold has_metrics in Hmetrics. apply orb_false_elim in Hmetrics as [Hrm Hpb].
    rewrite Hrm. cbn [negb]. rewrite (member_of_truthy _ "privacy_budget" Ht).
    cbn [mbind completion_bind Completion.bind]. by rewrite Hpb.
Qed.

(** A signature that is text never makes the signature check throw. *)
Lemma verifyResultSignature_returns result sig signingAddress :
  exists r, verifyResultSignature recover result (Some (JStr sig)) signingAddress = Normal r.
Proof. apply try_catch_returns. intros m. simpl. eauto. Qed.

Lemma recover_and_compare_verified analytics signature signingAddress :
  (exists r, recover_and_compare recover analytics signature signingAddress = Normal r
             /\ sig_verified r = true)
  <-> exists sig expected recovered,
        signature = Some (JStr sig)
        /\ String.length (ensure_0x sig) = 132
        /\ recover (canonical_message analytics) (ensure_0x sig) = Normal recovered
        /\ signingAddress = Some (JStr expected)
        /\ toLowerCase recovered = toLowerCase expected.
Proof.
  unfold recover_and_compare. split.
  - intros (r & Hrun & Hv).
    apply bind_Normal in Hrun as (sig & Hsig & Hrun).
    destruct signature as [[]|]; try discriminate Hsig. injection Hsig as ->.
    destruct (String.length (ensure_0x sig) =? 132)%nat eqn:Hlen; cbn [negb] in Hrun.
    2:{ injection Hrun as <-. discriminate Hv. }
    apply bind_Normal in Hrun as (recovered & Hrec & Hrun).
    apply bind_Normal in Hrun as (expected & Hexp & Hrun).
    destruct signingAddress as [[]|]; try discriminate Hexp. injection Hexp as ->.
    injection Hrun as <-. cbn in Hv.
    exists sig, expected, recovered. repeat split; try done.
    + by apply Nat.eqb_eq.
    + by apply String.eqb_eq.
  - intros (sig & expected & recovered & -> & Hlen & Hrec & -> & Hsame).
    cbn [string_receiver mbind completion_bind Completion.bind].
    rewrite Hlen, Hrec. cbn [Nat.eqb negb mbind completion_bind Completion.bind].
    eexists. split; [reflexivity|]. cbn. by apply String.eqb_eq.
Qed.




(** X11. A signature that is text, of the wrong length or one that recovery
    cannot decode, only turns the signature check to not verified with an
    error. *)
Lemma malformed_text_signature_degrades result sig signingAddress :
  String.length (ensure_0x sig) <> 132
  \/ (forall message, exists m, recover message (ensure_0x sig) = Thrown m) ->
  exists r, verifyResultSignature recover result (Some (JStr sig)) signingAddress = Normal r
            /\ sig_verified r = false /\ is_Some (sig_error r).
Proof.
  intros Hbad. rewrite verifyResultSignature_unfold.
  destruct (effective_result result) as [analytics|]; [|by eexists].
  destruct (has_metrics (Some analytics)); [|by eexists].
  unfold recover_and_compare. cbn [string_receiver mbind completion_bind Completion.bind].
  destruct (String.length (ensure_0x sig) =? 132)%nat eqn:Hlen; cbn [negb].
  - apply Nat.eqb_eq in Hlen. destruct Hbad as [Hbad|Hbad]; [done|].
    destruct (Hbad (canonical_message analytics)) as [m ->]. by eexists.
  - by eexists.
Qed.

End WithRecovery.

Section WithServices.
Variable phala : value -> completion json.
Variable recover : string -> string -> completion string.

Lemma verifyTdxQuote_service_failure intelQuote m :
  truthy intelQuote = true -> phala intelQuote = Thrown m ->
  verifyTdxQuote phala intelQuote
  = {| tdx_verified := false; tdx_error := Some m; intelResult := Some JNull;
       tdx_note := Some "TDX quote verification failed - may be in simulation mode";
       tdx_message := None |}.
Proof. intros Ht Hm. unfold verifyTdxQuote. by rewrite Ht, Hm. Qed.

(** What [verifyAttestation] returns, field by field. *)
Lemma verifyAttestation_fields attestation result requestNonce r :
  verifyAttestation phala recover attestation result requestNonce = Normal r ->
  let intel_quote := opt_member attestation "intel_quote" in
  let signature := opt_member attestation "signature" in
  let signing_address := opt_member attestation "signing_address" in
  tdxQuote r = (if truthy intel_quote then verifyTdxQuote phala intel_quote else quote_missing)
  /\ (if truthy (intelResult (tdxQuote r)) && truthy requestNonce
      then Some <$> verifyReportDataBinding attestation requestNonce (intelResult (tdxQuote r))
      else Normal None) = Normal (reportDataBinding r)
  /\ (if truthy signature && truthy signing_address && truthy result
      then verifyResultSignature recover result signature signing_address
      else Normal (signature_failure "Missing signature components"))
     = Normal (resultSignature r)
  /\ overall r = sig_verified (resultSignature r)
                 && (tdx_verified (tdxQuote r) || negb (truthy intel_quote)).
Proof.
  unfold verifyAttestation. intros Hrun.
  assert (forall name, member attestation name = Normal (opt_member attestation name)) as Hmember.
  { destruct attestation as [[]|]; try done; discriminate Hrun. }
  rewrite !Hmember in Hrun. cbn [mbind completion_bind Completion.bind] in Hrun.
  set (tdx := if truthy (opt_member attestation "intel_quote")
              then verifyTdxQuote phala (opt_member attestation "intel_quote")
              else quote_missing) in *.
  destruct (if truthy (intelResult tdx) && truthy requestNonce
            then Some <$> verifyReportDataBinding attestation requestNonce (intelResult tdx)
            else Normal None) as [binding|] eqn:Hbinding; [|discriminate Hrun].
  cbn [mbind completion_bind Completion.bind] in Hrun.
  destruct (if truthy (opt_member attestation "signature")
               && truthy (opt_member attestation "signing_address") && truthy result
            then verifyResultSignature recover result (opt_member attestation "signature")
                   (opt_member attestation "signing_address")
            else Normal (signature_failure "Missing signature components"))
    as [sg|] eqn:Hsig; [|discriminate Hrun].
  cbn [mbind completion_bind Completion.bind] in Hrun.
  injection Hrun as <-. cbn [tdxQuote reportDataBinding resultSignature overall].
  by rewrite Hbinding.
Qed.

Lemma verifyAttestation_returns bundle result requestNonce :
  textual (own bundle "signature") = true ->
  exists r, verifyAttestation phala recover (Some (JObj bundle)) result requestNonce = Normal r.
Proof.
  intros Htext. unfold verifyAttestation. cbn [member mbind completion_bind Completion.bind].
  set (tdx := if truthy (own bundle "intel_quote")
              then verifyTdxQuote phala (own bundle "intel_quote") else quote_missing).
  destruct (verifyReportDataBinding_returns (Some (JObj bundle)) requestNonce (intelResult tdx))
    as [b Hb].
  assert (exists binding,
            (if truthy (intelResult tdx) && truthy requestNonce
             then Some <$> verifyReportDataBinding (Some (JObj bundle)) requestNonce
                             (intelResult tdx)
             else Normal None) = Normal binding) as [binding ->].
  { destruct (truthy (intelResult tdx) && truthy requestNonce); [|eauto].
    rewrite Hb. simpl. eauto. }
  cbn [mbind completion_bind Completion.bind].
  assert (exists sg,
            (if truthy (own bundle "signature") && truthy (own bundle "signing_address")
                && truthy result
             then verifyResultSignature recover result (own bundle "signature")
                    (own bundle "signing_address")
             else Normal (signature_failure "Missing signature components")) = Normal sg)
    as [sg ->].
  { destruct (own bundle "signature") as [[]|]; try discriminate Htext;
      cbn [truthy andb]; eauto.
    destruct (negb (s =? "")%string && truthy (own bundle "signing_address") && truthy result);
      [apply verifyResultSignature_returns|eauto]. }
  cbn [mbind completion_bind Completion.bind]. eauto.
Qed.

(** C1. Whenever [verifyAttestation] returns, its overall verdict is
    (signature check passed) and ((quote check passed) or (no intel_quote in
    the attestation)), where the signature check is the answer of
    [verifyResultSignature] (or a failure when a component is missing); so
    for a quote-less attestation the verdict is the signature check alone,
    true when the signature verifies and false when it does not.  It
    returns for every attestation object whose signature is text or absent. *)
Theorem overall_verdict_policy attestation result requestNonce :
  let intel_quote := opt_member attestation "intel_quote" in
  let signature := opt_member attestation "signature" in
  let signing_address := opt_member attestation "signing_address" in
  (forall r,
     verifyAttestation phala recover attestation result requestNonce = Normal r ->
     overall r = verdict_policy (sig_verified (resultSignature r))
                   (tdx_verified (tdxQuote r)) (truthy intel_quote)
     /\ (if truthy signature && truthy signing_address && truthy result
         then verifyResultSignature recover result signature signing_address
         else Normal (signature_failure "Missing signature components"))
        = Normal (resultSignature r)
     /\ tdxQuote r = (if truthy intel_quote then verifyTdxQuote phala intel_quote
                      else quote_missing)
     /\ (truthy intel_quote = false -> overall r = sig_verified (resultSignature r)))
  /\ (forall bundle,
        attestation = Some (JObj bundle) -> textual signature = true ->
        exists r, verifyAttestation phala recover attestation result requestNonce = Normal r).
Proof.
  intros intel_quote signature signing_address. split.
  - intros r Hrun. apply verifyAttestation_fields in Hrun as (Htdx & _ & Hsig & Hoverall).
    repeat split; try done.
    fold intel_quote in Hoverall. intros Hnone. rewrite Hoverall, Hnone.
    by rewrite orb_true_r, andb_true_r.
  - intros bundle -> Htext. by apply verifyAttestation_returns.
Qed.

(** C9 as amended. When the attestation carries no quote, the quote
    sub-check is stored as not verified with the error [Intel quote
    missing] (the verification service is not asked), no report-data
    binding is computed, and the overall verdict is the signature check:
    the missing quote is left out of the verdict, not marked in the
    sub-check. *)
Theorem quoteless_subcheck_reporting attestation result requestNonce r :
  truthy (opt_member attestation "intel_quote") = false ->
  verifyAttestation phala recover attestation result requestNonce = Normal r ->
  tdxQuote r = quote_missing
  /\ reported_as_failed (tdxQuote r) = true
  /\ reportDataBinding r = None
  /\ overall r = sig_verified (resultSignature r).
Proof.
  intros Hnone Hrun.
  apply verifyAttestation_fields in Hrun as (Htdx & Hbinding & _ & Hoverall).
  rewrite Hnone in Htdx, Hoverall. rewrite Htdx in Hbinding, Hoverall |- *.
  cbn in Hbinding. injection Hbinding as <-.
  repeat split; try done. by rewrite Hoverall, orb_true_r, andb_true_r.
Qed.

(** A signature that is not text is not within the signatures the checks
    degrade on: with a JSON number, a signing address and a result that
    has its metrics, the catch block of [verifyResultSignature] throws
    again while it builds its diagnostics.  The route never passes such a
    signature on: its debug log has thrown before. *)
Lemma non_text_signature_throws requestNonce :
  verifyAttestation phala recover (Some Fixtures.attestation_numeric_signature)
    (Some Fixtures.analytics_result) requestNonce
  = Thrown "signature?.substring is not a function".
Proof. reflexivity. Qed.

End WithServices.

Import Fixtures.

Lemma malformed_signature_answer recover result sig signingAddress r :
  verifyResultSignature recover result (Some (JStr sig)) signingAddress = Normal r ->
  String.length (ensure_0x sig) <> 132
  \/ (forall message, exists m, recover message (ensure_0x sig) = Thrown m) ->
  sig_verified r = false /\ is_Some (sig_error r).
Proof.
  rewrite verifyResultSignature_unfold. intros Hrun Hbad.
  destruct (effective_result result) as [analytics|];
    [|injection Hrun as <-; split; [done|by eexists]].
  destruct (has_metrics (Some analytics));
    [|injection Hrun as <-; split; [done|by eexists]].
  unfold recover_and_compare in Hrun.
  cbn [string_receiver mbind completion_bind Completion.bind] in Hrun.
  destruct (String.length (ensure_0x sig) =? 132)%nat eqn:Hlen; cbn [negb] in Hrun.
  - apply Nat.eqb_eq in Hlen. destruct Hbad as [Hbad|Hbad]; [done|].
    destruct (Hbad (canonical_message analytics)) as [m Hm]. rewrite Hm in Hrun.
    cbn in Hrun. injection Hrun as <-. split; [done|by eexists].
  - cbn in Hrun. injection Hrun as <-. split; [done|by eexists].
Qed.

(** C7. For every attestation object whose signature is text (or is
    absent), [verifyAttestation] returns a complete results object.  A
    malformed signature (its length with the [0x] prefix is not 132, or
    recovery cannot decode it) leaves the signature sub-check not verified
    with an error; a failure of the quote service leaves the quote sub-check not
    verified with the error of the request.  Each failure stays in its own
    sub-check: the signature sub-check is the same under every quote
    service, and the quote sub-check is the same for every signature,
    result and nonce. *)
Theorem malformed_inputs_only_degrade phala recover bundle result requestNonce :
  textual (own bundle "signature") = true ->
  let intel_quote := own bundle "intel_quote" in
  exists r,
    verifyAttestation phala recover (Some (JObj bundle)) result requestNonce = Normal r
    /\ (forall sig,
          own bundle "signature" = Some (JStr sig) ->
          String.length (ensure_0x sig) <> 132
          \/ (forall message, exists m, recover message (ensure_0x sig) = Thrown m) ->
          sig_verified (resultSignature r) = false
          /\ is_Some (sig_error (resultSignature r)))
    /\ (forall m, truthy intel_quote = true -> phala intel_quote = Thrown m ->
        tdx_verified (tdxQuote r) = false /\ tdx_error (tdxQuote r) = Some m)
    /\ (forall phala' r',
          verifyAttestation phala' recover (Some (JObj bundle)) result requestNonce
          = Normal r' ->
          resultSignature r' = resultSignature r)
    /\ (forall bundle' result' requestNonce' r',
          own bundle' "intel_quote" = intel_quote ->
          verifyAttestation phala recover (Some (JObj bundle')) result' requestNonce'
          = Normal r' ->
          tdxQuote r' = tdxQuote r).
Proof.
  intros Htextual intel_quote.
  destruct (verifyAttestation_returns phala recover bundle result requestNonce Htextual)
    as [r Hr].
  exists r. split; [exact Hr|].
  pose proof (verifyAttestation_fields phala recover _ _ _ _ Hr) as (Htdx & _ & Hsig & _).
  cbn [opt_member] in Htdx, Hsig. fold intel_quote in Htdx.
  split; [|split; [|split]].
  - intros sig Hsignature Hbad. rewrite Hsignature in Hsig.
    destruct (truthy (Some (JStr sig)) && truthy (own bundle "signing_address")
              && truthy result).
    + by apply (malformed_signature_answer recover result sig _ _ Hsig).
    + injection Hsig as <-. split; [done|by eexists].
  - intros m Htruthy Hdown. rewrite Htdx, Htruthy.
    by rewrite (verifyTdxQuote_service_failure phala _ _ Htruthy Hdown).
  - intros phala' r' Hr'.
    pose proof (verifyAttestation_fields phala' recover _ _ _ _ Hr') as (_ & _ & Hsig' & _).
    cbn [opt_member] in Hsig'. rewrite Hsig in Hsig'. by injection Hsig'.
  - intros bundle' result' requestNonce' r' Hquote Hr'.
    pose proof (verifyAttestation_fields phala recover _ _ _ _ Hr') as (Htdx' & _).
    cbn [opt_member] in Htdx'. rewrite Hquote in Htdx'. fold intel_quote in Htdx'.
    by rewrite Htdx', Htdx.
Qed.

Lemma malformed_inputs_only_degrade_witness :
  exists r,
    verifyAttestation service_down recover_analytics (Some attestation_malformed)
      (Some analytics_result) (Some (JStr nonce_text)) = Normal r
    /\ sig_verified (resultSignature r) = false
    /\ is_Some (sig_error (resultSignature r))
    /\ tdx_verified (tdxQuote r) = false
    /\ tdx_error (tdxQuote r) = Some "connect ECONNREFUSED".
Proof.
  destruct (malformed_inputs_only_degrade service_down recover_analytics
              [("intel_quote", JStr "040002008100"); ("signing_address", JStr signer_address);
               ("signature", JStr "c0ffee"); ("nonce", JStr nonce_text)]
              (Some analytics_result) (Some (JStr nonce_text)) eq_refl)
    as (r & Hr & Hsignature & Hquote & _).
  exists r. split; [exact Hr|].
  destruct (Hsignature "c0ffee" eq_refl) as [Hv He]; [left; vm_compute; discriminate|].
  destruct (Hquote "connect ECONNREFUSED" eq_refl eq_refl) as [Hq Hqe].
  repeat (split; [assumption|]). exact Hqe.
Defined.

Lemma overall_verdict_witness :
  exists r r',
    verifyAttestation service_down recover_analytics (Some attestation_simulation)
      (Some analytics_result) (Some (JStr nonce_text)) = Normal r
    /\ overall r = verdict_policy (sig_verified (resultSignature r))
                     (tdx_verified (tdxQuote r)) false
    /\ sig_verified (resultSignature r) = true /\ overall r = true
    /\ verifyAttestation service_down recover_analytics (Some attestation_forged)
         (Some analytics_result) (Some (JStr nonce_text)) = Normal r'
    /\ sig_verified (resultSignature r') = false /\ overall r' = false.
Proof.
  destruct (proj2 (overall_verdict_policy service_down recover_analytics
                     (Some attestation_simulation) (Some analytics_result)
                     (Some (JStr nonce_text))) _ eq_refl eq_refl) as [r Hr].
  destruct (proj2 (overall_verdict_policy service_down recover_analytics
                     (Some attestation_forged) (Some analytics_result)
                     (Some (JStr nonce_text))) _ eq_refl eq_refl) as [r' Hr'].
  exists r, r'.
  destruct (proj1 (overall_verdict_policy _ _ _ _ _) r Hr) as (Hpolicy & _ & _ & Hquoteless).
  destruct (proj1 (overall_verdict_policy _ _ _ _ _) r' Hr') as (_ & _ & _ & Hquoteless').
  split; [exact Hr|]. split; [exact Hpolicy|].
  assert (sig_verified (resultSignature r) = true) as Hsig.
  { vm_compute in Hr. injection Hr as <-. reflexivity. }
  assert (sig_verified (resultSignature r') = false) as Hsig'.
  { vm_compute in Hr'. injection Hr' as <-. reflexivity. }
  split; [exact Hsig|]. split; [by rewrite (Hquoteless eq_refl)|].
  split; [exact Hr'|]. split; [exact Hsig'|]. by rewrite (Hquoteless' eq_refl).
Defined.

(** The claim C9 as written fails: for the quote-less attestation the quote
    sub-check comes back as a failure (not verified, with an error). *)
Lemma quoteless_subcheck_is_reported_failed :
  (fun r => reported_as_failed (tdxQuote r))
    <$> verifyAttestation service_down recover_analytics (Some attestation_simulation)
          (Some analytics_result) (Some (JStr nonce_text))
  = Normal true.
Proof. vm_compute. reflexivity. Qed.

Lemma quoteless_subcheck_witness :
  exists r,
    truthy (opt_member (Some attestation_simulation) "intel_quote") = false
    /\ verifyAttestation service_down recover_analytics (Some attestation_simulation)
         (Some analytics_result) (Some (JStr nonce_text)) = Normal r
    /\ tdxQuote r = quote_missing
    /\ reportDataBinding r = None
    /\ overall r = sig_verified (resultSignature r).
Proof.
  destruct (verifyAttestation_returns service_down recover_analytics
              [("intel_quote", JNull); ("signing_address", JStr signer_address);
               ("signature", JStr signature_text); ("nonce", JStr nonce_text)]
              (Some analytics_result) (Some (JStr nonce_text)) eq_refl) as [r Hr].
  exists r. split; [reflexivity|]. split; [exact Hr|].
  destruct (quoteless_subcheck_reporting service_down recover_analytics
              (Some attestation_simulation) (Some analytics_result)
              (Some (JStr nonce_text)) r eq_refl Hr) as (H1 & _ & H2 & H3).
  auto.
Defined.

(** C10. The overall verdict does not depend on the report-data binding:
    two runs on the same attestation and result, with any two request
    nonces and any two answers of the quote service that agree on whether
    the quote is verified (they may differ in the report data they carry),
    settle the same way and give the same overall value. *)
Theorem overall_ignores_binding
  (phala phala' : value -> completion json) (recover : string -> string -> completion string)
  (attestation result requestNonce requestNonce' : value) :
  tdx_verified (verifyTdxQuote phala (opt_member attestation "intel_quote"))
  = tdx_verified (verifyTdxQuote phala' (opt_member attestation "intel_quote")) ->
  overall <$> verifyAttestation phala recover attestation result requestNonce
  = overall <$> verifyAttestation phala' recover attestation result requestNonce'.
Proof.
  intros Hquote. unfold verifyAttestation.
  destruct (member attestation "intel_quote") as [iq|m] eqn:Hiq; [|done].
  assert (forall name, member attestation name = Normal (opt_member attestation name)) as Hmember.
  { destruct attestation as [[]|]; try done; discriminate Hiq. }
  rewrite Hmember in Hiq. injection Hiq as <-. rewrite !Hmember.
  cbn [mbind completion_bind Completion.bind].
  set (iq := opt_member attestation "intel_quote") in *.
  set (tdx := if truthy iq then verifyTdxQuote phala iq else quote_missing).
  set (tdx' := if truthy iq then verifyTdxQuote phala' iq else quote_missing).
  assert (tdx_verified tdx = tdx_verified tdx') as Hverified.
  { unfold tdx, tdx'. by destruct (truthy iq). }
  assert (forall t n, exists binding,
            (if truthy (intelResult t) && truthy n
             then Some <$> verifyReportDataBinding attestation n (intelResult t)
             else Normal None) = Normal binding) as Hbinding.
  { intros t n. destruct (truthy (intelResult t) && truthy n); [|eauto].
    destruct (verifyReportDataBinding_returns attestation n (intelResult t)) as [b ->].
    simpl. eauto. }
  destruct (Hbinding tdx requestNonce) as [b ->].
  destruct (Hbinding tdx' requestNonce') as [b' ->].
  cbn [mbind completion_bind Completion.bind].
  destruct (if truthy (opt_member attestation "signature")
               && truthy (opt_member attestation "signing_address") && truthy result
            then verifyResultSignature recover result (opt_member attestation "signature")
                   (opt_member attestation "signing_address")
            else Normal (signature_failure "Missing signature components")) as [sg|m]; [|done].
  cbn. by rewrite Hverified.
Qed.

Lemma overall_ignores_binding_witness :
  (fun r => hasValidBinding (reportDataBinding r))
    <$> verifyAttestation service_accepts recover_analytics (Some attestation_hardware)
          (Some analytics_result) (Some (JStr nonce_text)) = Normal true
  /\ (fun r => hasValidBinding (reportDataBinding r))
       <$> verifyAttestation service_accepts recover_analytics (Some attestation_hardware)
             (Some analytics_result) (Some (JStr nonce_text_upper)) = Normal false
  /\ overall <$> verifyAttestation service_accepts recover_analytics (Some attestation_hardware)
                   (Some analytics_result) (Some (JStr nonce_text)) = Normal true
  /\ overall <$> verifyAttestation service_accepts recover_analytics (Some attestation_hardware)
                   (Some analytics_result) (Some (JStr nonce_text))
     = overall <$> verifyAttestation service_accepts recover_analytics (Some attestation_hardware)
                     (Some analytics_result) (Some (JStr nonce_text_upper)).
Proof.
  split; [vm_compute; reflexivity|]. split; [vm_compute; reflexivity|].
  split; [vm_compute; reflexivity|].
  exact (overall_ignores_binding service_accepts service_accepts recover_analytics
           (Some attestation_hardware) (Some analytics_result)
           (Some (JStr nonce_text)) (Some (JStr nonce_text_upper)) eq_refl).
Defined.

(** Outside the results of the design the structure guard decides first:
    recovery over the canonical message of this object yields the signing
    address (up to case), yet the check answers not verified, because the
    object has neither [risk_metrics] nor [privacy_budget]. *)
Lemma structure_guard_decides_first :
  always_signer (canonical_message result_without_metrics) (ensure_0x signature_text)
  = Normal signer_address_checksummed
  /\ toLowerCase signer_address_checksummed = toLowerCase signer_address
  /\ sig_verified
       <$> verifyResultSignature always_signer (Some result_without_metrics)
             (Some (JStr signature_text)) (Some (JStr signer_address))
     = Normal false.
Proof. vm_compute. repeat split. Qed.


(** The claim C3 as written fails: the report data is 64 bytes, its first
    32 bytes are the padded signing address and its last 32 bytes are the
    bytes of the request nonce, yet the binding does not pass, because the
    nonce was given in upper-case hexadecimal. *)
Lemma binding_rejects_equal_bytes :
  let reportData := buffer_from_hex (strip_0x report_data_text) in
  length reportData = 64
  /\ buffer_slice 0 32 reportData = pad32 (buffer_from_hex (strip_0x signer_address))
  /\ buffer_slice 32 64 reportData = buffer_from_hex (strip_0x nonce_text_upper)
  /\ (fun b => hasValidBinding (Some b))
       <$> verifyReportDataBinding (Some attestation_hardware)
             (Some (JStr nonce_text_upper)) (Some intel_answer)
     = Normal false.
Proof. vm_compute. repeat split. Qed.

Lemma report_data_binding_witness :
  exists b,
    verifyReportDataBinding (Some attestation_hardware) (Some (JStr nonce_text))
      (Some intel_answer) = Normal b
    /\ (bindsAddress b = true
        <-> buffer_slice 0 32 (buffer_from_hex (strip_0x report_data_text))
            = pad32 (buffer_from_hex (strip_0x signer_address)))
    /\ (embedsNonce b = true
        <-> strip_0x nonce_text
            = buffer_to_hex (buffer_slice 32 64 (buffer_from_hex (strip_0x report_data_text))))
    /\ hasValidBinding (Some b) = true.
Proof.
  destruct (report_data_binding_check (Some attestation_hardware) (Some (JStr nonce_text))
              (Some intel_answer)
              (JObj [("verified", JBool true);
                     ("body", JObj [("reportdata", JStr report_data_text)])])
              (JObj [("reportdata", JStr report_data_text)])
              report_data_text signer_address nonce_text
              eq_refl eq_refl eq_refl ltac:(discriminate) eq_refl eq_refl)
    as (b & Hrun & Hbinds & Hembeds & _).
  exists b. split; [exact Hrun|]. split; [exact Hbinds|]. split; [exact Hembeds|].
  unfold hasValidBinding.
  rewrite (proj2 Hbinds) by (vm_compute; reflexivity).
  rewrite (proj2 Hembeds) by (vm_compute; reflexivity).
  reflexivity.
Defined.

End VerifierFacts.

(** ** The job orchestrator *)

Module OrchestratorFacts.
Import Fixtures.

Lemma retry_loop_accepts w r k : forall remaining attempt log,
  k < remaining -> attempt + k <= maxRetries ->
  (forall i, attempt <= i < attempt + k -> rejected (analyze w i) = true) ->
  analyze w (attempt + k) = Answered r ->
  (http_status r < 500)%N ->
  retry_loop w remaining attempt log
  = (inr (Some r),
     log ++ flat_map (fun i => [AnalyzeAttempt i; Sleep (retry_delay i)]) (seq attempt k)
         ++ [AnalyzeAttempt (attempt + k)]).
Proof.
  induction k as [|k IH]; intros remaining attempt log Hrem Hmax Hfail Hok Hstatus.
  - destruct remaining as [|remaining]; [lia|]. rewrite Nat.add_0_r in *. simpl.
    rewrite Hok. simpl. unfold analyze_validateStatus.
    by rewrite (proj2 (N.ltb_lt _ _) Hstatus).
  - destruct remaining as [|remaining]; [lia|]. simpl.
    specialize (Hfail attempt ltac:(lia)) as Hfirst. unfold rejected in Hfirst.
    destruct (axios_settle analyze_validateStatus (analyze w attempt)) as [e|?];
      [|discriminate Hfirst].
    rewrite (proj2 (Nat.ltb_lt attempt maxRetries)) by lia.
    rewrite (IH remaining (S attempt)); try lia.
    + f_equal. rewrite <- !app_assoc. simpl. by rewrite Nat.add_succ_r.
    + intros i Hi. apply Hfail. lia.
    + by replace (S attempt + k) with (attempt + S k) by lia.
Qed.

Lemma retry_loop_exhausted w : forall remaining attempt log,
  attempt + remaining = S maxRetries -> 0 < remaining ->
  (forall i, attempt <= i <= maxRetries -> rejected (analyze w i) = true) ->
  exists e,
    retry_loop w remaining attempt log
    = (inl e,
       log ++ flat_map (fun i => [AnalyzeAttempt i; Sleep (retry_delay i)])
                (seq attempt (remaining - 1))
           ++ [AnalyzeAttempt maxRetries])
    /\ axios_settle analyze_validateStatus (analyze w maxRetries) = inl e.
Proof.
  induction remaining as [|remaining IH]; intros attempt log Hsum Hpos Hfail; [lia|].
  simpl. specialize (Hfail attempt ltac:(lia)) as Hfirst. unfold rejected in Hfirst.
  destruct (axios_settle analyze_validateStatus (analyze w attempt)) as [e|?] eqn:Hsettle;
    [|discriminate Hfirst].
  destruct (decide (attempt = maxRetries)) as [->|Hne].
  - assert (remaining = 0) as -> by (unfold maxRetries in Hsum; lia).
    rewrite Nat.ltb_irrefl. exists e. split; [reflexivity|exact Hsettle].
  - rewrite (proj2 (Nat.ltb_lt attempt maxRetries)) by lia.
    destruct (IH (S attempt) ((log ++ [AnalyzeAttempt attempt])
                                ++ [Sleep (retry_delay attempt)])) as (e' & -> & He');
      [lia|lia|intros i Hi; apply Hfail; lia|].
    exists e'. split; [|done]. f_equal.
    destruct remaining as [|remaining]; [lia|].
    rewrite Nat.sub_0_r. simpl. rewrite Nat.sub_0_r, <- !app_assoc. reflexivity.
Qed.

(** Every run of the body of [processJob] leaves the job in a terminal state. *)
Lemma run_job_terminal w job : terminal (status (fst (run_job w job))) = true.
Proof.
  unfold run_job. destruct (tee_url_parses w); cbn [negb]; [|done].
  destruct (retry_loop w maxRetries 1 [HealthProbe]) as [[e|r] log]; simpl; [done|].
  destruct (response_field r "result"); simpl; [done|].
  by destruct (response_field r "attestation").
Qed.

(** A job that ends as failed carries an error and no new result. *)
Lemma failed_job_has_error w job :
  status (fst (run_job w job)) = failed ->
  is_Some (error (fst (run_job w job))) /\ result (fst (run_job w job)) = result job.
Proof.
  unfold run_job. destruct (tee_url_parses w); cbn [negb];
    [|intros _; split; [by eexists|done]].
  destruct (retry_loop w maxRetries 1 [HealthProbe]) as [[e|r] log]; simpl;
    [intros _; split; [by eexists|done]|].
  destruct r as [[code []]|]; simpl;
    try (intros _; split; [by eexists|done]); discriminate.
Qed.

Lemma retry_schedule_attempts k :
  k < maxRetries ->
  attempts (retry_schedule k) = seq 1 (S k)
  /\ delays (retry_schedule k) = map (fun i => N.min (2000 * N.of_nat i) 10000) (seq 1 k).
Proof.
  unfold maxRetries. intros Hk.
  destruct k as [|[|[|[|[|k]]]]]; try lia; split; reflexivity.
Qed.

(** C4. When the first k attempts (k < 5) are rejected (no answer, or a
    status of 500 and above) and attempt k+1 is answered with a body that
    is not null, [processJob] makes exactly the attempts 1..k+1, sleeps
    min(2000 * attempt, 10000) ms after each rejected attempt, and stores
    the job as completed. *)
Theorem retries_then_completes w jobId (jobResults : gmap string Job) job k r :
  jobResults !! jobId = Some job ->
  tee_url_parses w = true ->
  k < maxRetries ->
  (forall i, 1 <= i <= k -> rejected (analyze w i) = true) ->
  analyze w (S k) = Answered r ->
  (http_status r < 500)%N ->
  data r <> JNull ->
  exists job',
    processJob w jobId jobResults
    = (<[jobId := job']> jobResults, retry_schedule k, Normal tt)
    /\ status job' = completed
    /\ result job' = opt_member (Some (data r)) "result"
    /\ error job' = error job
    /\ attempts (retry_schedule k) = seq 1 (S k)
    /\ delays (retry_schedule k)
       = map (fun i => N.min (2000 * N.of_nat i) 10000) (seq 1 k).
Proof.
  intros Hjob Hurl Hk Hfail Hok Hstatus Hdata.
  unfold processJob, run_job. rewrite Hjob, Hurl. cbn [negb].
  rewrite (retry_loop_accepts w r k maxRetries 1 [HealthProbe]); try done; try lia.
  2:{ intros i Hi. apply Hfail. lia. }
  assert (forall field, response_field (Some r) field
                        = inr (opt_member (Some (data r)) field)) as Hfield.
  { intros field. unfold response_field. by destruct (data r). }
  rewrite !Hfield. eexists. split; [reflexivity|].
  repeat split; try reflexivity; by apply retry_schedule_attempts.
Qed.

Lemma retries_then_completes_witness :
  exists job',
    processJob (world_flaky 4) "job-1" one_job
    = (<["job-1" := job']> one_job, retry_schedule 4, Normal tt)
    /\ status job' = completed
    /\ result job' = Some analytics_result
    /\ attempts (retry_schedule 4) = [1; 2; 3; 4; 5]
    /\ delays (retry_schedule 4) = [2000; 4000; 6000; 8000]%N.
Proof.
  destruct (retries_then_completes (world_flaky 4) "job-1" one_job pending_job 4 analyze_ok)
    as (job' & Hrun & Hstatus & Hresult & _ & Hattempts & Hdelays).
  - reflexivity.
  - reflexivity.
  - unfold maxRetries. lia.
  - intros i Hi. destruct i as [|[|[|[|[|i]]]]]; try lia; reflexivity.
  - reflexivity.
  - reflexivity.
  - discriminate.
  - exists job'. repeat split; assumption.
Defined.

(** X19. When all five attempts are rejected the job is stored as failed, with
    an error and without a result, after the delays 2 s, 4 s, 6 s, 8 s. *)
Lemma exhausted_retries_fail w jobId (jobResults : gmap string Job) job :
  jobResults !! jobId = Some job ->
  tee_url_parses w = true ->
  (forall i, 1 <= i <= maxRetries -> rejected (analyze w i) = true) ->
  exists job' log,
    processJob w jobId jobResults = (<[jobId := job']> jobResults, log, Normal tt)
    /\ status job' = failed /\ is_Some (error job') /\ result job' = result job
    /\ attempts log = [1; 2; 3; 4; 5]
    /\ delays log = [2000; 4000; 6000; 8000]%N.
Proof.
  intros Hjob Hurl Hfail. unfold processJob, run_job. rewrite Hjob, Hurl. cbn [negb].
  destruct (retry_loop_exhausted w maxRetries 1 [HealthProbe]) as (e & -> & _);
    [done|unfold maxRetries; lia|done|].
  eexists _, _. split; [reflexivity|]. repeat split. by eexists.
Qed.

(** Any answer with a status from 400 to 499 to the first attempt ends the
    loop at once and is stored as a completed job: the error of the job
    stays as it was and the result is whatever the body has under
    [result]. *)
Lemma client_error_completes w jobId (jobResults : gmap string Job) job r :
  jobResults !! jobId = Some job ->
  tee_url_parses w = true ->
  analyze w 1 = Answered r ->
  (400 <= http_status r < 500)%N ->
  data r <> JNull ->
  exists job',
    processJob w jobId jobResults
    = (<[jobId := job']> jobResults, [HealthProbe; AnalyzeAttempt 1], Normal tt)
    /\ status job' = completed
    /\ error job' = error job
    /\ result job' = opt_member (Some (data r)) "result".
Proof.
  intros Hjob Hurl Hfirst Hstatus Hdata.
  unfold processJob, run_job. rewrite Hjob, Hurl. cbn [negb].
  rewrite (retry_loop_accepts w r 0 maxRetries 1 [HealthProbe]);
    try done; try (unfold maxRetries; lia); try (intros i Hi; lia).
  assert (forall field, response_field (Some r) field
                        = inr (opt_member (Some (data r)) field)) as Hfield.
  { intros field. unfold response_field. by destruct (data r). }
  rewrite !Hfield. eexists. split; [reflexivity|]. repeat split.
Qed.

(** C5 at its failing input. The service answers the first attempt with
    status 400 and an error body: there is no further attempt, but the job
    is stored as completed, with no error (and no result). *)
Theorem client_error_is_stored_as_completed :
  let '(jobResults, log, _) := processJob world_bad_request "job-1" one_job in
  attempts log = [1]
  /\ delays log = []
  /\ status <$> jobResults !! "job-1" = Some completed
  /\ error <$> jobResults !! "job-1" = Some None.
Proof. vm_compute. repeat split. Qed.

(** C8 at its failing input. A job submitted while the service answers
    with status 400 reaches a terminal state with neither a result nor an
    error on its record. *)
Theorem completed_job_without_result_or_error :
  let '(_, jobResults, _) :=
    submit world_bad_request "job-1" (Some (JArr [JObj [("credit_score", JNum "700")]]))
      (Some (JNum "1")) ∅ in
  (fun j => terminal (status j)) <$> jobResults !! "job-1" = Some true
  /\ status <$> jobResults !! "job-1" = Some completed
  /\ result <$> jobResults !! "job-1" = Some None
  /\ error <$> jobResults !! "job-1" = Some None.
Proof. vm_compute. repeat split. Qed.

End OrchestratorFacts.

(** ** More about the canonical form *)

Module CanonicalExtras.
Import JsFacts CanonicalForm Fixtures.

Lemma assign_keys_NoDup props key v :
  NoDup (keys props) -> NoDup (keys (assign props key v)).
Proof.
  intros Hnd. unfold assign. destruct (String.eqb_spec key "__proto__") as [|Hp]; [done|].
  destruct (has_own props key) eqn:Hown.
  - by rewrite keys_overwrite.
  - apply has_own_false in Hown.
    assert (keys (assign props key v) ≡ₚ key :: keys props) as Hperm
      by by apply keys_assign_fresh.
    unfold assign in Hperm. destruct (String.eqb_spec key "__proto__"); [done|].
    rewrite (proj2 (has_own_false props key) Hown) in Hperm.
    rewrite Hperm. by apply NoDup_cons.
Qed.

Lemma fold_step_NoDup props ks acc :
  NoDup (keys acc) -> NoDup (keys (fold_left (step props) ks acc)).
Proof.
  revert acc. induction ks as [|k ks IH]; intros acc Hnd; [done|]. simpl.
  apply IH. unfold step. destruct (own props k); [by apply assign_keys_NoDup|done].
Qed.

Lemma elem_overwrite props key v k' v' :
  (k', v') ∈ overwrite props key v -> (k', v') ∈ props \/ (k', v') = (key, v).
Proof.
  induction props as [|[k old] rest IH]; simpl; [by left|].
  destruct (String.eqb_spec k key) as [->|Hne].
  - intros [->|Hin]%elem_of_cons; [by right|left; by right].
  - intros [->|Hin]%elem_of_cons; [left; left|].
    destruct (IH Hin) as [?|?]; [left; by right|by right].
Qed.

Lemma elem_place_index n props key v k' v' :
  (k', v') ∈ place_index n key v props -> (k', v') ∈ props \/ (k', v') = (key, v).
Proof.
  induction props as [|[k old] rest IH]; simpl.
  - intros Hin. apply list_elem_of_singleton in Hin. by right.
  - destruct (array_index k) as [m|]; [destruct (m <? n)%N|].
    + intros [->|Hin]%elem_of_cons; [left; left|].
      destruct (IH Hin) as [?|?]; [left; by right|by right].
    + intros [->|Hin]%elem_of_cons; [by right|by left].
    + intros [->|Hin]%elem_of_cons; [by right|by left].
Qed.

Lemma elem_assign props key v k' v' :
  (k', v') ∈ assign props key v -> (k', v') ∈ props \/ (k', v') = (key, v).
Proof.
  unfold assign. destruct (String.eqb key "__proto__"); [by left|].
  destruct (has_own props key); [apply elem_overwrite|].
  destruct (array_index key); [apply elem_place_index|].
  intros [?|Hlast]%elem_of_app; [by left|].
  apply list_elem_of_singleton in Hlast. by right.
Qed.

Lemma fold_step_elem props ks acc k v :
  (k, v) ∈ fold_left (step props) ks acc -> (k, v) ∈ acc \/ (k, v) ∈ props.
Proof.
  revert acc. induction ks as [|k0 ks IH]; intros acc; simpl; [by left|].
  intros Hin. destruct (IH _ Hin) as [Hacc|?]; [|by right].
  unfold step in Hacc. destruct (own props k0) as [v0|] eqn:Hown; [|by left].
  destruct (elem_assign _ _ _ _ _ Hacc) as [?|[= -> ->]]; [by left|].
  right. by apply own_Some_elem.
Qed.

(** X1. The sorted value is again an object with pairwise distinct keys, at
    every depth, whatever the input. *)
Theorem sortKeysRecursively_distinct_keys x :
  distinct_keys (sortKeysRecursively x) = true.
Proof.
  induction x as [| | | |items IH|props IH] using json_nested_ind; try done.
  - simpl. apply forallb_forall. intros y Hy. apply in_map_iff in Hy as (x & <- & Hx).
    rewrite Forall_forall in IH. apply IH. by apply list_elem_of_In.
  - rewrite sortKeysRecursively_object. simpl. apply andb_true_intro. split.
    + apply bool_decide_eq_true. unfold rebuild_sorted. apply fold_step_NoDup. constructor.
    + apply forallb_forall. intros [k v] Hin. apply list_elem_of_In in Hin.
      unfold rebuild_sorted in Hin. apply fold_step_elem in Hin as [Hin|Hin].
      { by apply elem_of_nil in Hin. }
      unfold sorted_values in Hin.
      apply list_elem_of_fmap in Hin as ([k0 v0] & [= -> ->] & Hin0).
      rewrite Forall_forall in IH. by apply (IH (k0, v0)).
Qed.

(** X2. The own properties of the sorted object are those of the object
    without [__proto__], each with its value sorted.  (The assignment
    [sorted['__proto__'] = v] creates no own property; what it does to the
    prototype of [sorted] is outside the own properties, which are all
    that [Object.keys] and [JSON.stringify] see.) *)
Theorem sorted_object_lookup props k :
  NoDup (keys props) ->
  exists out,
    sortKeysRecursively (JObj props) = JObj out
    /\ has_own out "__proto__" = false
    /\ own out k
       = if String.eqb k "__proto__" then None else sortKeysRecursively <$> own props k.
Proof.
  intros Hnd. exists (rebuild_sorted (sorted_values props)).
  split; [apply sortKeysRecursively_object|].
  assert (NoDup (keys (sorted_values props))) as Hnd' by by rewrite keys_sorted_values.
  pose proof (rebuild_sorted_keys _ Hnd') as Hkeys.
  assert ("__proto__" ∉ keys (rebuild_sorted (sorted_values props))) as Hproto.
  { rewrite Hkeys. intros [H _]%list_elem_of_filter. done. }
  split; [by apply has_own_false|].
  destruct (String.eqb_spec k "__proto__") as [->|Hp].
  - by apply own_None.
  - rewrite <- own_sorted_values.
    destruct (decide (k ∈ keys (sorted_values props))) as [Hin|Hout].
    + by apply rebuild_sorted_own.
    + rewrite (proj2 (own_None _ _) Hout). apply own_None. rewrite Hkeys.
      intros [_ H]%list_elem_of_filter. apply Hout. by apply sort_keys_elem.
Qed.

Lemma sorted_object_lookup_witness :
  exists out,
    sortKeysRecursively metrics_unsorted = JObj out
    /\ keys out = ["9"; "10"; "privacy_budget"; "risk_metrics"]
    /\ has_own out "__proto__" = false
    /\ own out "risk_metrics"
       = Some (JObj [("a", JArr [JObj [("x", JStr "s"); ("y", JNull)]]); ("b", JNum "2")]).
Proof.
  assert (NoDup (keys [("risk_metrics",
                        JObj [("b", JNum "2");
                              ("a", JArr [JObj [("y", JNull); ("x", JStr "s")]])]);
                       ("privacy_budget", JNum "1"); ("10", JNull); ("9", JBool true);
                       ("__proto__", JObj [("z", JNull)])])) as Hnd.
  { apply (bool_decide_unpack _). vm_compute. exact I. }
  destruct (sorted_object_lookup _ "risk_metrics" Hnd) as (out & Hout & Hproto & Hown).
  exists out. split; [exact Hout|]. split.
  - vm_compute in Hout. injection Hout as <-. reflexivity.
  - split; [exact Hproto|exact Hown].
Defined.

Lemma place_index_ordered n key v others : forall indices props,
  keys props = indices ++ others ->
  Forall (fun k => is_Some (array_index k)) indices ->
  Forall (fun k => array_index k = None) others ->
  StronglySorted index_le indices ->
  array_index key = Some n ->
  exists indices',
    keys (place_index n key v props) = indices' ++ others
    /\ Forall (fun k => is_Some (array_index k)) indices'
    /\ StronglySorted index_le indices'
    /\ (forall x, x ∈ indices' <-> x = key \/ x ∈ indices).
Proof.
  induction indices as [|i indices IH]; intros props Hkeys Hidx Hoth Hsorted Hkey.
  - exists [key]. simpl in Hkeys.
    assert (keys (place_index n key v props) = key :: others) as ->.
    { destruct props as [|[k old] rest]; simpl in *; [by subst|].
      destruct others as [|o others']; [discriminate|]. injection Hkeys as -> Hrest.
      apply Forall_cons in Hoth as [-> _]. simpl. by rewrite Hrest. }
    repeat split.
    + constructor; [by rewrite Hkey|constructor].
    + repeat constructor.
    + intros ->%list_elem_of_singleton. by left.
    + intros [->|Hin]; [left|by apply elem_of_nil in Hin].
  - destruct props as [|[k old] rest]; [discriminate|]. simpl in Hkeys.
    injection Hkeys as -> Hrest.
    apply Forall_cons in Hidx as [[m Hm] Hidx].
    apply StronglySorted_inv in Hsorted as [Hsorted Hall].
    simpl. rewrite Hm. destruct (m <? n)%N eqn:Hlt.
    + destruct (IH rest Hrest Hidx Hoth Hsorted Hkey) as (indices' & Hk & Hi & Hs & Hmem).
      exists (i :: indices'). repeat split.
      * simpl. by rewrite Hk.
      * constructor; [by rewrite Hm|done].
      * constructor; [done|]. apply Forall_forall. intros x Hx.
        apply Hmem in Hx as [->|Hx].
        { unfold index_le. rewrite Hm, Hkey. apply N.ltb_lt in Hlt. lia. }
        { rewrite Forall_forall in Hall. by apply Hall. }
      * intros [->|Hx]%elem_of_cons; [right; left|].
        apply Hmem in Hx as [?|?]; [by left|right; by right].
      * intros [->|[->|Hx]%elem_of_cons]; [right; apply Hmem; by left|left|].
        right. apply Hmem. by right.
    + apply N.ltb_ge in Hlt. exists (key :: i :: indices). repeat split.
      * simpl. by rewrite Hrest.
      * constructor; [by rewrite Hkey|]. constructor; [by rewrite Hm|done].
      * constructor; [by constructor|]. constructor.
        { unfold index_le. by rewrite Hkey, Hm. }
        apply Forall_forall. intros x Hx. rewrite Forall_forall in Hall.
        specialize (Hall x Hx). unfold index_le in Hall |- *.
        rewrite Hm in Hall. rewrite Hkey. destruct (array_index x); [lia|done].
      * intros [->|?]%elem_of_cons; [by left|by right].
      * intros [->|?]; [left|by right].
Qed.

Lemma assign_ordered props key v :
  key <> "__proto__" -> key ∉ keys props ->
  enumeration_ordered (keys props) ->
  (forall a, a ∈ keys props -> String.le a key) ->
  enumeration_ordered (keys (assign props key v)).
Proof.
  intros Hp Hfresh (indices & others & Hkeys & Hidx & Hoth & Hsi & Hso) Hle.
  unfold assign. destruct (String.eqb_spec key "__proto__") as [|_]; [done|].
  rewrite (proj2 (has_own_false props key) Hfresh).
  destruct (array_index key) as [n|] eqn:Hkey.
  - destruct (place_index_ordered n key v others indices props Hkeys Hidx Hoth Hsi Hkey)
      as (indices' & Hk & Hi & Hs & _).
    exists indices', others. auto.
  - exists indices, (others ++ [key]). split; [|split; [done|split; [|split; [done|]]]].
    + unfold keys in *. rewrite map_app, Hkeys. simpl. by rewrite <- app_assoc.
    + apply Forall_app. split; [done|]. constructor; [done|constructor].
    + apply StronglySorted_app. split; [|split; [done|repeat constructor]].
      intros a b Ha Hb. apply list_elem_of_singleton in Hb. subst b.
      apply Hle. rewrite Hkeys. apply elem_of_app. by right.
Qed.

Lemma fold_step_ordered props : forall ks acc,
  NoDup ks -> StronglySorted String.le ks ->
  (forall k, k ∈ ks -> k ∉ keys acc) ->
  (forall k, k ∈ ks -> is_Some (own props k)) ->
  enumeration_ordered (keys acc) ->
  (forall a k, a ∈ keys acc -> k ∈ ks -> String.le a k) ->
  enumeration_ordered (keys (fold_left (step props) ks acc)).
Proof.
  induction ks as [|k ks IH]; intros acc Hnd Hsorted Hfresh Hsome Hord Hle; [done|].
  apply NoDup_cons in Hnd as [Hk Hnd].
  apply StronglySorted_inv in Hsorted as [Hsorted Hall]. rewrite Forall_forall in Hall.
  simpl. destruct (Hsome k) as [v Hv]; [left|]. unfold step at 2. rewrite Hv.
  destruct (decide (k = "__proto__")) as [->|Hp].
  - rewrite assign_proto. apply IH; try done.
    + intros k' Hk'. apply Hfresh. by right.
    + intros k' Hk'. apply Hsome. by right.
    + intros a k' Ha Hk'. apply Hle; [done|by right].
  - assert (keys (assign acc k v) ≡ₚ k :: keys acc) as Hkeys.
    { apply keys_assign_fresh; [done|]. apply Hfresh. left. }
    apply IH; try done.
    + intros k' Hk'. rewrite Hkeys. apply not_elem_of_cons. split; [by intros ->|].
      apply Hfresh. by right.
    + intros k' Hk'. apply Hsome. by right.
    + apply assign_ordered; try done; [apply Hfresh; left|].
      intros a Ha. apply Hle; [done|left].
    + intros a k' Ha Hk'. rewrite Hkeys in Ha. apply elem_of_cons in Ha as [->|Ha].
      * by apply Hall.
      * apply Hle; [done|by right].
Qed.

(** X3. The keys of a sorted object are enumerated with the array-index keys
    first, in ascending numeric order, and then the other keys in ascending
    order of their character codes; they are the keys of the object without
    [__proto__]. *)
Theorem sorted_object_key_order props :
  NoDup (keys props) ->
  exists out,
    sortKeysRecursively (JObj props) = JObj out
    /\ enumeration_ordered (keys out)
    /\ (forall k, k ∈ keys out <-> k ∈ keys props /\ k <> "__proto__").
Proof.
  intros Hnd. exists (rebuild_sorted (sorted_values props)).
  split; [apply sortKeysRecursively_object|].
  assert (NoDup (keys (sorted_values props))) as Hnd' by by rewrite keys_sorted_values.
  split.
  - unfold rebuild_sorted. apply fold_step_ordered.
    + by rewrite sort_keys_perm.
    + apply sort_keys_sorted.
    + intros k _. apply not_elem_of_nil.
    + intros k Hk. apply own_is_Some. by apply sort_keys_elem.
    + exists [], []. repeat split; constructor.
    + intros a k Ha. by apply elem_of_nil in Ha.
  - intros k. rewrite (rebuild_sorted_keys _ Hnd'), list_elem_of_filter, sort_keys_elem.
    rewrite keys_sorted_values. tauto.
Qed.

Lemma sorted_object_key_order_witness :
  exists out,
    sortKeysRecursively metrics_unsorted = JObj out
    /\ keys out = ["9"; "10"; "privacy_budget"; "risk_metrics"]
    /\ enumeration_ordered (keys out).
Proof.
  assert (NoDup (keys [("risk_metrics",
                        JObj [("b", JNum "2");
                              ("a", JArr [JObj [("y", JNull); ("x", JStr "s")]])]);
                       ("privacy_budget", JNum "1"); ("10", JNull); ("9", JBool true);
                       ("__proto__", JObj [("z", JNull)])])) as Hnd.
  { apply (bool_decide_unpack _). vm_compute. exact I. }
  destruct (sorted_object_key_order _ Hnd) as (out & Hout & Hord & _).
  exists out. split; [exact Hout|]. split; [|exact Hord].
  vm_compute in Hout. injection Hout as <-. reflexivity.
Defined.

End CanonicalExtras.

(** ** More about the attestation verifier *)

Module VerifierExtras.
Import TextFacts VerifierFacts CanonicalForm JsFacts Fixtures.

Lemma opt_member_of_falsy v name : truthy v = false -> opt_member v name = None.
Proof. by destruct v as [[]|]. Qed.

Lemma verifyTdxQuote_answered phala intelQuote data :
  truthy intelQuote = true -> phala intelQuote = Normal data -> data <> JNull ->
  exists message,
    verifyTdxQuote phala intelQuote
    = {| tdx_verified :=
           is_true_value (opt_member (opt_member (Some data) "quote") "verified");
         tdx_error := None; intelResult := Some data; tdx_note := None;
         tdx_message := message |}.
Proof.
  intros Ht Hd Hnn. unfold verifyTdxQuote. rewrite Ht, Hd.
  cbn [negb mbind completion_bind Completion.bind].
  assert (forall name, member (Some data) name = Normal (opt_member (Some data) name))
    as Hmember by (intros name; by destruct data).
  rewrite !Hmember. cbn [mbind completion_bind Completion.bind].
  set (quote := opt_member (Some data) "quote").
  assert (forall name, member (js_or quote (Some (JObj []))) name
                       = Normal (opt_member quote name)) as Hpayload.
  { intros name. unfold js_or. destruct (truthy quote) eqn:Hq; [by apply member_of_truthy|].
    by rewrite (opt_member_of_falsy _ _ Hq). }
  rewrite !Hpayload. cbn [mbind completion_bind Completion.bind].
  destruct (truthy (opt_member quote "message")); by eexists.
Qed.

Lemma tdx_intelResult_truthy phala intelQuote :
  truthy (intelResult (verifyTdxQuote phala intelQuote)) = true
  <-> truthy intelQuote = true
      /\ exists data, phala intelQuote = Normal data /\ truthy (Some data) = true.
Proof.
  destruct (truthy intelQuote) eqn:Ht.
  2:{ unfold verifyTdxQuote. rewrite Ht. cbn. split; [done|by intros [? _]]. }
  destruct (phala intelQuote) as [data|m] eqn:Hd.
  2:{ rewrite (verifyTdxQuote_service_failure _ _ _ Ht Hd). cbn.
      split; [done|]. by intros (_ & d & ? & _). }
  assert (data = JNull \/ data <> JNull) as [->|Hnn] by (destruct data; auto).
  - unfold verifyTdxQuote. rewrite Ht, Hd. cbn. split; [done|].
    by intros (_ & d & [= <-] & ?).
  - destruct (verifyTdxQuote_answered _ _ _ Ht Hd Hnn) as [msg ->].
    cbn [intelResult]. split.
    + intros Htruthy. split; [done|]. by exists data.
    + by intros (_ & d & [= <-] & ?).
Qed.

Lemma tdx_verified_inv phala intelQuote :
  tdx_verified (verifyTdxQuote phala intelQuote) = true
  <-> truthy intelQuote = true
      /\ exists data, phala intelQuote = Normal data
           /\ is_true_value (opt_member (opt_member (Some data) "quote") "verified") = true.
Proof.
  unfold verifyTdxQuote. destruct (truthy intelQuote); cbn [negb].
  2:{ split; [done|by intros [? _]]. }
  destruct (phala intelQuote) as [data|m]; cbn [mbind completion_bind Completion.bind].
  2:{ split; [done|]. by intros (_ & data & ? & _). }
  assert (data = JNull \/ member (Some data) "quote" = Normal (opt_member (Some data) "quote"))
    as [->|Hq] by (destruct data; auto).
  { cbn. split; [done|]. by intros (_ & data & [= <-] & ?). }
  rewrite Hq. cbn [mbind completion_bind Completion.bind].
  set (quote := opt_member (Some data) "quote").
  assert (member (js_or quote (Some (JObj []))) "verified"
          = Normal (opt_member quote "verified")) as ->.
  { unfold js_or. destruct (truthy quote) eqn:Ht; [by apply member_of_truthy|].
    by rewrite (opt_member_of_falsy _ _ Ht). }
  cbn [mbind completion_bind Completion.bind].
  assert (exists pm, member (js_or quote (Some (JObj []))) "message" = Normal pm) as [pm ->].
  { unfold js_or. destruct (truthy quote) eqn:Ht; [|by eexists].
    rewrite (member_of_truthy _ _ Ht). by eexists. }
  cbn [mbind completion_bind Completion.bind].
  assert (exists msg, (if truthy pm then Normal pm else member (Some data) "message")
                      = Normal msg) as [msg ->].
  { destruct (truthy pm); [by eexists|].
    destruct data; try discriminate Hq; by eexists. }
  cbn. split.
  - intros Hv. split; [done|]. by exists data.
  - by intros (_ & data' & [= <-] & Hv).
Qed.

(** X4. The quote check says verified exactly when there is a quote, the
    verification service answers, and its answer has [quote.verified]
    equal to [true]; a failure of the service, a [null] answer or an answer
    without a quote never verifies. *)
Theorem quote_verified_iff phala intelQuote :
  tdx_verified (verifyTdxQuote phala intelQuote) = true
  <-> truthy intelQuote = true
      /\ exists data, phala intelQuote = Normal data
           /\ opt_member (opt_member (Some data) "quote") "verified" = Some (JBool true).
Proof.
  rewrite tdx_verified_inv. split; intros (Ht & data & Hd & Hv); (split; [done|]);
    exists data; (split; [done|]).
  - by destruct (opt_member (opt_member (Some data) "quote") "verified") as [[|[]| | | |]|].
  - by rewrite Hv.
Qed.

(** X5. The binding check never throws; when it reports an error both flags
    are false, and otherwise it reports what it compared. *)
Theorem binding_check_always_answers attestation requestNonce intel :
  exists b,
    verifyReportDataBinding attestation requestNonce intel = Normal b
    /\ (is_Some (binding_error b) -> bindsAddress b = false /\ embedsNonce b = false)
    /\ (binding_error b = None ->
        is_Some (embeddedAddress b) /\ is_Some (embeddedNonce b)
        /\ is_Some (expectedAddress b) /\ is_Some (expectedNonce b)).
Proof.
  assert (forall m, exists b, Normal (binding_failure m) = Normal b
            /\ (is_Some (binding_error b) -> bindsAddress b = false /\ embedsNonce b = false)
            /\ (binding_error b = None ->
                is_Some (embeddedAddress b) /\ is_Some (embeddedNonce b)
                /\ is_Some (expectedAddress b) /\ is_Some (expectedNonce b))) as Hfail.
  { intros m. eexists. split; [reflexivity|]. split; [done|discriminate]. }
  unfold verifyReportDataBinding. destruct (truthy intel) eqn:Hintel; cbn [negb orb].
  2:{ cbn. apply Hfail. }
  rewrite !(member_of_truthy _ _ Hintel). cbn [mbind completion_bind Completion.bind].
  destruct (truthy (opt_member intel "quote")) eqn:Hq; cbn [negb]; [|apply Hfail].
  rewrite (member_of_truthy _ _ Hq). cbn [mbind completion_bind Completion.bind].
  destruct (truthy (opt_member (opt_member (opt_member intel "quote") "body") "reportdata"));
    cbn [negb]; [|apply Hfail].
  destruct (string_receiver _ "reportDataHex" "startsWith") as [rd|m];
    cbn [mbind completion_bind Completion.bind try_catch]; [|apply Hfail].
  destruct (member attestation "signing_address") as [sa|m];
    cbn [mbind completion_bind Completion.bind try_catch]; [|apply Hfail].
  destruct (string_receiver sa "signingAddress" "startsWith") as [sat|m];
    cbn [mbind completion_bind Completion.bind try_catch]; [|apply Hfail].
  destruct (string_receiver requestNonce "requestNonce" "startsWith") as [rn|m];
    cbn [mbind completion_bind Completion.bind try_catch]; [|apply Hfail].
  eexists. split; [reflexivity|]. cbn. split; [by intros [? ?]|]. intros _.
  repeat split; by eexists.
Qed.

Section WithServices.
Variable phala : value -> completion json.
Variable recover : string -> string -> completion string.

Lemma verifyResultSignature_throws result signature signingAddress :
  is_normal (verifyResultSignature recover result signature signingAddress) = false
  <-> has_metrics (effective_result result) = true /\ textual signature = false.
Proof.
  rewrite verifyResultSignature_unfold.
  destruct (effective_result result) as [analytics|]; [|by split; [|intros [? _]]].
  destruct (has_metrics (Some analytics)); [|by split; [|intros [? _]]].
  unfold recover_and_compare, signature_catch.
  destruct signature as [[]|]; cbn; try (by split; [|intros [_ ?]]); try by split.
  destruct (negb (String.length (ensure_0x s) =? 132)%nat); cbn;
    [by split; [|intros [_ ?]]|].
  destruct (recover (canonical_message analytics) (ensure_0x s)); cbn;
    [|by split; [|intros [_ ?]]].
  destruct (string_receiver signingAddress "signingAddress" "toLowerCase"); cbn;
    by split; [|intros [_ ?]].
Qed.

Lemma binding_step_returns attestation requestNonce (tdx : TdxQuoteResult) :
  exists binding,
    (if truthy (intelResult tdx) && truthy requestNonce
     then Some <$> verifyReportDataBinding attestation requestNonce (intelResult tdx)
     else Normal None) = Normal binding.
Proof.
  destruct (truthy (intelResult tdx) && truthy requestNonce); [|eauto].
  destruct (verifyReportDataBinding_returns attestation requestNonce (intelResult tdx))
    as [b ->].
  simpl. eauto.
Qed.

(** X6. [verifyAttestation] throws in exactly two cases: the attestation is
    [undefined] or [null]; or the signature is truthy and not a string
    while the signing address and the result are truthy and the object
    under check has its metrics (the catch block of the signature check
    then throws again). *)
Theorem verifyAttestation_throws_iff attestation result requestNonce :
  let signature := opt_member attestation "signature" in
  let signing_address := opt_member attestation "signing_address" in
  is_normal (verifyAttestation phala recover attestation result requestNonce) = false
  <-> (attestation = None \/ attestation = Some JNull)
      \/ (truthy signature = true /\ textual signature = false
          /\ truthy signing_address = true /\ truthy result = true
          /\ has_metrics (effective_result result) = true).
Proof.
  intros signature signing_address. unfold verifyAttestation.
  assert ((attestation = None \/ attestation = Some JNull)
          \/ (~ (attestation = None \/ attestation = Some JNull)
              /\ forall name, member attestation name
                              = Normal (opt_member attestation name)))
    as [Hnull|[Hobj Hmember]].
  { destruct attestation as [[]|]; auto; right; (split; [by intros [?|?]|done]). }
  { split; [by left|]. intros _. by destruct Hnull as [-> | ->]. }
  rewrite !Hmember. cbn [mbind completion_bind Completion.bind].
  match goal with
  | |- context [if truthy ?iq then verifyTdxQuote phala ?iq else quote_missing] =>
      set (tdx := if truthy iq then verifyTdxQuote phala iq else quote_missing)
  end.
  destruct (binding_step_returns attestation requestNonce tdx) as [binding ->].
  cbn [mbind completion_bind Completion.bind]. fold signature signing_address.
  destruct (truthy signature && truthy signing_address && truthy result) eqn:Hcond.
  - apply andb_prop in Hcond as [[Hs Ha]%andb_prop Hr].
    pose proof (verifyResultSignature_throws result signature signing_address) as Hthrows.
    destruct (verifyResultSignature recover result signature signing_address) as [sg|m];
      cbn in Hthrows |- *.
    + split; [done|]. intros [?|(_ & ? & _ & _ & ?)]; [done|].
      by apply Hthrows.
    + split; [|done]. intros _. right.
      destruct (proj1 Hthrows eq_refl) as [? ?]. done.
  - cbn. split; [done|]. intros [?|(Hs & _ & Ha & Hr & _)]; [done|].
    by rewrite Hs, Ha, Hr in Hcond.
Qed.

Lemma verified_signature_inv result signature signingAddress r :
  verifyResultSignature recover result signature signingAddress = Normal r ->
  sig_verified r = true ->
  exists analytics sig expected recovered,
    effective_result result = Some analytics
    /\ has_metrics (Some analytics) = true
    /\ signature = Some (JStr sig)
    /\ String.length (ensure_0x sig) = 132
    /\ recover (canonical_message analytics) (ensure_0x sig) = Normal recovered
    /\ signingAddress = Some (JStr expected)
    /\ toLowerCase recovered = toLowerCase expected.
Proof.
  rewrite verifyResultSignature_unfold. intros Hrun Hv.
  destruct (effective_result result) as [analytics|];
    [|injection Hrun as <-; discriminate Hv].
  destruct (has_metrics (Some analytics)) eqn:Hmetrics;
    [|injection Hrun as <-; discriminate Hv].
  destruct (recover_and_compare recover analytics signature signingAddress)
    as [r'|m] eqn:Hrc; simpl in Hrun.
  - injection Hrun as ->.
    destruct (proj1 (recover_and_compare_verified recover analytics signature signingAddress))
      as (sig & expected & recovered & H); [eauto|].
    exists analytics, sig, expected, recovered. tauto.
  - unfold signature_catch in Hrun.
    apply bind_Normal in Hrun as (prefix & _ & [= <-]). discriminate Hv.
Qed.

(** X7. An attestation is accepted only on evidence: when the overall verdict
    is true, the signature is a 65-byte hexadecimal string, recovery over
    the canonical message of the object under check gave the signing
    address (up to letter case), and, if the attestation carries a quote,
    the verification service answered with [quote.verified] true. *)
Theorem accepted_attestation_sound attestation result requestNonce r :
  verifyAttestation phala recover attestation result requestNonce = Normal r ->
  overall r = true ->
  (exists analytics sig expected recovered,
     effective_result result = Some analytics
     /\ has_metrics (Some analytics) = true
     /\ opt_member attestation "signature" = Some (JStr sig)
     /\ String.length (ensure_0x sig) = 132
     /\ recover (canonical_message analytics) (ensure_0x sig) = Normal recovered
     /\ opt_member attestation "signing_address" = Some (JStr expected)
     /\ toLowerCase recovered = toLowerCase expected)
  /\ (truthy (opt_member attestation "intel_quote") = true ->
      exists data,
        phala (opt_member attestation "intel_quote") = Normal data
        /\ opt_member (opt_member (Some data) "quote") "verified" = Some (JBool true)).
Proof.
  intros Hrun Hoverall.
  apply verifyAttestation_fields in Hrun as (Htdx & _ & Hsig & Hov).
  rewrite Hoverall in Hov. symmetry in Hov. apply andb_prop in Hov as [Hsv Hq]. split.
  - destruct (truthy (opt_member attestation "signature")
              && truthy (opt_member attestation "signing_address") && truthy result).
    + by apply (verified_signature_inv _ _ _ _ Hsig).
    + injection Hsig as Hsig. rewrite <- Hsig in Hsv. discriminate Hsv.
  - intros Hpresent. rewrite Hpresent in Htdx, Hq. cbn in Hq. rewrite orb_false_r in Hq.
    rewrite Htdx in Hq. apply tdx_verified_inv in Hq as (_ & data & Hd & Hv).
    exists data. split; [done|].
    by destruct (opt_member (opt_member (Some data) "quote") "verified") as [[|[]| | | |]|].
Qed.

(** X8. The report-data binding is computed exactly when the attestation
    carries a quote, a request nonce is given, and the verification service
    answered with a truthy body; otherwise it is left [null]. *)
Theorem binding_computed_iff attestation result requestNonce r :
  verifyAttestation phala recover attestation result requestNonce = Normal r ->
  (is_Some (reportDataBinding r)
   <-> truthy (opt_member attestation "intel_quote") = true
       /\ truthy requestNonce = true
       /\ exists data, phala (opt_member attestation "intel_quote") = Normal data
                       /\ truthy (Some data) = true).
Proof.
  intros Hrun. apply verifyAttestation_fields in Hrun as (Htdx & Hbinding & _ & _).
  assert (truthy (intelResult (tdxQuote r)) = true
          <-> truthy (opt_member attestation "intel_quote") = true
              /\ exists data, phala (opt_member attestation "intel_quote") = Normal data
                              /\ truthy (Some data) = true) as Hintel.
  { rewrite Htdx. destruct (truthy (opt_member attestation "intel_quote")) eqn:Hq.
    - rewrite tdx_intelResult_truthy, Hq. tauto.
    - cbn. split; [done|by intros [? _]]. }
  destruct (truthy (intelResult (tdxQuote r))) eqn:Hi; cbn [andb] in Hbinding.
  - destruct (truthy requestNonce) eqn:Hn.
    + destruct (verifyReportDataBinding_returns attestation requestNonce
                  (intelResult (tdxQuote r))) as [b Hb].
      rewrite Hb in Hbinding. cbn in Hbinding. injection Hbinding as <-.
      split; [|by eexists]. intros _. destruct (proj1 Hintel eq_refl) as [? ?]. done.
    + injection Hbinding as <-. split; [by intros [? ?]|]. by intros (_ & ? & _).
  - injection Hbinding as <-. split; [by intros [? ?]|].
    intros (Hq & _ & Hdata). assert (false = true); [|done]. apply Hintel. by split.
Qed.

End WithServices.

Lemma accepted_attestation_sound_witness :
  exists r,
    verifyAttestation service_accepts recover_analytics (Some attestation_hardware)
      (Some analytics_result) (Some (JStr nonce_text)) = Normal r
    /\ overall r = true
    /\ (exists analytics sig expected recovered,
          effective_result (Some analytics_result) = Some analytics
          /\ has_metrics (Some analytics) = true
          /\ opt_member (Some attestation_hardware) "signature" = Some (JStr sig)
          /\ String.length (ensure_0x sig) = 132
          /\ recover_analytics (canonical_message analytics) (ensure_0x sig) = Normal recovered
          /\ opt_member (Some attestation_hardware) "signing_address" = Some (JStr expected)
          /\ toLowerCase recovered = toLowerCase expected)
    /\ exists data,
         service_accepts (opt_member (Some attestation_hardware) "intel_quote") = Normal data
         /\ opt_member (opt_member (Some data) "quote") "verified" = Some (JBool true).
Proof.
  destruct (verifyAttestation_returns service_accepts recover_analytics
              [("intel_quote", JStr "040002008100"); ("signing_address", JStr signer_address);
               ("signature", JStr signature_text); ("nonce", JStr nonce_text)]
              (Some analytics_result) (Some (JStr nonce_text)) eq_refl) as [r Hr].
  assert (overall r = true) as Hoverall.
  { vm_compute in Hr. injection Hr as <-. reflexivity. }
  destruct (accepted_attestation_sound service_accepts recover_analytics
              (Some attestation_hardware) (Some analytics_result) (Some (JStr nonce_text))
              r Hr Hoverall) as [Hsig Hquote].
  exists r. split; [exact Hr|]. split; [exact Hoverall|]. split; [exact Hsig|].
  apply Hquote. reflexivity.
Defined.

Lemma binding_computed_iff_witness :
  exists r r',
    verifyAttestation service_accepts recover_analytics (Some attestation_hardware)
      (Some analytics_result) (Some (JStr nonce_text)) = Normal r
    /\ is_Some (reportDataBinding r)
    /\ verifyAttestation service_down recover_analytics (Some attestation_hardware)
         (Some analytics_result) (Some (JStr nonce_text)) = Normal r'
    /\ reportDataBinding r' = None.
Proof.
  destruct (verifyAttestation_returns service_accepts recover_analytics
              [("intel_quote", JStr "040002008100"); ("signing_address", JStr signer_address);
               ("signature", JStr signature_text); ("nonce", JStr nonce_text)]
              (Some analytics_result) (Some (JStr nonce_text)) eq_refl) as [r Hr].
  destruct (verifyAttestation_returns service_down recover_analytics
              [("intel_quote", JStr "040002008100"); ("signing_address", JStr signer_address);
               ("signature", JStr signature_text); ("nonce", JStr nonce_text)]
              (Some analytics_result) (Some (JStr nonce_text)) eq_refl) as [r' Hr'].
  exists r, r'. split; [exact Hr|]. split.
  - apply (proj2 (binding_computed_iff service_accepts recover_analytics
                    (Some attestation_hardware) (Some analytics_result)
                    (Some (JStr nonce_text)) r Hr)).
    split; [reflexivity|]. split; [reflexivity|]. eexists. split; reflexivity.
  - split; [exact Hr'|].
    pose proof (proj1 (binding_computed_iff service_down recover_analytics
                         (Some attestation_hardware) (Some analytics_result)
                         (Some (JStr nonce_text)) r' Hr')) as Hnone.
    destruct (reportDataBinding r') as [b|]; [|reflexivity].
    destruct (Hnone ltac:(by eexists)) as (_ & _ & data & Hdata & _). discriminate Hdata.
Defined.

Section WithRecovery.
Variable recover : string -> string -> completion string.

(** X9. A result wrapped as [{ result: r }] gets the verdict, the error and
    the recovered address of [r] itself (when [r] is truthy and has no
    truthy [result] of its own), and throws when [r] does. *)
Theorem nested_result_is_unwrapped wrapper inner signature signingAddress :
  opt_member wrapper "result" = Some inner ->
  truthy (Some inner) = true ->
  truthy (opt_member (Some inner) "result") = false ->
  (fun r => (sig_verified r, sig_error r, recoveredAddress r))
    <$> verifyResultSignature recover wrapper signature signingAddress
  = (fun r => (sig_verified r, sig_error r, recoveredAddress r))
      <$> verifyResultSignature recover (Some inner) signature signingAddress.
Proof.
  intros Hinner Ht Hflat. rewrite !verifyResultSignature_unfold.
  assert (truthy wrapper = true) as Hw by (by destruct wrapper as [[]|]).
  unfold effective_result. by rewrite Hw, Hinner, Ht, Hflat.
Qed.

(** X10. The [0x] prefix of the signature is optional: with and without it the
    check gives the same verdict, error and recovered address. *)
Theorem signature_prefix_optional result sig signingAddress :
  String.prefix "0x" sig = false ->
  (fun r => (sig_verified r, sig_error r, recoveredAddress r))
    <$> verifyResultSignature recover result (Some (JStr ("0x" +:+ sig))) signingAddress
  = (fun r => (sig_verified r, sig_error r, recoveredAddress r))
      <$> verifyResultSignature recover result (Some (JStr sig)) signingAddress.
Proof.
  intros Hprefix. rewrite !verifyResultSignature_unfold.
  destruct (effective_result result) as [analytics|]; [|done].
  destruct (has_metrics (Some analytics)); [|done].
  unfold recover_and_compare. cbn [string_receiver mbind completion_bind Completion.bind].
  assert (ensure_0x ("0x" +:+ sig) = ensure_0x sig) as ->.
  { unfold ensure_0x. rewrite Hprefix. by destruct sig as [|? [|? ?]]. }
  destruct (negb (String.length (ensure_0x sig) =? 132)%nat); [done|].
  destruct (recover (canonical_message analytics) (ensure_0x sig)); [|done].
  cbn [mbind completion_bind Completion.bind].
  by destruct (string_receiver signingAddress "signingAddress" "toLowerCase").
Qed.

End WithRecovery.

Lemma nested_result_is_unwrapped_witness :
  (fun r => (sig_verified r, sig_error r, recoveredAddress r))
    <$> verifyResultSignature recover_analytics (Some wrapped_result)
          (Some (JStr signature_text)) (Some (JStr signer_address))
  = (fun r => (sig_verified r, sig_error r, recoveredAddress r))
      <$> verifyResultSignature recover_analytics (Some analytics_result)
            (Some (JStr signature_text)) (Some (JStr signer_address))
  /\ sig_verified
       <$> verifyResultSignature recover_analytics (Some wrapped_result)
             (Some (JStr signature_text)) (Some (JStr signer_address))
     = Normal true.
Proof.
  split; [|vm_compute; reflexivity].
  exact (nested_result_is_unwrapped recover_analytics (Some wrapped_result) analytics_result
           (Some (JStr signature_text)) (Some (JStr signer_address))
           eq_refl eq_refl eq_refl).
Defined.

Lemma signature_prefix_optional_witness :
  (fun r => (sig_verified r, sig_error r, recoveredAddress r))
    <$> verifyResultSignature recover_analytics (Some analytics_result)
          (Some (JStr ("0x" +:+ signature_text))) (Some (JStr signer_address))
  = (fun r => (sig_verified r, sig_error r, recoveredAddress r))
      <$> verifyResultSignature recover_analytics (Some analytics_result)
            (Some (JStr signature_text)) (Some (JStr signer_address)).
Proof.
  exact (signature_prefix_optional recover_analytics (Some analytics_result) signature_text
           (Some (JStr signer_address)) eq_refl).
Defined.

Lemma malformed_text_signature_degrades_witness :
  exists r,
    verifyResultSignature recover_analytics (Some analytics_result) (Some (JStr "c0ffee"))
      (Some (JStr signer_address)) = Normal r
    /\ sig_verified r = false /\ is_Some (sig_error r).
Proof.
  apply (malformed_text_signature_degrades recover_analytics (Some analytics_result) "c0ffee"
           (Some (JStr signer_address))).
  left. vm_compute. discriminate.
Defined.

(** *** Letter case of hexadecimal text *)

Lemma unhex_lower_char c : unhex (lower_char c) = unhex c.
Proof. destruct c as [[] [] [] [] [] [] [] []]; reflexivity. Qed.

Lemma buffer_from_hex_toLowerCase s : buffer_from_hex (toLowerCase s) = buffer_from_hex s.
Proof.
  enough (buffer_from_hex (toLowerCase s) = buffer_from_hex s
          /\ forall c, buffer_from_hex (toLowerCase (String c s))
                       = buffer_from_hex (String c s)) as [H _] by exact H.
  induction s as [|c' s [IH1 IH2]]; [by split|].
  split; [apply IH2|]. intros c. simpl. rewrite !unhex_lower_char.
  destruct (unhex c); [|done]. destruct (unhex c'); [|done]. by rewrite IH1.
Qed.

Lemma length_toLowerCase s : String.length (toLowerCase s) = String.length s.
Proof. induction s as [|c s IH]; simpl; [done|by rewrite IH]. Qed.

Lemma substring_toLowerCase s : forall n m,
  String.substring n m (toLowerCase s) = toLowerCase (String.substring n m s).
Proof.
  induction s as [|c s IH]; intros [|n] [|m]; simpl; try done.
  by rewrite IH.
Qed.

Lemma prefix_0x_toLowerCase s :
  String.prefix "0X" s = false ->
  String.prefix "0x" (toLowerCase s) = String.prefix "0x" s.
Proof.
  destruct s as [|c1 [|c2 rest]]; [done| |].
  - intros _. destruct c1 as [[] [] [] [] [] [] [] []]; reflexivity.
  - intros Hp.
    destruct c1 as [[] [] [] [] [] [] [] []]; try reflexivity.
    destruct c2 as [[] [] [] [] [] [] [] []]; try reflexivity.
    + by destruct rest.
    + by destruct rest.
Qed.

Lemma strip_0x_toLowerCase s :
  String.prefix "0X" s = false ->
  buffer_from_hex (strip_0x (toLowerCase s)) = buffer_from_hex (strip_0x s).
Proof.
  intros Hp. unfold strip_0x. rewrite (prefix_0x_toLowerCase _ Hp).
  destruct (String.prefix "0x" s); [|apply buffer_from_hex_toLowerCase].
  by rewrite length_toLowerCase, substring_toLowerCase, buffer_from_hex_toLowerCase.
Qed.

(** X12. The binding check reads the signing address as hexadecimal digits of
    either letter case: writing the address in lower case does not change
    its answer (the [0x] prefix itself has to be lower case). *)
Theorem binding_ignores_address_case bundle bundle' address requestNonce intel :
  own bundle "signing_address" = Some (JStr address) ->
  own bundle' "signing_address" = Some (JStr (toLowerCase address)) ->
  String.prefix "0X" address = false ->
  verifyReportDataBinding (Some (JObj bundle')) requestNonce intel
  = verifyReportDataBinding (Some (JObj bundle)) requestNonce intel.
Proof.
  intros Hb Hb' Hp. unfold verifyReportDataBinding.
  destruct (truthy intel) eqn:Hintel; [|done].
  rewrite !(member_of_truthy _ _ Hintel). cbn [mbind completion_bind Completion.bind].
  destruct (truthy (opt_member intel "quote")) eqn:Hq; cbn [negb orb]; [|done].
  rewrite (member_of_truthy _ _ Hq). cbn [mbind completion_bind Completion.bind].
  destruct (truthy (opt_member (opt_member (opt_member intel "quote") "body") "reportdata"));
    cbn [negb]; [|done].
  destruct (string_receiver _ "reportDataHex" "startsWith") as [rd|m];
    cbn [mbind completion_bind Completion.bind try_catch member]; [|done].
  rewrite Hb, Hb'. cbn [mbind completion_bind Completion.bind string_receiver].
  by rewrite (strip_0x_toLowerCase _ Hp).
Qed.

Lemma binding_ignores_address_case_witness :
  verifyReportDataBinding (Some attestation_hardware) (Some (JStr nonce_text))
    (Some intel_answer)
  = verifyReportDataBinding (Some attestation_capitals) (Some (JStr nonce_text))
      (Some intel_answer)
  /\ (fun b => hasValidBinding (Some b))
       <$> verifyReportDataBinding (Some attestation_capitals) (Some (JStr nonce_text))
             (Some intel_answer)
     = Normal true.
Proof.
  split; [|vm_compute; reflexivity].
  exact (binding_ignores_address_case
           [("intel_quote", JStr "040002008100");
            ("signing_address", JStr signer_address_checksummed);
            ("signature", JStr signature_text); ("nonce", JStr nonce_text)]
           [("intel_quote", JStr "040002008100"); ("signing_address", JStr signer_address);
            ("signature", JStr signature_text); ("nonce", JStr nonce_text)]
           signer_address_checksummed (Some (JStr nonce_text)) (Some intel_answer)
           eq_refl eq_refl eq_refl).
Defined.

(** *** The order of the keys of the result *)

Lemma same_truthy x y :
  same_up_to_key_order x y = true -> truthy (Some x) = truthy (Some y).
Proof.
  destruct x as [|a|a|a|xs|ps], y as [|b|b|b|ys|qs]; simpl; try discriminate; try done.
  - by intros ->%Bool.eqb_prop.
  - by intros ->%String.eqb_eq.
  - by intros ->%String.eqb_eq.
Qed.

Lemma same_own ps qs k :
  distinct_keys (JObj ps) = true -> distinct_keys (JObj qs) = true ->
  same_up_to_key_order (JObj ps) (JObj qs) = true ->
  (own ps k = None /\ own qs k = None)
  \/ exists v w, own ps k = Some v /\ own qs k = Some w
                 /\ distinct_keys v = true /\ distinct_keys w = true
                 /\ same_up_to_key_order v w = true.
Proof.
  intros [Hnd Hch]%distinct_keys_object [Hnd' Hch']%distinct_keys_object Hsame.
  cbn [same_up_to_key_order] in Hsame. apply andb_prop in Hsame as [Hlen Hall].
  apply Nat.eqb_eq in Hlen. rewrite forallb_forall in Hall.
  assert (Hsub : forall k', k' ∈ keys ps -> k' ∈ keys qs).
  { intros k' Hk'. apply own_is_Some in Hk' as [v Hv]. apply own_Some_elem in Hv.
    apply list_elem_of_In, Hall in Hv.
    destruct (own qs k') as [w|] eqn:Hw; [|discriminate Hv].
    apply own_Some_elem in Hw. apply list_elem_of_fmap. by exists (k', w). }
  pose proof (same_keys_permutation ps qs Hnd Hlen Hsub) as Hperm.
  destruct (own ps k) as [v|] eqn:Hv.
  - right. pose proof (own_Some_elem _ _ _ Hv) as Hin.
    pose proof (Hall _ (proj1 (list_elem_of_In _ _) Hin)) as Hk. cbn beta iota in Hk.
    destruct (own qs k) as [w|] eqn:Hw; [|discriminate Hk].
    exists v, w. repeat split; eauto using own_Some_elem.
  - left. split; [done|]. apply own_None. rewrite <- Hperm. by apply own_None.
Qed.

Lemma same_opt_member x y name :
  distinct_keys x = true -> distinct_keys y = true ->
  same_up_to_key_order x y = true ->
  (opt_member (Some x) name = None /\ opt_member (Some y) name = None)
  \/ exists v w, opt_member (Some x) name = Some v /\ opt_member (Some y) name = Some w
                 /\ distinct_keys v = true /\ distinct_keys w = true
                 /\ same_up_to_key_order v w = true.
Proof.
  destruct x as [|a|a|a|xs|ps], y as [|b|b|b|ys|qs]; try discriminate; try (by left).
  apply same_own.
Qed.

Lemma same_member_truthy x y name :
  distinct_keys x = true -> distinct_keys y = true ->
  same_up_to_key_order x y = true ->
  truthy (opt_member (Some x) name) = truthy (opt_member (Some y) name).
Proof.
  intros Hx Hy Hs.
  destruct (same_opt_member x y name Hx Hy Hs)
    as [[-> ->]|(v & w & -> & -> & _ & _ & Hvw)]; [done|by apply same_truthy].
Qed.

Lemma same_effective_result x y :
  distinct_keys x = true -> distinct_keys y = true ->
  same_up_to_key_order x y = true ->
  exists x' y', effective_result (Some x) = Some x' /\ effective_result (Some y) = Some y'
                /\ distinct_keys x' = true /\ distinct_keys y' = true
                /\ same_up_to_key_order x' y' = true.
Proof.
  intros Hx Hy Hs. unfold effective_result.
  rewrite <- (same_truthy _ _ Hs), <- (same_member_truthy _ _ "result" Hx Hy Hs).
  destruct (same_opt_member x y "result" Hx Hy Hs)
    as [[-> ->]|(v & w & -> & -> & Hv & Hw & Hvw)].
  - rewrite andb_false_r. by exists x, y.
  - destruct (truthy (Some x) && truthy (Some v)); [by exists v, w|by exists x, y].
Qed.

Section KeyOrder.

Variable recover : string -> string -> completion string.

(** X13. The verdict of the signature check does not depend on the order in
    which the keys of the result were inserted, at any depth: two results
    that differ only in that order get the same verdict, error and
    recovered address (or both throw), whatever the signature and the
    address. *)
Theorem signature_check_ignores_key_order x y signature signingAddress :
  distinct_keys x = true -> distinct_keys y = true ->
  same_up_to_key_order x y = true ->
  (fun r => (sig_verified r, sig_error r, recoveredAddress r))
    <$> verifyResultSignature recover (Some x) signature signingAddress
  = (fun r => (sig_verified r, sig_error r, recoveredAddress r))
      <$> verifyResultSignature recover (Some y) signature signingAddress.
Proof.
  intros Hx Hy Hs. rewrite !verifyResultSignature_unfold.
  destruct (same_effective_result x y Hx Hy Hs)
    as (x' & y' & -> & -> & Hx' & Hy' & Hs').
  unfold has_metrics.
  rewrite <- (same_member_truthy _ _ "risk_metrics" Hx' Hy' Hs'),
          <- (same_member_truthy _ _ "privacy_budget" Hx' Hy' Hs').
  destruct (truthy (opt_member (Some x') "risk_metrics")
            || truthy (opt_member (Some x') "privacy_budget")); [|done].
  unfold recover_and_compare, canonical_message.
  by rewrite (sortKeysRecursively_order_independent x' y' Hx' Hy' Hs').
Qed.

End KeyOrder.

Lemma signature_check_ignores_key_order_witness :
  (fun r => (sig_verified r, sig_error r, recoveredAddress r))
    <$> verifyResultSignature recover_analytics (Some analytics_result)
          (Some (JStr signature_text)) (Some (JStr signer_address))
  = (fun r => (sig_verified r, sig_error r, recoveredAddress r))
      <$> verifyResultSignature recover_analytics (Some analytics_result_reordered)
            (Some (JStr signature_text)) (Some (JStr signer_address))
  /\ sig_verified
       <$> verifyResultSignature recover_analytics (Some analytics_result_reordered)
             (Some (JStr signature_text)) (Some (JStr signer_address))
     = Normal true.
Proof.
  split; [|vm_compute; reflexivity].
  exact (signature_check_ignores_key_order recover_analytics analytics_result
           analytics_result_reordered (Some (JStr signature_text))
           (Some (JStr signer_address)) eq_refl eq_refl eq_refl).
Defined.

End VerifierExtras.

(** ** More about the orchestrator *)

Module OrchestratorExtras.
Import OrchestratorFacts Fixtures.

Lemma axios_settle_accepts wire r :
  axios_settle analyze_validateStatus wire = inr r ->
  wire = Answered r /\ (http_status r < 500)%N.
Proof.
  destruct wire as [c m|r']; simpl; [discriminate|].
  unfold analyze_validateStatus. destruct (N.ltb_spec (http_status r') 500); [|discriminate].
  by intros [= ->].
Qed.

(** The shape of every run of the retry loop that starts within its bounds:
    some attempts are rejected, each followed by its delay, and one last
    attempt is either accepted or is the fifth. *)
Lemma retry_loop_shape w : forall remaining attempt log,
  0 < remaining -> attempt + remaining = S maxRetries ->
  exists j,
    attempt + j <= maxRetries
    /\ (forall i, attempt <= i < attempt + j -> rejected (analyze w i) = true)
    /\ snd (retry_loop w remaining attempt log)
       = log ++ flat_map (fun i => [AnalyzeAttempt i; Sleep (retry_delay i)]) (seq attempt j)
             ++ [AnalyzeAttempt (attempt + j)]
    /\ ((exists r, fst (retry_loop w remaining attempt log) = inr (Some r)
                   /\ analyze w (attempt + j) = Answered r /\ (http_status r < 500)%N)
        \/ (exists e, fst (retry_loop w remaining attempt log) = inl e
                      /\ attempt + j = maxRetries
                      /\ axios_settle analyze_validateStatus (analyze w maxRetries) = inl e)).
Proof.
  induction remaining as [|remaining IH]; intros attempt log Hpos Hsum; [lia|].
  cbn [retry_loop].
  destruct (axios_settle analyze_validateStatus (analyze w attempt)) as [e|r] eqn:Hsettle.
  - destruct (Nat.ltb_spec attempt maxRetries) as [Hlt|Hge].
    + destruct (IH (S attempt) ((log ++ [AnalyzeAttempt attempt])
                                  ++ [Sleep (retry_delay attempt)]))
        as (j & Hle & Hrej & Hlog & Hend); [lia|lia|].
      exists (S j). split; [lia|]. split.
      { intros i Hi. destruct (decide (i = attempt)) as [->|Hne].
        - unfold rejected. by rewrite Hsettle.
        - apply Hrej. lia. }
      split.
      { rewrite Hlog. cbn [seq flat_map]. rewrite <- !app_assoc. cbn [app].
        by rewrite Nat.add_succ_r. }
      rewrite Nat.add_succ_r. exact Hend.
    + assert (attempt = maxRetries) as -> by lia.
      exists 0. rewrite Nat.add_0_r. split; [lia|]. split; [intros i Hi; lia|].
      split; [done|]. right. by exists e.
  - apply axios_settle_accepts in Hsettle as [Hwire Hstatus].
    exists 0. rewrite Nat.add_0_r. split; [lia|]. split; [intros i Hi; lia|].
    split; [done|]. left. by exists r.
Qed.

Lemma run_job_identity w job :
  job_id (fst (run_job w job)) = job_id job
  /\ createdAt (fst (run_job w job)) = createdAt job
  /\ epsilon (fst (run_job w job)) = epsilon job.
Proof.
  unfold run_job. destruct (tee_url_parses w); cbn [negb]; [|done].
  destruct (retry_loop w maxRetries 1 [HealthProbe]) as [[e|r] log]; simpl; [done|].
  destruct (response_field r "result"); simpl; [done|].
  by destruct (response_field r "attestation").
Qed.

Lemma retry_schedule_delays k :
  k < maxRetries ->
  delays (retry_schedule k) = map (fun i => (2000 * N.of_nat i)%N) (seq 1 k).
Proof.
  unfold maxRetries. intros Hk.
  destruct k as [|[|[|[|[|k]]]]]; try lia; reflexivity.
Qed.

Lemma run_job_schedule w job :
  tee_url_parses w = true ->
  exists k,
    k < maxRetries
    /\ snd (run_job w job) = retry_schedule k
    /\ (forall i, 1 <= i <= k -> rejected (analyze w i) = true)
    /\ ((exists r, fst (retry_loop w maxRetries 1 [HealthProbe]) = inr (Some r)
                   /\ analyze w (S k) = Answered r /\ (http_status r < 500)%N)
        \/ (exists e, fst (retry_loop w maxRetries 1 [HealthProbe]) = inl e
                      /\ S k = maxRetries
                      /\ axios_settle analyze_validateStatus (analyze w maxRetries) = inl e)).
Proof.
  intros Hurl.
  destruct (retry_loop_shape w maxRetries 1 [HealthProbe])
    as (j & Hle & Hrej & Hlog & Hend); [unfold maxRetries; lia|done|].
  exists j. split; [lia|]. split.
  - unfold run_job. rewrite Hurl. cbn [negb].
    destruct (retry_loop w maxRetries 1 [HealthProbe]) as [[e|r] log]; cbn [snd] in *.
    + by rewrite Hlog.
    + destruct (response_field r "result"); cbn [snd]; [by rewrite Hlog|].
      destruct (response_field r "attestation"); cbn [snd]; by rewrite Hlog.
  - split; [intros i Hi; apply Hrej; lia|]. exact Hend.
Qed.

(** X14. [processJob] changes at most the job it was called for: every
    other entry of the job map stays as it was, no entry is added or
    removed, and for an unknown id nothing happens at all, on the map or on
    the network. *)
Theorem processJob_touches_only_its_job w jobId (jobResults : gmap string Job) :
  dom (fst (fst (processJob w jobId jobResults))) = dom jobResults
  /\ (forall other, other <> jobId ->
        fst (fst (processJob w jobId jobResults)) !! other = jobResults !! other)
  /\ (jobResults !! jobId = None ->
        fst (processJob w jobId jobResults) = (jobResults, [])).
Proof.
  unfold processJob. destruct (jobResults !! jobId) as [job|] eqn:Hjob.
  - destruct (run_job w job) as [job' log]. cbn [fst snd]. split.
    + apply dom_insert_lookup_L. by eexists.
    + split; [|done]. intros other Hne. by apply lookup_insert_ne.
  - by cbn [fst snd].
Qed.

Lemma processJob_touches_only_its_job_witness :
  fst (fst (processJob (world_flaky 1) "job-1" two_jobs)) !! "job-0" = Some finished_job
  /\ fst (processJob (world_flaky 1) "job-9" two_jobs) = (two_jobs, []).
Proof.
  destruct (processJob_touches_only_its_job (world_flaky 1) "job-1" two_jobs)
    as (_ & Hother & _).
  destruct (processJob_touches_only_its_job (world_flaky 1) "job-9" two_jobs)
    as (_ & _ & Hunknown).
  split.
  - rewrite (Hother "job-0"); [reflexivity|discriminate].
  - apply Hunknown. reflexivity.
Defined.

(** X15. Whatever the compute service does, [processJob] leaves a known job in a
    terminal state with its id, creation time and epsilon unchanged; a
    failed job has an error and keeps the result it had. *)
Theorem processJob_settles_the_job w jobId (jobResults : gmap string Job) job :
  jobResults !! jobId = Some job ->
  exists job',
    fst (fst (processJob w jobId jobResults)) !! jobId = Some job'
    /\ terminal (status job') = true
    /\ job_id job' = job_id job /\ createdAt job' = createdAt job
    /\ epsilon job' = epsilon job
    /\ (status job' = failed -> is_Some (error job') /\ result job' = result job).
Proof.
  intros Hjob. unfold processJob. rewrite Hjob.
  pose proof (run_job_terminal w job) as Hterminal.
  pose proof (run_job_identity w job) as (Hid & Hcreated & Heps).
  pose proof (failed_job_has_error w job) as Hfailed.
  destruct (run_job w job) as [job' log]. cbn [fst snd] in *.
  exists job'. by rewrite lookup_insert_eq.
Qed.

Lemma processJob_settles_the_job_witness :
  exists job',
    fst (fst (processJob (world_flaky 5) "job-1" two_jobs)) !! "job-1" = Some job'
    /\ terminal (status job') = true
    /\ job_id job' = "job-1" /\ createdAt job' = "2025-01-01T00:00:00.000Z"
    /\ epsilon job' = JNum "1"
    /\ is_Some (error job') /\ result job' = None.
Proof.
  destruct (processJob_settles_the_job (world_flaky 5) "job-1" two_jobs pending_job)
    as (job' & Hlookup & Hterminal & Hid & Hcreated & Heps & Hfailed); [reflexivity|].
  exists job'. repeat (split; [assumption|]). apply Hfailed.
  vm_compute in Hlookup. by injection Hlookup as <-.
Defined.

(** X16. On the network [processJob] probes [/health] once and then makes the
    attempts 1, 2, ..., k+1 for some k below 5: never more than five.
    Attempts 1 to k were rejected, and after rejected attempt i it sleeps
    exactly 2000 * i milliseconds: the cap of 10 seconds is never reached. *)
Theorem processJob_schedule w jobId (jobResults : gmap string Job) job :
  jobResults !! jobId = Some job ->
  tee_url_parses w = true ->
  exists k,
    k < maxRetries
    /\ snd (fst (processJob w jobId jobResults)) = retry_schedule k
    /\ attempts (retry_schedule k) = seq 1 (S k)
    /\ delays (retry_schedule k) = map (fun i => (2000 * N.of_nat i)%N) (seq 1 k)
    /\ (forall i, 1 <= i <= k -> rejected (analyze w i) = true).
Proof.
  intros Hjob Hurl. unfold processJob. rewrite Hjob.
  destruct (run_job_schedule w job Hurl) as (k & Hk & Hlog & Hrej & _).
  destruct (run_job w job) as [job' log]. cbn [fst snd] in *.
  exists k. split; [done|]. split; [done|]. split; [by apply retry_schedule_attempts|].
  split; [by apply retry_schedule_delays|done].
Qed.

Lemma processJob_schedule_witness :
  exists k,
    k < maxRetries
    /\ snd (fst (processJob (world_flaky 2) "job-1" one_job)) = retry_schedule k
    /\ attempts (retry_schedule k) = seq 1 (S k)
    /\ delays (retry_schedule k) = map (fun i => (2000 * N.of_nat i)%N) (seq 1 k)
    /\ (forall i, 1 <= i <= k -> rejected (analyze (world_flaky 2) i) = true).
Proof.
  exact (processJob_schedule (world_flaky 2) "job-1" one_job pending_job eq_refl eq_refl).
Defined.

(** X17. A job is stored as completed only after an answer: the TEE address
    parses, some attempt k+1 (k below 5, attempts 1 to k rejected) was
    answered with a status below 500 and a body that is not [null]; the
    job then holds the [result] and the [attestation] of that body and the
    time of completion, and its error is as before. *)
Theorem completed_job_provenance w jobId (jobResults : gmap string Job) job job' :
  jobResults !! jobId = Some job ->
  fst (fst (processJob w jobId jobResults)) !! jobId = Some job' ->
  status job' = completed ->
  tee_url_parses w = true
  /\ exists k r,
       k < maxRetries
       /\ (forall i, 1 <= i <= k -> rejected (analyze w i) = true)
       /\ analyze w (S k) = Answered r
       /\ (http_status r < 500)%N
       /\ data r <> JNull
       /\ result job' = opt_member (Some (data r)) "result"
       /\ attestation job' = opt_member (Some (data r)) "attestation"
       /\ completedAt job' = Some (clock w)
       /\ error job' = error job.
Proof.
  intros Hjob Hlookup Hstatus. unfold processJob in Hlookup. rewrite Hjob in Hlookup.
  destruct (run_job w job) as [job'' log] eqn:Hrun. cbn [fst] in Hlookup.
  rewrite lookup_insert_eq in Hlookup. injection Hlookup as ->.
  assert (job' = fst (run_job w job)) as Hfst by (by rewrite Hrun).
  clear Hrun. subst job'.
  destruct (tee_url_parses w) eqn:Hurl.
  2:{ unfold run_job in Hstatus. rewrite Hurl in Hstatus. discriminate Hstatus. }
  split; [done|].
  destruct (run_job_schedule w job Hurl) as (k & Hk & _ & Hrej & Hend).
  revert Hstatus. unfold run_job. rewrite Hurl. cbn [negb].
  destruct Hend as [(r & Hr & Hwire & Hcode)|(e & He & _ & _)].
  - destruct (retry_loop w maxRetries 1 [HealthProbe]) as [res log'].
    cbn [fst] in Hr. subst res.
    destruct r as [code body]. destruct body; cbn; try discriminate; intros _;
      eexists k, _; (split; [done|]); (split; [done|]); (split; [exact Hwire|]);
      (split; [done|]); (split; [discriminate|]); done.
  - destruct (retry_loop w maxRetries 1 [HealthProbe]) as [res log'].
    cbn [fst] in He. subst res. discriminate.
Qed.

Lemma completed_job_provenance_witness :
  exists job',
    fst (fst (processJob (world_flaky 1) "job-1" one_job)) !! "job-1" = Some job'
    /\ status job' = completed
    /\ exists k r,
         k < maxRetries
         /\ analyze (world_flaky 1) (S k) = Answered r
         /\ (http_status r < 500)%N
         /\ result job' = opt_member (Some (data r)) "result"
         /\ completedAt job' = Some "2025-01-01T00:00:10.000Z".
Proof.
  eexists. split; [vm_compute; reflexivity|]. split; [reflexivity|].
  destruct (completed_job_provenance (world_flaky 1) "job-1" one_job pending_job _
              eq_refl ltac:(vm_compute; reflexivity) eq_refl)
    as (_ & k & r & Hk & _ & Hwire & Hcode & _ & Hresult & _ & Hat & _).
  exists k, r. repeat (split; [assumption|]). exact Hat.
Defined.

(** X18. When all five attempts are rejected, the error stored on the failed job
    is, for an attempt that got no answer, the message of the transport
    error; for an answer whose body has a non-empty string under [error],
    that string; for an answer with a falsy body, the message
    [Request failed with status code ...]. *)
Theorem failed_job_error_text w jobId (jobResults : gmap string Job) job :
  jobResults !! jobId = Some job ->
  tee_url_parses w = true ->
  (forall i, 1 <= i <= maxRetries -> rejected (analyze w i) = true) ->
  exists job',
    fst (fst (processJob w jobId jobResults)) !! jobId = Some job'
    /\ status job' = failed
    /\ match analyze w maxRetries with
       | NoAnswer _ text => error job' = Some text
       | Answered r =>
           (forall text, opt_member (Some (data r)) "error" = Some (JStr text) ->
                         text <> "" -> error job' = Some text)
           /\ (truthy (Some (data r)) = false ->
               error job' = Some ("Request failed with status code "
                                  +:+ decimal (N.to_nat (http_status r))))
       end.
Proof.
  intros Hjob Hurl Hrej. unfold processJob, run_job. rewrite Hjob, Hurl. cbn [negb].
  destruct (retry_loop_exhausted w maxRetries 1 [HealthProbe]) as (e & -> & Hsettle);
    [done|unfold maxRetries; lia|done|].
  cbn [fst snd]. rewrite lookup_insert_eq. eexists. split; [reflexivity|].
  split; [reflexivity|].
  destruct (analyze w maxRetries) as [c text|r]; cbn in Hsettle.
  - injection Hsettle as <-. reflexivity.
  - destruct (analyze_validateStatus (http_status r)); [discriminate Hsettle|].
    injection Hsettle as <-. cbn [fail_job error with_error response message fmap option_fmap
                                  option_map]. split.
    + intros text Herr Hne. rewrite Herr.
      assert (truthy (Some (JStr text)) = true) as Htext
        by (cbn; by destruct (String.eqb_spec text "")).
      unfold js_or. rewrite Htext. cbv iota. by rewrite Htext.
    + intros Hfalsy.
      assert (opt_member (Some (data r)) "error" = None) as ->
        by (by destruct (data r)).
      unfold js_or. change (truthy None) with false. cbv iota. by rewrite Hfalsy.
Qed.

Lemma failed_job_error_text_witness :
  (exists job',
     fst (fst (processJob (world_flaky 5) "job-1" one_job)) !! "job-1" = Some job'
     /\ status job' = failed /\ error job' = Some "socket hang up")
  /\ (exists job',
        fst (fst (processJob world_unavailable "job-1" one_job)) !! "job-1" = Some job'
        /\ status job' = failed /\ error job' = Some "enclave is starting").
Proof.
  split.
  - destruct (failed_job_error_text (world_flaky 5) "job-1" one_job pending_job eq_refl eq_refl)
      as (job' & Hlookup & Hstatus & Herror).
    { intros i Hi. unfold maxRetries in Hi.
      destruct i as [|[|[|[|[|[|i]]]]]]; try lia; reflexivity. }
    exists job'. split; [exact Hlookup|]. split; [exact Hstatus|exact Herror].
  - destruct (failed_job_error_text world_unavailable "job-1" one_job pending_job
                eq_refl eq_refl)
      as (job' & Hlookup & Hstatus & Herror & _).
    { intros i Hi. reflexivity. }
    exists job'. split; [exact Hlookup|]. split; [exact Hstatus|].
    apply Herror; [reflexivity|discriminate].
Defined.

Lemma exhausted_retries_fail_witness :
  exists job' log,
    processJob world_unavailable "job-1" two_jobs = (<["job-1" := job']> two_jobs, log, Normal tt)
    /\ status job' = failed /\ is_Some (error job') /\ result job' = None
    /\ attempts log = [1; 2; 3; 4; 5]
    /\ delays log = [2000; 4000; 6000; 8000]%N.
Proof.
  exact (exhausted_retries_fail world_unavailable "job-1" two_jobs pending_job eq_refl eq_refl
           (fun i _ => eq_refl)).
Defined.

End OrchestratorExtras.

(** ** The routes and the page *)

Module RouteExtras.
Import VerifierFacts VerifierExtras OrchestratorFacts OrchestratorExtras Fixtures.

Lemma destructure_member body name :
  body <> None -> body <> Some JNull ->
  destructure body name = Normal (opt_member body name).
Proof. by destruct body as [[]|]. Qed.

Lemma verify_request_body_fields attestation result :
  let body := Some (verify_request_body attestation result) in
  opt_member body "attestation" = Some attestation
  /\ opt_member body "result" = Some result
  /\ opt_member body "requestNonce"
     = js_or (opt_member (Some attestation) "nonce")
             (opt_member (Some attestation) "request_nonce").
Proof.
  intros body. unfold body, verify_request_body.
  destruct (js_or (opt_member (Some attestation) "nonce")
                  (opt_member (Some attestation) "request_nonce"));
    split; try reflexivity; split; reflexivity.
Qed.

Section WithServices.
Variable phala : value -> completion json.
Variable recover : string -> string -> completion string.

Lemma verifyAttestation_total attestation result requestNonce :
  truthy attestation = true ->
  textual (opt_member attestation "signature") = true ->
  exists r, verifyAttestation phala recover attestation result requestNonce = Normal r.
Proof.
  destruct attestation as [[| b | t | s | items | bundle]|]; cbn [truthy];
    try discriminate; intros Htruthy Htext; try (eexists; reflexivity).
  by apply verifyAttestation_returns.
Qed.

(** What an overall verdict of true rests on. *)
Lemma overall_evidence attestation result requestNonce r :
  verifyAttestation phala recover attestation result requestNonce = Normal r ->
  overall r = true ->
  (exists analytics sig expected recovered,
     effective_result result = Some analytics
     /\ has_metrics (Some analytics) = true
     /\ opt_member attestation "signature" = Some (JStr sig)
     /\ String.length (ensure_0x sig) = 132
     /\ recover (canonical_message analytics) (ensure_0x sig) = Normal recovered
     /\ opt_member attestation "signing_address" = Some (JStr expected)
     /\ toLowerCase recovered = toLowerCase expected)
  /\ (truthy (opt_member attestation "intel_quote") = true ->
      exists data,
        phala (opt_member attestation "intel_quote") = Normal data
        /\ opt_member (opt_member (Some data) "quote") "verified" = Some (JBool true)).
Proof.
  intros Hrun Hoverall.
  apply verifyAttestation_fields in Hrun as (Htdx & _ & Hsig & Hov).
  rewrite Hoverall in Hov. symmetry in Hov. apply andb_prop in Hov as [Hsv Hq]. split.
  - destruct (truthy (opt_member attestation "signature")
              && truthy (opt_member attestation "signing_address") && truthy result).
    + eapply verified_signature_inv; eauto.
    + injection Hsig as Hsig. rewrite <- Hsig in Hsv. discriminate Hsv.
  - intros Hquote. rewrite Hquote in Hq, Htdx. cbn [negb] in Hq. rewrite orb_false_r in Hq.
    rewrite Htdx in Hq. apply tdx_verified_inv in Hq as (_ & data & Hd & Hv).
    exists data. split; [done|].
    by destruct (opt_member (opt_member (Some data) "quote") "verified") as [[|[]| | | |]|].
Qed.

(** The four ways in which [POST /api/verify] answers. *)
Lemma api_verify_cases body :
  let attestation := opt_member body "attestation" in
  let result := opt_member body "result" in
  let nonce := js_or (opt_member body "requestNonce") (opt_member attestation "nonce") in
  ((body = None \/ body = Some JNull)
   /\ exists m, api_verify phala recover body = verify_failure 500 m)
  \/ (body <> None /\ body <> Some JNull
      /\ (truthy attestation = false \/ truthy result = false)
      /\ api_verify phala recover body = verify_failure 400 "Missing attestation or result")
  \/ (body <> None /\ body <> Some JNull
      /\ truthy attestation = true /\ truthy result = true
      /\ textual (opt_member attestation "signature") = false
      /\ exists m, api_verify phala recover body = verify_failure 500 m)
  \/ (body <> None /\ body <> Some JNull
      /\ truthy attestation = true /\ truthy result = true
      /\ textual (opt_member attestation "signature") = true
      /\ exists r,
           verifyAttestation phala recover attestation result nonce = Normal r
           /\ api_verify phala recover body
              = {| verify_status := 200;
                   verify_verified := Some (overall r);
                   verify_details := Some r;
                   verify_message :=
                     Some (if overall r then "Attestation verified successfully"
                           else "Attestation verification failed - see details");
                   verify_error := None |}).
Proof.
  intros attestation result nonce.
  assert ((body = None \/ body = Some JNull) \/ (body <> None /\ body <> Some JNull))
    as [Hnull|[Hsome Hnn]] by (destruct body as [[]|]; auto; right; by split).
  { left. split; [done|]. destruct Hnull as [-> | ->]; by eexists. }
  right. unfold api_verify. rewrite !(destructure_member _ _ Hsome Hnn).
  cbn [mbind completion_bind Completion.bind]. fold attestation result.
  destruct (truthy attestation) eqn:Hatt; cbn [negb orb]; [|left; auto].
  destruct (truthy result) eqn:Hres; cbn [negb]; [|left; auto].
  right. rewrite !(member_of_truthy _ _ Hatt).
  cbn [mbind completion_bind Completion.bind].
  assert ((if truthy (opt_member body "requestNonce")
           then Normal (opt_member body "requestNonce")
           else Normal (opt_member attestation "nonce")) = Normal nonce) as Hnonce.
  { unfold nonce, js_or. by destruct (truthy (opt_member body "requestNonce")). }
  destruct (textual (opt_member attestation "signature")) eqn:Htext.
  - right. repeat (split; [done|]).
    destruct (verifyAttestation_total attestation result nonce Hatt Htext) as [r Hr].
    exists r. split; [done|].
    assert (exists logged,
              optional_string_receiver (opt_member attestation "signature")
                "attestation?.signature" "substring" = Normal logged) as [logged ->].
    { destruct (opt_member attestation "signature") as [[]|]; try discriminate Htext;
        by eexists. }
    cbn [mbind completion_bind Completion.bind]. rewrite Hnonce.
    cbn [mbind completion_bind Completion.bind]. by rewrite Hr.
  - left. repeat (split; [done|]).
    destruct (opt_member attestation "signature") as [[]|]; try discriminate Htext;
      by eexists.
Qed.

(** X20. [POST /api/verify] answers 400 exactly when the body is there and
    the attestation or the result is missing or falsy; 500 exactly when the
    body is [undefined] or [null], or attestation and result are there but
    the signature is neither a string nor nullish (the debug log throws);
    and 200 exactly when attestation and result are truthy and the
    signature is a string or nullish.  There is no other status.  A 200
    answer carries the overall verdict and the details of
    [verifyAttestation] for the request nonce or, when that is missing,
    the nonce of the attestation, with the message that goes with the
    verdict; every other answer carries an error and no verdict. *)
Theorem verify_route_answers body :
  let attestation := opt_member body "attestation" in
  let result := opt_member body "result" in
  let signature := opt_member attestation "signature" in
  let nonce := js_or (opt_member body "requestNonce") (opt_member attestation "nonce") in
  let answer := api_verify phala recover body in
  let nullish := body = None \/ body = Some JNull in
  (verify_status answer = 400%N
   <-> ~ nullish /\ (truthy attestation = false \/ truthy result = false))
  /\ (verify_status answer = 500%N
      <-> nullish
          \/ (truthy attestation = true /\ truthy result = true
              /\ textual signature = false))
  /\ (verify_status answer = 200%N
      <-> ~ nullish /\ truthy attestation = true /\ truthy result = true
          /\ textual signature = true)
  /\ (verify_status answer = 200%N \/ verify_status answer = 400%N
      \/ verify_status answer = 500%N)
  /\ (verify_status answer = 200%N ->
      exists r,
        verifyAttestation phala recover attestation result nonce = Normal r
        /\ answer
           = {| verify_status := 200;
                verify_verified := Some (overall r);
                verify_details := Some r;
                verify_message :=
                  Some (if overall r then "Attestation verified successfully"
                        else "Attestation verification failed - see details");
                verify_error := None |})
  /\ (verify_status answer <> 200%N ->
      verify_verified answer = None /\ verify_details answer = None
      /\ is_Some (verify_error answer)).
Proof.
  cbv zeta.
  pose proof (api_verify_cases body) as Hcases. cbv zeta in Hcases.
  destruct Hcases
    as [(Hb & m & Heq)
       |[(Hs & Hn & Hfalsy & Heq)
        |[(Hs & Hn & Ha & Hr & Ht & m & Heq)
         |(Hs & Hn & Ha & Hr & Ht & r & Hrun & Heq)]]];
    rewrite Heq;
    cbn [verify_status verify_verified verify_details verify_error verify_failure].
  - split_and!.
    + split; [discriminate|]. intros [Hsome _]. by destruct Hsome.
    + split; [by left|done].
    + split; [discriminate|]. intros [Hsome _]. by destruct Hsome.
    + by right; right.
    + discriminate.
    + intros _. split; [done|]. split; [done|by eexists].
  - split_and!.
    + split; [intros _; split; [by intros [?|?]|done]|done].
    + split; [discriminate|]. intros [[?|?]|(? & ? & _)]; [done|done|].
      destruct Hfalsy; congruence.
    + split; [discriminate|]. intros (_ & ? & ? & _). destruct Hfalsy; congruence.
    + by right; left.
    + discriminate.
    + intros _. split; [done|]. split; [done|by eexists].
  - split_and!.
    + split; [discriminate|]. intros [_ [?|?]]; congruence.
    + split; [intros _; by right|done].
    + split; [discriminate|]. intros (_ & _ & _ & ?). congruence.
    + by right; right.
    + discriminate.
    + intros _. split; [done|]. split; [done|by eexists].
  - split_and!.
    + split; [discriminate|]. intros [_ [?|?]]; congruence.
    + split; [discriminate|]. intros [[?|?]|(_ & _ & ?)]; [done|done|congruence].
    + split; [|done]. intros _. split; [by intros [?|?]|done].
    + by left.
    + intros _. by exists r.
    + done.
Qed.

(** X21. A verdict of true from [POST /api/verify] rests on evidence: the
    signature in the attestation is a 65-byte hexadecimal string from which
    recovery over the canonical message of the result gives the signing
    address, and a quote, if the attestation carries one, was verified by
    the verification service. *)
Theorem verify_route_sound body :
  verify_verified (api_verify phala recover body) = Some true ->
  let attestation := opt_member body "attestation" in
  (exists analytics sig expected recovered,
     effective_result (opt_member body "result") = Some analytics
     /\ has_metrics (Some analytics) = true
     /\ opt_member attestation "signature" = Some (JStr sig)
     /\ String.length (ensure_0x sig) = 132
     /\ recover (canonical_message analytics) (ensure_0x sig) = Normal recovered
     /\ opt_member attestation "signing_address" = Some (JStr expected)
     /\ toLowerCase recovered = toLowerCase expected)
  /\ (truthy (opt_member attestation "intel_quote") = true ->
      exists data,
        phala (opt_member attestation "intel_quote") = Normal data
        /\ opt_member (opt_member (Some data) "quote") "verified" = Some (JBool true)).
Proof.
  intros Hverified. cbv zeta.
  pose proof (api_verify_cases body) as Hcases. cbv zeta in Hcases.
  destruct Hcases
    as [(_ & m & Heq)
       |[(_ & _ & _ & Heq)
        |[(_ & _ & _ & _ & _ & m & Heq)
         |(_ & _ & _ & _ & _ & r & Hrun & Heq)]]];
    rewrite Heq in Hverified; try discriminate Hverified.
  injection Hverified as Hoverall. exact (overall_evidence _ _ _ _ Hrun Hoverall).
Qed.

(** X22. The page asks the server only for a job that has an attestation and a
    result, and the nonce the server then checks is taken from the
    attestation itself ([nonce], else [request_nonce]).  The page shows
    the attestation as verified only when the server's overall verdict for
    that attestation, result and nonce is true. *)
Theorem page_verdict jobResult :
  let attestation := opt_member jobResult "attestation" in
  let result := opt_member jobResult "result" in
  let sent := js_or (opt_member attestation "nonce") (opt_member attestation "request_nonce") in
  let nonce := js_or sent (opt_member attestation "nonce") in
  (handleVerifyAttestation phala recover jobResult = None
   <-> truthy attestation = false \/ truthy result = false)
  /\ (handleVerifyAttestation phala recover jobResult = Some true
      <-> truthy attestation = true /\ truthy result = true
          /\ exists r, verifyAttestation phala recover attestation result nonce = Normal r
                       /\ overall r = true).
Proof.
  cbv zeta. unfold handleVerifyAttestation.
  destruct (opt_member jobResult "attestation") as [att|] eqn:Hatt.
  2:{ split; [by split; [left|]|]. split; [done|by intros [? _]]. }
  destruct (opt_member jobResult "result") as [res|] eqn:Hres.
  2:{ split; [by split; [right|]|]. split; [done|by intros (_ & ? & _)]. }
  destruct (truthy (Some att)) eqn:Ha; cbn [negb orb].
  2:{ split; [by split; [left|]|]. split; [done|by intros [? _]]. }
  destruct (truthy (Some res)) eqn:Hr; cbn [negb].
  2:{ split; [by split; [right|]|]. split; [done|by intros (_ & ? & _)]. }
  destruct (verify_request_body_fields att res) as (Hfa & Hfr & Hfn).
  pose proof (api_verify_cases (Some (verify_request_body att res))) as Hcases.
  cbv zeta in Hcases.
  destruct Hcases
    as [([Hb|Hb] & _)
       |[(_ & _ & Hfalsy & _)
        |[(_ & _ & _ & _ & Ht & m & Heq)
         |(_ & _ & _ & _ & Ht & r & Hrun & Heq)]]];
    try discriminate Hb.
  - rewrite Hfa, Hfr in Hfalsy. destruct Hfalsy; congruence.
  - rewrite Heq. cbn [verify_status verify_failure].
    change (500 =? 200)%N with false. cbv iota. rewrite Hfa in Ht. split.
    + split; [done|intros [?|?]; done].
    + split; [done|]. intros (_ & _ & r & Hrun & Hov).
      destruct (overall_evidence _ _ _ _ Hrun Hov)
        as [(analytics & sig & expected & recovered & _ & _ & Hsig & _) _].
      rewrite Hsig in Ht. discriminate Ht.
  - rewrite Heq. cbn [verify_status verify_verified default].
    change (200 =? 200)%N with true. cbv iota. rewrite Hfa, Hfr, Hfn in Hrun. split.
    + split; [done|intros [?|?]; done].
    + split.
      * intros [= Hov]. split; [done|]. split; [done|]. by exists r.
      * intros (_ & _ & r' & Hrun' & Hov'). rewrite Hrun in Hrun'.
        injection Hrun' as ->. by rewrite Hov'.
Qed.

End WithServices.

Lemma verify_route_answers_witness :
  verify_status (api_verify service_accepts recover_analytics (Some verify_body)) = 200%N
  /\ verify_status (api_verify service_accepts recover_analytics
                      (Some verify_body_numeric_signature)) = 500%N
  /\ verify_status (api_verify service_accepts recover_analytics (Some (JObj []))) = 400%N.
Proof.
  split; [|split].
  - pose proof (verify_route_answers service_accepts recover_analytics (Some verify_body))
      as Hanswers.
    cbv zeta in Hanswers. destruct Hanswers as (_ & _ & Hok & _).
    apply Hok. split; [by intros [?|?]|]. split; [reflexivity|]. split; reflexivity.
  - pose proof (verify_route_answers service_accepts recover_analytics
                  (Some verify_body_numeric_signature)) as Hanswers.
    cbv zeta in Hanswers. destruct Hanswers as (_ & Hfails & _).
    apply Hfails. right. split; [reflexivity|]. split; reflexivity.
  - pose proof (verify_route_answers service_accepts recover_analytics (Some (JObj [])))
      as Hanswers.
    cbv zeta in Hanswers. destruct Hanswers as (Hmissing & _).
    apply Hmissing. split; [by intros [?|?]|]. by left.
Defined.

Lemma verify_route_sound_witness :
  verify_verified (api_verify service_accepts recover_analytics (Some verify_body)) = Some true
  /\ exists analytics sig expected recovered,
       effective_result (opt_member (Some verify_body) "result") = Some analytics
       /\ has_metrics (Some analytics) = true
       /\ opt_member (opt_member (Some verify_body) "attestation") "signature"
          = Some (JStr sig)
       /\ String.length (ensure_0x sig) = 132
       /\ recover_analytics (canonical_message analytics) (ensure_0x sig) = Normal recovered
       /\ opt_member (opt_member (Some verify_body) "attestation") "signing_address"
          = Some (JStr expected)
       /\ toLowerCase recovered = toLowerCase expected.
Proof.
  assert (verify_verified (api_verify service_accepts recover_analytics (Some verify_body))
          = Some true) as Hverified by (vm_compute; reflexivity).
  split; [exact Hverified|].
  exact (proj1 (verify_route_sound service_accepts recover_analytics (Some verify_body)
                  Hverified)).
Defined.

Section WithEncryption.
Variable encryptDataForTEE : json -> completion (string * string).

Lemma submit_accepted w fresh_id data epsilon (jobResults : gmap string Job) :
  truthy data = true ->
  let job := {| job_id := fresh_id; status := pending; createdAt := clock w;
                epsilon := default (JNum "1") (js_or epsilon (Some (JNum "1")));
                result := None; attestation := None; completedAt := None;
                error := None |} in
  submit w fresh_id data epsilon jobResults
  = (200%N, <[fresh_id := fst (run_job w job)]> jobResults, snd (run_job w job)).
Proof.
  intros Hdata job. unfold submit. rewrite Hdata. cbn [negb].
  unfold processJob. rewrite lookup_insert_eq. fold job.
  destruct (run_job w job) as [job' log]. cbn [fst snd]. by rewrite insert_insert_eq.
Qed.

(** The ways in which [POST /api/submit] answers. *)
Lemma api_submit_cases w fresh_id body (jobResults : gmap string Job) :
  let data := opt_member body "data" in
  let epsilon := opt_member body "epsilon" in
  let answer := api_submit encryptDataForTEE w fresh_id body jobResults in
  ((body = None \/ body = Some JNull) /\ answer = (500%N, jobResults, []))
  \/ (body <> None /\ body <> Some JNull /\ truthy data = false
      /\ answer = (400%N, jobResults, []))
  \/ (body <> None /\ body <> Some JNull /\ truthy data = true
      /\ exists records,
           data = Some records
           /\ ((log_line_returns records epsilon
                && is_normal (encryptDataForTEE records) = false
                /\ answer = (500%N, jobResults, []))
               \/ (log_line_returns records epsilon = true
                   /\ is_normal (encryptDataForTEE records) = true
                   /\ answer = submit w fresh_id data epsilon jobResults))).
Proof.
  cbv zeta.
  assert ((body = None \/ body = Some JNull) \/ (body <> None /\ body <> Some JNull))
    as [Hnull|[Hsome Hnn]] by (destruct body as [[]|]; auto; right; by split).
  { left. split; [done|]. by destruct Hnull as [-> | ->]. }
  right. unfold api_submit. rewrite !(destructure_member _ _ Hsome Hnn).
  cbn [mbind completion_bind Completion.bind].
  destruct (truthy (opt_member body "data")) eqn:Hdata.
  - right. repeat (split; [done|]).
    destruct (opt_member body "data") as [records|] eqn:Hrecords; [|discriminate Hdata].
    exists records. split; [done|].
    destruct (log_line_returns records (opt_member body "epsilon")); [|by left].
    destruct (encryptDataForTEE records) as [pair|m]; [right|left]; by repeat split.
  - left. repeat (split; [done|]). cbn [mbind completion_bind Completion.bind].
    unfold submit. by rewrite Hdata.
Qed.

(** X23. [POST /api/submit] answers 400 exactly when the body is there and
    [data] is missing or falsy; 500 exactly when the body is [undefined] or
    [null], or [data] is truthy and the log line or the encryption throws;
    and 200 exactly when [data] is truthy and both return.  There is no
    other status.  A submission that is not accepted leaves the job map as
    it was and reaches no network. *)
Theorem submit_route_answers w fresh_id body (jobResults : gmap string Job) :
  let data := opt_member body "data" in
  let epsilon := opt_member body "epsilon" in
  let answer := api_submit encryptDataForTEE w fresh_id body jobResults in
  let nullish := body = None \/ body = Some JNull in
  (fst (fst answer) = 400%N <-> ~ nullish /\ truthy data = false)
  /\ (fst (fst answer) = 500%N
      <-> nullish
          \/ exists records,
               data = Some records /\ truthy data = true
               /\ (log_line_returns records epsilon = false
                   \/ is_normal (encryptDataForTEE records) = false))
  /\ (fst (fst answer) = 200%N
      <-> exists records,
            ~ nullish /\ data = Some records /\ truthy data = true
            /\ log_line_returns records epsilon = true
            /\ is_normal (encryptDataForTEE records) = true)
  /\ (fst (fst answer) = 200%N \/ fst (fst answer) = 400%N \/ fst (fst answer) = 500%N)
  /\ (fst (fst answer) <> 200%N -> answer = (fst (fst answer), jobResults, [])).
Proof.
  cbv zeta.
  pose proof (api_submit_cases w fresh_id body jobResults) as Hcases. cbv zeta in Hcases.
  destruct Hcases
    as [(Hb & Heq)
       |[(Hs & Hn & Hfalsy & Heq)
        |(Hs & Hn & Hdata & records & Hrecords & [[Hthrows Heq]|(Hlog & Henc & Heq)])]];
    rewrite Heq; try rewrite (submit_accepted _ _ _ _ _ Hdata); cbn [fst snd].
  - split_and!.
    + split; [discriminate|]. intros [Hsome _]. by destruct Hsome.
    + split; [by left|done].
    + split; [discriminate|]. intros (r & Hsome & _). by destruct Hsome.
    + by right; right.
    + done.
  - split_and!.
    + split; [intros _; split; [by intros [?|?]|done]|done].
    + split; [discriminate|]. intros [[?|?]|(r & _ & ? & _)]; [done|done|congruence].
    + split; [discriminate|]. intros (r & _ & _ & ? & _). congruence.
    + by right; left.
    + done.
  - apply andb_false_iff in Hthrows. split_and!.
    + split; [discriminate|]. intros [_ ?]. congruence.
    + split; [|done]. intros _. right. by exists records.
    + split; [discriminate|]. intros (r & _ & Hr & _ & Hl & He).
      assert (r = records) as -> by congruence. destruct Hthrows; congruence.
    + by right; right.
    + done.
  - split_and!.
    + split; [discriminate|]. intros [_ ?]. congruence.
    + split; [discriminate|]. intros [[?|?]|(r & Hr & _ & Hbad)]; [done|done|].
      assert (r = records) as -> by congruence. destruct Hbad; congruence.
    + split; [|done]. intros _. exists records. split; [by intros [?|?]|done].
    + by left.
    + done.
Qed.

(** X24. An accepted submission stores a job under the id it drew, with that
    id, the time of submission and the epsilon of the request (1 when the
    request has none); the job ends in a terminal state, the status route
    finds it, and every job under another id is as it was. *)
Theorem accepted_submission_is_stored w fresh_id body (jobResults : gmap string Job) :
  fst (fst (api_submit encryptDataForTEE w fresh_id body jobResults)) = 200%N ->
  let jobResults' := snd (fst (api_submit encryptDataForTEE w fresh_id body jobResults)) in
  exists job,
    api_job jobResults' fresh_id = (200%N, Some job)
    /\ job_id job = fresh_id
    /\ createdAt job = clock w
    /\ epsilon job = default (JNum "1") (js_or (opt_member body "epsilon") (Some (JNum "1")))
    /\ terminal (status job) = true
    /\ (status job = failed -> is_Some (error job) /\ result job = None)
    /\ forall other, other <> fresh_id -> jobResults' !! other = jobResults !! other.
Proof.
  cbv zeta.
  pose proof (api_submit_cases w fresh_id body jobResults) as Hcases. cbv zeta in Hcases.
  destruct Hcases
    as [(Hb & Heq)
       |[(Hs & Hn & Hfalsy & Heq)
        |(Hs & Hn & Hdata & records & Hrecords & [[Hthrows Heq]|(Hlog & Henc & Heq)])]];
    rewrite Heq; try discriminate.
  rewrite (submit_accepted _ _ _ _ _ Hdata). cbn [fst snd]. intros _.
  match goal with
  | |- context [run_job w ?j] => set (job := j)
  end.
  pose proof (run_job_terminal w job) as Hterminal.
  pose proof (run_job_identity w job) as (Hid & Hcreated & Heps).
  pose proof (failed_job_has_error w job) as Hfailed.
  exists (fst (run_job w job)). unfold api_job. rewrite lookup_insert_eq.
  repeat (split; [done|]). intros other Hne. by apply lookup_insert_ne.
Qed.

End WithEncryption.

Lemma submit_route_answers_witness :
  fst (fst (api_submit encrypt_ok (world_flaky 1) "job-2" (Some submit_body) two_jobs))
  = 200%N
  /\ fst (fst (api_submit encrypt_ok (world_flaky 1) "job-2"
                 (Some submit_body_epsilon_object) two_jobs)) = 500%N
  /\ api_submit encrypt_ok (world_flaky 1) "job-2" (Some submit_body_length_object) two_jobs
     = (500%N, two_jobs, [])
  /\ fst (fst (api_submit encrypt_fails (world_flaky 1) "job-2" (Some submit_body) two_jobs))
     = 500%N.
Proof.
  split; [|split; [|split]].
  - pose proof (submit_route_answers encrypt_ok (world_flaky 1) "job-2" (Some submit_body)
                  two_jobs) as Hanswers.
    cbv zeta in Hanswers. destruct Hanswers as (_ & _ & Hok & _).
    apply Hok. exists records. split; [by intros [?|?]|]. repeat split; reflexivity.
  - pose proof (submit_route_answers encrypt_ok (world_flaky 1) "job-2"
                  (Some submit_body_epsilon_object) two_jobs) as Hanswers.
    cbv zeta in Hanswers. destruct Hanswers as (_ & Hfails & _).
    apply Hfails. right. exists records. split; [reflexivity|]. split; [reflexivity|].
    by left.
  - pose proof (submit_route_answers encrypt_ok (world_flaky 1) "job-2"
                  (Some submit_body_length_object) two_jobs) as Hanswers.
    cbv zeta in Hanswers. destruct Hanswers as (_ & Hfails & _ & _ & Hunchanged).
    assert (fst (fst (api_submit encrypt_ok (world_flaky 1) "job-2"
                        (Some submit_body_length_object) two_jobs)) = 500%N) as Hstatus.
    { apply Hfails. right. eexists. split; [reflexivity|]. split; [reflexivity|]. by left. }
    rewrite Hunchanged; [by rewrite Hstatus|]. by rewrite Hstatus.
  - pose proof (submit_route_answers encrypt_fails (world_flaky 1) "job-2" (Some submit_body)
                  two_jobs) as Hanswers.
    cbv zeta in Hanswers. destruct Hanswers as (_ & Hfails & _).
    apply Hfails. right. exists records. split; [reflexivity|]. split; [reflexivity|].
    by right.
Defined.

Lemma accepted_submission_is_stored_witness :
  exists job,
    api_job (snd (fst (api_submit encrypt_ok (world_flaky 1) "job-2" (Some submit_body)
                         two_jobs))) "job-2"
    = (200%N, Some job)
    /\ job_id job = "job-2" /\ epsilon job = JNum "1" /\ status job = completed
    /\ snd (fst (api_submit encrypt_ok (world_flaky 1) "job-2" (Some submit_body) two_jobs))
       !! "job-0" = Some finished_job.
Proof.
  destruct (accepted_submission_is_stored encrypt_ok (world_flaky 1) "job-2"
              (Some submit_body) two_jobs eq_refl)
    as (job & Hjob & Hid & _ & Heps & _ & _ & Hother).
  exists job. split; [exact Hjob|]. split; [exact Hid|]. split; [exact Heps|]. split.
  - vm_compute in Hjob. by injection Hjob as <-.
  - rewrite (Hother "job-0"); [reflexivity|discriminate].
Defined.

End RouteExtras.

(** ** The key text *)

Module EncryptionExtras.
Import Fixtures.

Lemma sextet_bounds a b c :
  (a < 256)%N -> (b < 256)%N -> (c < 256)%N ->
  (a / 4 < 64 /\ (a mod 4) * 16 + b / 16 < 64 /\ (b mod 16) * 4 + c / 64 < 64
   /\ c mod 64 < 64 /\ (a mod 4) * 16 < 64 /\ (b mod 16) * 4 < 64)%N.
Proof.
  intros Ha Hb Hc.
  assert (a / 4 < 64)%N by (apply N.Div0.div_lt_upper_bound; lia).
  assert (b / 16 < 16)%N by (apply N.Div0.div_lt_upper_bound; lia).
  assert (c / 64 < 4)%N by (apply N.Div0.div_lt_upper_bound; lia).
  assert (a mod 4 < 4)%N by (apply N.mod_lt; lia).
  assert (b mod 16 < 16)%N by (apply N.mod_lt; lia).
  assert (c mod 64 < 64)%N by (apply N.mod_lt; lia).
  lia.
Qed.

(** The three replacements turn a base64 digit into the digit of the
    URL-safe alphabet with the same value. *)
Lemma replace_digit n rest :
  (n < 64)%N ->
  replace_all "=" "" (replace_all "/" "_" (replace_all "+" "-" (String (base64_digit n) rest)))
  = String (base64url_digit n)
      (replace_all "=" "" (replace_all "/" "_" (replace_all "+" "-" rest))).
Proof.
  intros Hn. destruct n as [|p]; [reflexivity|].
  repeat (destruct p as [p|p|]; try lia; try reflexivity).
Qed.

Lemma url_safe_digit n : (n < 64)%N -> url_safe (base64url_digit n) = true.
Proof.
  intros Hn. destruct n as [|p]; [reflexivity|].
  repeat (destruct p as [p|p|]; try lia; try reflexivity).
Qed.

Lemma keyBase64_unpadded : forall n bytes,
  length bytes <= n -> Forall (fun b => (b < 256)%N) bytes ->
  keyBase64 bytes = base64url_unpadded bytes.
Proof.
  unfold keyBase64.
  induction n as [|n IH]; intros bytes Hlen Hbytes.
  { destruct bytes; [reflexivity|simpl in Hlen; lia]. }
  destruct bytes as [|a [|b [|c rest]]]; [reflexivity| | |].
  - apply Forall_cons in Hbytes as [Ha _].
    destruct (sextet_bounds a 0 0 Ha) as (? & _ & _ & _ & ? & _); [lia|lia|].
    cbn [base64 base64url_unpadded]. by rewrite !replace_digit.
  - apply Forall_cons in Hbytes as [Ha Hbytes]. apply Forall_cons in Hbytes as [Hb _].
    destruct (sextet_bounds a b 0 Ha Hb) as (? & ? & _ & _ & _ & ?); [lia|].
    cbn [base64 base64url_unpadded]. by rewrite !replace_digit.
  - apply Forall_cons in Hbytes as [Ha Hbytes]. apply Forall_cons in Hbytes as [Hb Hbytes].
    apply Forall_cons in Hbytes as [Hc Hrest].
    destruct (sextet_bounds a b c Ha Hb Hc) as (? & ? & ? & ? & _ & _).
    cbn [base64 base64url_unpadded]. rewrite !replace_digit by done.
    rewrite IH; [done| |done]. simpl in Hlen. lia.
Qed.

Lemma base64url_unpadded_safe : forall n bytes,
  length bytes <= n -> Forall (fun b => (b < 256)%N) bytes ->
  Forall (fun c => url_safe c = true) (list_ascii_of_string (base64url_unpadded bytes)).
Proof.
  induction n as [|n IH]; intros bytes Hlen Hbytes.
  { destruct bytes; [constructor|simpl in Hlen; lia]. }
  destruct bytes as [|a [|b [|c rest]]]; [constructor| | |].
  - apply Forall_cons in Hbytes as [Ha _].
    destruct (sextet_bounds a 0 0 Ha) as (? & _ & _ & _ & ? & _); [lia|lia|].
    cbn [base64url_unpadded list_ascii_of_string].
    repeat (constructor; [by apply url_safe_digit|]). constructor.
  - apply Forall_cons in Hbytes as [Ha Hbytes]. apply Forall_cons in Hbytes as [Hb _].
    destruct (sextet_bounds a b 0 Ha Hb) as (? & ? & _ & _ & _ & ?); [lia|].
    cbn [base64url_unpadded list_ascii_of_string].
    repeat (constructor; [by apply url_safe_digit|]). constructor.
  - apply Forall_cons in Hbytes as [Ha Hbytes]. apply Forall_cons in Hbytes as [Hb Hbytes].
    apply Forall_cons in Hbytes as [Hc Hrest].
    destruct (sextet_bounds a b c Ha Hb Hc) as (? & ? & ? & ? & _ & _).
    cbn [base64url_unpadded list_ascii_of_string].
    repeat (constructor; [by apply url_safe_digit|]).
    apply IH; [|done]. simpl in Hlen. lia.
Qed.

Lemma base64url_unpadded_length : forall n bytes,
  length bytes <= n ->
  3 * String.length (base64url_unpadded bytes) + 2 = 4 * length bytes + 2
  \/ 3 * String.length (base64url_unpadded bytes) = 4 * length bytes + 2
  \/ 3 * String.length (base64url_unpadded bytes) = 4 * length bytes + 1.
Proof.
  induction n as [|n IH]; intros bytes Hlen.
  { destruct bytes; [by left|simpl in Hlen; lia]. }
  destruct bytes as [|a [|b [|c rest]]]; [by left| | |].
  - right. by left.
  - right. by right.
  - destruct (IH rest) as [H|[H|H]]; [simpl in Hlen; lia| | |];
      cbn [base64url_unpadded String.length length]; lia.
Qed.

(** X25. The key text that [encryptDataForTEE] hands to Fernet and to the
    compute service is the unpadded URL-safe base64 text of the key bytes:
    it consists of letters, digits, [-] and [_] only, and for the 32 bytes
    of a key it has 43 characters. *)
Theorem keyBase64_is_unpadded_base64url keyBytes :
  Forall (fun b => (b < 256)%N) keyBytes ->
  keyBase64 keyBytes = base64url_unpadded keyBytes
  /\ Forall (fun c => url_safe c = true) (list_ascii_of_string (keyBase64 keyBytes))
  /\ (length keyBytes = 32 -> String.length (keyBase64 keyBytes) = 43).
Proof.
  intros Hbytes.
  pose proof (keyBase64_unpadded (length keyBytes) keyBytes (Nat.le_refl _) Hbytes) as Heq.
  rewrite Heq. split; [done|]. split.
  - by apply (base64url_unpadded_safe (length keyBytes)).
  - intros Hlen.
    destruct (base64url_unpadded_length (length keyBytes) keyBytes (Nat.le_refl _))
      as [H|[H|H]]; lia.
Qed.

Lemma keyBase64_is_unpadded_base64url_witness :
  keyBase64 sample_key = "-__-BwcHBwcHBwcHBwcHBwcHBwcHBwcHBwcHBwcHBwc"
  /\ base64 sample_key = "+//+BwcHBwcHBwcHBwcHBwcHBwcHBwcHBwcHBwcHBwc="
  /\ String.length (keyBase64 sample_key) = 43.
Proof.
  destruct (keyBase64_is_unpadded_base64url sample_key) as (Heq & _ & Hlen).
  { apply (bool_decide_unpack _). vm_compute. exact I. }
  split; [rewrite Heq; reflexivity|]. split; [reflexivity|]. apply Hlen. reflexivity.
Defined.

End EncryptionExtras.
